(** * Recovery by one-time code: the strategy handler of kratos

    A shallow embedding of the recovery-by-code strategy
    ([selfservice/strategy/code], functions [Recover], [recoveryUseCode],
    [recoveryIssueSession], [recoveryHandleFormSubmission],
    [retryRecoveryFlowWithMessage], [retryRecoveryFlowWithError],
    [markRecoveryAddressVerified], [HandleRecoveryError]) and of the two
    gates of package [flow] ([EnsureCSRF], [MethodEnabledAndAllowed]).

    The handler talks to its collaborators (persisters, session manager,
    configuration, CSRF handler, HTTP writer) through the registry [s.deps].
    Every such call is an operation [Op]; a handler is a finite tree of
    operations ([Prog]) whose continuation receives the collaborator's answer.
    A handler's runs are therefore the branches of its tree, one per possible
    sequence of answers, and each run leaves a trace of [Event]s (call,
    arguments, answer).  The in-memory flow [*recovery.Flow] the handler
    mutates is passed in and returned.  Calls to the logger are left out.

    Beside the strategy, the file embeds what the strategy and its callers
    use of package [identity] (credential types, assurance levels, equality
    of credential maps), the two hooks of [CodeAddressVerifier] that mark
    the address of a login or registration code as verified, and the
    registry of middlewares of package [saml]. *)

From stdpp Require Import gmap strings list.
From Stdlib Require Import ZArith String Ascii Bool Lia.

Open Scope string_scope.
Open Scope list_scope.

(** Identifiers ([uuid.UUID]) and instants ([time.Time]) are opaque numbers. *)
Definition UUID := N.
Definition Time := Z.

(* ===================================================================== *)
(** ** Package [text]: the messages the handler attaches to a flow *)

Module text.

Inductive Message :=
| NewErrorValidationRecoveryRetrySuccess
| NewErrorValidationRecoveryStateFailure
| NewErrorValidationRecoveryCodeInvalidOrAlreadyUsed
| NewErrorValidationRecoveryFlowExpired (expiredAt : Time)
| NewRecoveryEmailWithCodeSent
| NewRecoverySuccessful (privilegedSessionExpiresAt : Time)
| NewInfoNodeInputEmail
| NewInfoNodeLabelSubmit
| NewInfoNodeLabelVerifyOTP
| NewInfoNodeResendOTP
| OtherMessage (id : Z) (txt : string).

End text.

(* ===================================================================== *)
(** ** Package [node] and [container]: the form shown to the client *)

Module node.

Definition UiNodeGroup := string.
Definition DefaultGroup : UiNodeGroup := "default".
Definition CodeGroup : UiNodeGroup := "code".

Definition InputAttributeTypeText := "text".
Definition InputAttributeTypeEmail := "email".
Definition InputAttributeTypeHidden := "hidden".
Definition InputAttributeTypeSubmit := "submit".

Record Node := {
  Group : UiNodeGroup;
  Name : string;
  Value : option string;
  InputType : string;
  Required : bool;
  Label : option text.Message;
  Messages : list text.Message
}.

(** [node.NewInputField(name, value, group, inputType, opts...)], the only
    option in use being [WithRequiredInputAttribute]. *)
Definition NewInputField (name : string) (value : option string)
    (group : UiNodeGroup) (inputType : string) (required : bool) : Node :=
  {| Group := group; Name := name; Value := value; InputType := inputType;
     Required := required; Label := None; Messages := [] |}.

Definition WithMetaLabel (n : Node) (l : text.Message) : Node :=
  {| Group := Group n; Name := Name n; Value := Value n;
     InputType := InputType n; Required := Required n;
     Label := Some l; Messages := Messages n |}.

Definition ResetMessages (n : Node) : Node :=
  {| Group := Group n; Name := Name n; Value := Value n;
     InputType := InputType n; Required := Required n;
     Label := Label n; Messages := [] |}.

Definition Nodes := list Node.

Definition Append (ns : Nodes) (n : Node) : Nodes := ns ++ [n].

(** Modelled from the spec: the input-field descriptors are an ordered list,
    "appendable"; [Upsert] replaces the first descriptor that carries the
    same name and appends otherwise. *)
Fixpoint Upsert (ns : Nodes) (n : Node) : Nodes :=
  match ns with
  | [] => [n]
  | m :: rest =>
      if String.eqb (Name m) (Name n) then n :: rest else m :: Upsert rest n
  end.

End node.

(** Where the client is sent or where a form posts to.  The handler builds
    these with [urlx] from a configured base address and a flow identifier. *)
Inductive URL :=
| GetFlowURL (selfPublicURL : string) (id : UUID)
    (* CopyWithQuery(AppendPaths(SelfPublicURL, recovery.RouteGetFlow), id=...) *)
| SubmitFlowURL (selfPublicURL : string) (id : UUID)
    (* AppendFlowTo(AppendPaths(SelfPublicURL, recovery.RouteSubmitFlow), id) *)
| AppendTo (ui : string) (id : UUID).
    (* f.AppendTo(ui): the UI address with query flow=id *)

Module container.

Record Container := {
  Method : string;
  Action : option URL;
  Nodes : node.Nodes;
  Messages : list text.Message
}.

Definition withNodes (c : Container) (ns : node.Nodes) : Container :=
  {| Method := Method c; Action := Action c; Nodes := ns;
     Messages := Messages c |}.

Definition withMessages (c : Container) (ms : list text.Message) : Container :=
  {| Method := Method c; Action := Action c; Nodes := Nodes c;
     Messages := ms |}.

(** [c.Messages.Clear()], [c.Messages.Add(m)], [c.Messages.Set(m)]. *)
Definition MessagesClear (c : Container) : Container := withMessages c [].
Definition MessagesAdd (c : Container) (m : text.Message) : Container :=
  withMessages c (Messages c ++ [m]).
Definition MessagesSet (c : Container) (m : text.Message) : Container :=
  withMessages c [m].

(** Modelled from the spec: the message list is "mutable, cleared/replaced
    per transition"; [ResetMessages] empties the list of the container and
    that of every node. *)
Definition ResetMessages (c : Container) : Container :=
  {| Method := Method c; Action := Action c;
     Nodes := map node.ResetMessages (Nodes c); Messages := [] |}.

(** Modelled from the spec: [SetCSRF] stores the anti-forgery token as a
    hidden required input of the default group. *)
Definition SetCSRF (c : Container) (token : string) : Container :=
  withNodes c
    (node.Upsert (Nodes c)
       (node.NewInputField "csrf_token" (Some token) node.DefaultGroup
          node.InputAttributeTypeHidden true)).

End container.

(* ===================================================================== *)
(** ** Package [identity] *)

Module identity.

Definition CredentialsType := string.
Definition CredentialsTypeCodeAuth : CredentialsType := "code".
Definition CredentialsTypeRecoveryCode : CredentialsType := "code_recovery".

Definition AuthenticatorAssuranceLevel := string.
Definition NoAuthenticatorAssuranceLevel : AuthenticatorAssuranceLevel := "aal0".
Definition AuthenticatorAssuranceLevel1 : AuthenticatorAssuranceLevel := "aal1".
Definition AuthenticatorAssuranceLevel2 : AuthenticatorAssuranceLevel := "aal2".

Definition VerifiableAddressTypeEmail := "email".
Definition VerifiableAddressStatusCompleted := "completed".

Record VerifiableAddress := {
  va_ID : UUID;
  va_Value : string;
  va_Verified : bool;
  va_Via : string;
  va_Status : string;
  va_VerifiedAt : option Time
}.

Record RecoveryAddress := {
  ra_ID : UUID;
  ra_Value : string
}.

Record Identity := {
  ID : UUID;
  VerifiableAddresses : list VerifiableAddress;
  RecoveryAddresses : list RecoveryAddress
}.

(** [identity/credentials.go].  The credential types, as declared. *)
Definition CredentialsTypePassword : CredentialsType := "password".
Definition CredentialsTypeOIDC : CredentialsType := "oidc".
Definition CredentialsTypeTOTP : CredentialsType := "totp".
Definition CredentialsTypeLookup : CredentialsType := "lookup_secret".
Definition CredentialsTypeWebAuthn : CredentialsType := "webauthn".
Definition CredentialsTypeRecoveryLink : CredentialsType := "link_recovery".

Definition CredentialsType_String (c : CredentialsType) : string := c.

Definition AllCredentialTypes : list CredentialsType :=
  [CredentialsTypePassword; CredentialsTypeOIDC; CredentialsTypeTOTP;
   CredentialsTypeLookup; CredentialsTypeWebAuthn].

(** [sql.NullString]; its zero value is the empty string, not valid. *)
Record NullString := { String_ : string; Valid : bool }.

Definition NullableAuthenticatorAssuranceLevel := NullString.

Definition NewNullableAuthenticatorAssuranceLevel (aal : AuthenticatorAssuranceLevel)
    : NullableAuthenticatorAssuranceLevel :=
  if String.eqb aal NoAuthenticatorAssuranceLevel
     || String.eqb aal AuthenticatorAssuranceLevel1
     || String.eqb aal AuthenticatorAssuranceLevel2
  then {| String_ := aal; Valid := true |}
  else {| String_ := ""; Valid := false |}.

Definition ToAAL (n : NullableAuthenticatorAssuranceLevel)
    : AuthenticatorAssuranceLevel * bool :=
  if negb (Valid n) then ("", false)
  else if String.eqb (String_ n) NoAuthenticatorAssuranceLevel
  then (NoAuthenticatorAssuranceLevel, true)
  else if String.eqb (String_ n) AuthenticatorAssuranceLevel1
  then (AuthenticatorAssuranceLevel1, true)
  else if String.eqb (String_ n) AuthenticatorAssuranceLevel2
  then (AuthenticatorAssuranceLevel2, true)
  else ("", false).

(** The loop of [ParseCredentialsType] over the types it knows. *)
Fixpoint parseAmong (ts : list CredentialsType) (input : string)
    : CredentialsType * bool :=
  match ts with
  | [] => ("", false)
  | t :: rest =>
      if String.eqb (CredentialsType_String t) input then (t, true)
      else parseAmong rest input
  end.

Definition ParseCredentialsType (input : string) : CredentialsType * bool :=
  parseAmong
    [CredentialsTypePassword; CredentialsTypeOIDC; CredentialsTypeTOTP;
     CredentialsTypeLookup; CredentialsTypeWebAuthn; CredentialsTypeCodeAuth;
     CredentialsTypeRecoveryLink; CredentialsTypeRecoveryCode]
    input.

(** [Credentials].  [Identifiers] is a slice: [None] is the nil slice, which
    [reflect.DeepEqual] tells from an empty one.  [Config] is a byte string,
    read by [CredentialsEqual] through [string(Config)]. *)
Record Credentials := {
  cred_ID : UUID;
  cred_Type : CredentialsType;
  IdentityCredentialTypeID : UUID;
  Identifiers : option (list string);
  IdentifierAddressType : string;
  Config : string;
  Version : Z;
  cred_IdentityID : UUID;
  CreatedAt : Time;
  UpdatedAt : Time;
  NID : UUID
}.

(** [reflect.DeepEqual] on two slices of strings. *)
Definition DeepEqual (x y : option (list string)) : bool :=
  match x, y with
  | None, None => true
  | Some l, Some l' => bool_decide (l = l')
  | _, _ => false
  end.

(** [CredentialsEqual(a, b)], on maps keyed by credential type.  The loop
    ranges over [b] and leaves with [false] at the first entry that fails,
    whatever the order of the range. *)
Definition CredentialsEqual (a b : gmap string Credentials) : bool :=
  if negb (Nat.eqb (size a) (size b)) then false
  else if Nat.eqb (size a) 0 && Nat.eqb (size b) 0 then true
  else
    forallb
      (fun '(k, expect) =>
         match a !! k with
         | None => false
         | Some actual =>
             String.eqb (Config expect) (Config actual)
             && DeepEqual (Identifiers expect) (Identifiers actual)
         end)
      (map_to_list b).

End identity.

Module session.

Record Session := {
  Identity : identity.Identity;
  Token : string;
  AuthenticatedAt : Time;
  Method : identity.CredentialsType;
  AAL : identity.AuthenticatorAssuranceLevel
}.

End session.

(* ===================================================================== *)
(** ** Errors

    Go errors are compared by identity ([errors.Is]) or by dynamic type
    ([errors.As]); wrapping by [errors.WithStack] keeps both, so an error is
    modelled by the sentinel or structure it wraps. *)

Inductive Err :=
| ErrStrategyNotResponsible                    (* flow.ErrStrategyNotResponsible *)
| ErrCompletedByStrategy                       (* flow.ErrCompletedByStrategy *)
| ErrOriginHeaderNeedsBrowserFlow
| ErrCookieHeaderNeedsBrowserFlow
| ErrNotFound (reason : string)                (* herodot.ErrNotFound.WithReason *)
| ErrCodeNotFound                              (* code.ErrCodeNotFound *)
| ErrUnknownAddress                            (* code.ErrUnknownAddress *)
| ErrAlreadyLoggedIn                           (* recovery.ErrAlreadyLoggedIn *)
| ExpiredError (ExpiredAt : Time)              (* *flow.ExpiredError *)
| RequiredError (pointer missing : string)     (* schema.NewRequiredError *)
| BrowserLocationChangeRequiredError (redirectTo : URL)
| OtherError (msg : string).                   (* any other failure *)

Module strategy.
(** The constant is declared in package [strategy]; the handler only passes
    it on. *)
Definition EndpointDisabledMessage : string :=
  "This endpoint was disabled by system administrator. Please check your url or contact the system administrator to enable it.".
End strategy.

(* ===================================================================== *)
(** ** Package [flow]: types *)

Module flow.

Definition FlowType := string.                  (* flow.Type *)
Definition TypeAPI : FlowType := "api".
Definition TypeBrowser : FlowType := "browser".
Definition IsAPI (t : FlowType) : bool := String.eqb t TypeAPI.

Definition State := string.
Definition StateChooseMethod : State := "choose_method".
Definition StateEmailSent : State := "sent_email".
Definition StatePassedChallenge : State := "passed_challenge".

Inductive FlowName :=
| LoginFlow | RegistrationFlow | SettingsFlow | RecoveryFlow | VerificationFlow.

End flow.

Module config.

Record SelfServiceStrategy := { Enabled : bool }.

Record SelfServiceStrategyCode := {
  CodeEnabled : bool;                           (* the embedded .Enabled *)
  RegistrationEnabled : bool;
  LoginEnabled : bool
}.

End config.

Module settings.

Record Flow := {
  ID : UUID;
  RequestURL : string;
  UI : container.Container
}.

Definition withRequestURL (sf : Flow) (u : string) : Flow :=
  {| ID := ID sf; RequestURL := u; UI := UI sf |}.
Definition withUI (sf : Flow) (c : container.Container) : Flow :=
  {| ID := ID sf; RequestURL := RequestURL sf; UI := c |}.

End settings.

Inductive ContinueWith :=
| NewContinueWithSetToken (sessionToken : string)
| NewContinueWithSettingsUI (sf : settings.Flow).

(* ===================================================================== *)
(** ** Package [recovery]: the flow record *)

Module recovery.

Definition RecoveryStrategyCode : string := "code".

Record Flow := {
  ID : UUID;
  Type_ : flow.FlowType;
  ExpiresAt : Time;
  RequestURL : string;
  Active : string;                              (* sqlxx.NullString *)
  UI : container.Container;
  State : flow.State;
  CSRFToken : string;
  RecoveredIdentityID : option UUID;            (* uuid.NullUUID *)
  DangerousSkipCSRFCheck : bool;
  ContinueWith_ : list ContinueWith
}.

Definition withUI (f : Flow) (c : container.Container) : Flow :=
  {| ID := ID f; Type_ := Type_ f; ExpiresAt := ExpiresAt f;
     RequestURL := RequestURL f; Active := Active f; UI := c;
     State := State f; CSRFToken := CSRFToken f;
     RecoveredIdentityID := RecoveredIdentityID f;
     DangerousSkipCSRFCheck := DangerousSkipCSRFCheck f;
     ContinueWith_ := ContinueWith_ f |}.

Definition withState (f : Flow) (s : flow.State) : Flow :=
  {| ID := ID f; Type_ := Type_ f; ExpiresAt := ExpiresAt f;
     RequestURL := RequestURL f; Active := Active f; UI := UI f;
     State := s; CSRFToken := CSRFToken f;
     RecoveredIdentityID := RecoveredIdentityID f;
     DangerousSkipCSRFCheck := DangerousSkipCSRFCheck f;
     ContinueWith_ := ContinueWith_ f |}.

Definition withActive (f : Flow) (a : string) : Flow :=
  {| ID := ID f; Type_ := Type_ f; ExpiresAt := ExpiresAt f;
     RequestURL := RequestURL f; Active := a; UI := UI f;
     State := State f; CSRFToken := CSRFToken f;
     RecoveredIdentityID := RecoveredIdentityID f;
     DangerousSkipCSRFCheck := DangerousSkipCSRFCheck f;
     ContinueWith_ := ContinueWith_ f |}.

(** [f.SetCSRFToken(token)] *)
Definition SetCSRFToken (f : Flow) (token : string) : Flow :=
  {| ID := ID f; Type_ := Type_ f; ExpiresAt := ExpiresAt f;
     RequestURL := RequestURL f; Active := Active f; UI := UI f;
     State := State f; CSRFToken := token;
     RecoveredIdentityID := RecoveredIdentityID f;
     DangerousSkipCSRFCheck := DangerousSkipCSRFCheck f;
     ContinueWith_ := ContinueWith_ f |}.

Definition withRecoveredIdentityID (f : Flow) (i : option UUID) : Flow :=
  {| ID := ID f; Type_ := Type_ f; ExpiresAt := ExpiresAt f;
     RequestURL := RequestURL f; Active := Active f; UI := UI f;
     State := State f; CSRFToken := CSRFToken f;
     RecoveredIdentityID := i;
     DangerousSkipCSRFCheck := DangerousSkipCSRFCheck f;
     ContinueWith_ := ContinueWith_ f |}.

Definition withContinueWith (f : Flow) (c : list ContinueWith) : Flow :=
  {| ID := ID f; Type_ := Type_ f; ExpiresAt := ExpiresAt f;
     RequestURL := RequestURL f; Active := Active f; UI := UI f;
     State := State f; CSRFToken := CSRFToken f;
     RecoveredIdentityID := RecoveredIdentityID f;
     DangerousSkipCSRFCheck := DangerousSkipCSRFCheck f;
     ContinueWith_ := c |}.

End recovery.

(* ===================================================================== *)
(** ** Package [code]: data of the strategy *)

Inductive RecoveryCodeType :=
| RecoveryCodeTypeAdmin
| RecoveryCodeTypeSelfService.

Record RecoveryCode := {
  code_ID : UUID;
  code_Value : string;                          (* the secret the user types *)
  UsedAt : option Time;                         (* sql.NullTime *)
  IdentityID : UUID;
  CodeType : RecoveryCodeType;
  code_ExpiresAt : Time;
  FlowID : UUID;
  RecoveryAddress : option identity.RecoveryAddress   (* nil for admin codes *)
}.

Record recoverySubmitPayload := {
  Method : string;
  Code : string;
  CSRFToken : string;
  Flow : string;
  Email : string
}.

(** What the handler itself reads of [*http.Request] is the [Origin] header
    and the cookie names; the remaining fields are read by collaborators. *)
Record Request := {
  Header_Origin : string;                       (* r.Header.Get("Origin") *)
  Cookies : list string;                        (* names of r.Cookies() *)
  AcceptsJSON : bool;
  Form : recoverySubmitPayload;
  SessionToken : option string
}.

Definition StatusSeeOther : nat := 303.

(* ===================================================================== *)
(** ** Collaborator calls

    One constructor per call the handler makes on [s.deps], on the request
    decoder, on the clock and on the response writer. *)

Inductive Op :=
(* request *)
| DecodeRecovery (r : Request)                 (* s.dx.Decode(r, &body, ...) *)
| IsJSONRequest (r : Request)                  (* x.IsJSONRequest(r) *)
| ParseUUID (s : string)                       (* x.ParseUUID *)
| Now                                          (* time.Now() *)
(* configuration: s.deps.Config() *)
| DisableAPIFlowEnforcement
| SelfServiceCodeStrategy
| SelfServiceStrategy (id : string)
| SelfServiceFlowRecoveryRequestLifespan
| SelfPublicURL
| SelfServiceFlowRecoveryUI
| SelfServiceFlowSettingsUI
| SelfServiceFlowRecoveryReturnTo
| SelfServiceFlowSettingsPrivilegedSessionMaxAge
(* anti-forgery *)
| GenerateCSRFToken (r : Request)              (* s.deps.GenerateCSRFToken(r) *)
| RegenerateToken (r : Request)                (* s.deps.CSRFHandler().RegenerateToken(w, r) *)
| VerifyToken (realToken sentToken : string)   (* nosurf.VerifyToken *)
| CSRFErrorReason (r : Request)                (* x.CSRFErrorReason(r, reg) *)
(* recovery codes: RecoveryCodePersister, CodeSender *)
| UseRecoveryCode (flowID : UUID) (code : string)
| DeleteRecoveryCodesOfFlow (flowID : UUID)
| SendRecoveryCode (f : recovery.Flow) (via to : string)
(* recovery flows: RecoveryFlowPersister, package recovery *)
| GetRecoveryFlow (id : UUID)
| UpdateRecoveryFlow (f : recovery.Flow)
| CreateRecoveryFlow (f : recovery.Flow)
| FlowValid (f : recovery.Flow)                (* flow.Valid() *)
| NewFlow (lifespan : Time) (csrf : string) (r : Request) (ft : flow.FlowType)
| ParseError (ui : container.Container) (group : node.UiNodeGroup) (e : Err)
(* identities *)
| GetIdentity (id : UUID)
| UpdateVerifiableAddress (a : identity.VerifiableAddress)
(* sessions and the follow-up settings flow *)
| FetchFromRequest (r : Request)
| NewActiveSession (r : Request) (i : identity.Identity) (authenticatedAt : Time)
    (completedLoginFor : identity.CredentialsType)
    (completedLoginAAL : identity.AuthenticatorAssuranceLevel)
| UpsertAndIssueCookie (r : Request) (s : session.Session)
| UpsertSession (s : session.Session)
| SettingsNewFlow (r : Request) (i : identity.Identity) (ft : flow.FlowType)
| TakeOverReturnToParameter (from to fallback : string)
| PostRecoveryHook (r : Request) (f : recovery.Flow) (s : session.Session)
| UpdateSettingsFlow (sf : settings.Flow)
(* responses *)
| RespondWithJSONErrorOnAuthenticated (r : Request) (e : Err)
| RedirectOnAuthenticated (r : Request)
| WriterWrite (r : Request) (f : recovery.Flow)
| WriterWriteError (r : Request) (e : Err)
| HttpRedirect (r : Request) (url : URL) (status : nat).

(** The Go result of each call; a pair [(value, error)] is a sum, a lone
    [error] is an [option]. *)
Definition result (o : Op) : Type :=
  match o with
  | DecodeRecovery _ => Err + recoverySubmitPayload
  | IsJSONRequest _ => bool
  | ParseUUID _ => UUID
  | Now => Time
  | DisableAPIFlowEnforcement => bool
  | SelfServiceCodeStrategy => config.SelfServiceStrategyCode
  | SelfServiceStrategy _ => config.SelfServiceStrategy
  | SelfServiceFlowRecoveryRequestLifespan => Time
  | SelfPublicURL => string
  | SelfServiceFlowRecoveryUI => string
  | SelfServiceFlowSettingsUI => string
  | SelfServiceFlowRecoveryReturnTo => option string
  | SelfServiceFlowSettingsPrivilegedSessionMaxAge => Time
  | GenerateCSRFToken _ => string
  | RegenerateToken _ => string
  | VerifyToken _ _ => bool
  | CSRFErrorReason _ => Err
  | UseRecoveryCode _ _ => Err + RecoveryCode
  | DeleteRecoveryCodesOfFlow _ => option Err
  | SendRecoveryCode _ _ _ => option Err
  | GetRecoveryFlow _ => Err + recovery.Flow
  | UpdateRecoveryFlow _ => option Err
  | CreateRecoveryFlow _ => option Err
  | FlowValid _ => option Err
  | NewFlow _ _ _ _ => Err + recovery.Flow
  | ParseError _ _ _ => Err + container.Container
  | GetIdentity _ => Err + identity.Identity
  | UpdateVerifiableAddress _ => option Err
  | FetchFromRequest _ => Err + session.Session
  | NewActiveSession _ _ _ _ _ => Err + session.Session
  | UpsertAndIssueCookie _ _ => option Err
  | UpsertSession _ => option Err
  | SettingsNewFlow _ _ _ => Err + settings.Flow
  | TakeOverReturnToParameter _ _ _ => Err + string
  | PostRecoveryHook _ _ _ => option Err
  | UpdateSettingsFlow _ => option Err
  | RespondWithJSONErrorOnAuthenticated _ _ => unit
  | RedirectOnAuthenticated _ => unit
  | WriterWrite _ _ => unit
  | WriterWriteError _ _ => unit
  | HttpRedirect _ _ _ => unit
  end.

(** Answers, untyped, as they are recorded in a trace. *)
Inductive Answer :=
| AUnit
| ABool (b : bool)
| AString (s : string)
| AOptString (s : option string)
| ATime (t : Time)
| AUUID (u : UUID)
| AErr (e : Err)
| AError (e : option Err)
| APayload (p : Err + recoverySubmitPayload)
| ACode (c : Err + RecoveryCode)
| AFlow (f : Err + recovery.Flow)
| AContainer (c : Err + container.Container)
| AIdentity (i : Err + identity.Identity)
| ASession (s : Err + session.Session)
| ASettingsFlow (f : Err + settings.Flow)
| AReturnTo (u : Err + string)
| AStrategy (c : config.SelfServiceStrategy)
| ACodeStrategy (c : config.SelfServiceStrategyCode).

Definition answer (o : Op) : result o -> Answer :=
  match o return result o -> Answer with
  | DecodeRecovery _ => APayload
  | IsJSONRequest _ => ABool
  | ParseUUID _ => AUUID
  | Now => ATime
  | DisableAPIFlowEnforcement => ABool
  | SelfServiceCodeStrategy => ACodeStrategy
  | SelfServiceStrategy _ => AStrategy
  | SelfServiceFlowRecoveryRequestLifespan => ATime
  | SelfPublicURL => AString
  | SelfServiceFlowRecoveryUI => AString
  | SelfServiceFlowSettingsUI => AString
  | SelfServiceFlowRecoveryReturnTo => AOptString
  | SelfServiceFlowSettingsPrivilegedSessionMaxAge => ATime
  | GenerateCSRFToken _ => AString
  | RegenerateToken _ => AString
  | VerifyToken _ _ => ABool
  | CSRFErrorReason _ => AErr
  | UseRecoveryCode _ _ => ACode
  | DeleteRecoveryCodesOfFlow _ => AError
  | SendRecoveryCode _ _ _ => AError
  | GetRecoveryFlow _ => AFlow
  | UpdateRecoveryFlow _ => AError
  | CreateRecoveryFlow _ => AError
  | FlowValid _ => AError
  | NewFlow _ _ _ _ => AFlow
  | ParseError _ _ _ => AContainer
  | GetIdentity _ => AIdentity
  | UpdateVerifiableAddress _ => AError
  | FetchFromRequest _ => ASession
  | NewActiveSession _ _ _ _ _ => ASession
  | UpsertAndIssueCookie _ _ => AError
  | UpsertSession _ => AError
  | SettingsNewFlow _ _ _ => ASettingsFlow
  | TakeOverReturnToParameter _ _ _ => AReturnTo
  | PostRecoveryHook _ _ _ => AError
  | UpdateSettingsFlow _ => AError
  | RespondWithJSONErrorOnAuthenticated _ _ => fun _ => AUnit
  | RedirectOnAuthenticated _ => fun _ => AUnit
  | WriterWrite _ _ => fun _ => AUnit
  | WriterWriteError _ _ => fun _ => AUnit
  | HttpRedirect _ _ _ => fun _ => AUnit
  end.

(** An event of a trace: the call and what it answered. *)
Definition Event : Type := Op * Answer.
Definition Trace : Type := list Event.

(* ===================================================================== *)
(** ** Handlers as trees of calls *)

Inductive Prog (A : Type) : Type :=
| Ret (a : A)
| Panic (msg : string)                         (* a Go run-time panic *)
| Vis (o : Op) (k : result o -> Prog A).

Arguments Ret {A} a.
Arguments Panic {A} msg.
Arguments Vis {A} o k.

Fixpoint bind {A B} (p : Prog A) (f : A -> Prog B) : Prog B :=
  match p with
  | Ret a => f a
  | Panic m => Panic m
  | Vis o k => Vis o (fun x => bind (k x) f)
  end.

Definition call (o : Op) : Prog (result o) := Vis o Ret.

Notation "'let*' x ':=' p 'in' q" := (bind p (fun x => q))
  (at level 10, x pattern, p at level 200, q at level 200).

(** [behaves p t r]: the handler [p] has a run with trace [t] that ends with
    [Some a] (it returned [a]) or [None] (it panicked). *)
Fixpoint behaves {A} (p : Prog A) (t : Trace) (r : option A) : Prop :=
  match p with
  | Ret a => t = [] /\ r = Some a
  | Panic _ => t = [] /\ r = None
  | Vis o k => exists x t', t = (o, answer o x) :: t' /\ behaves (k x) t' r
  end.

(** An implementation of the collaborators over a store [W], and the run of a
    handler against it. *)
Definition Impl (W : Type) : Type := forall o : Op, W -> result o * W.

Fixpoint run {W A} (I : Impl W) (p : Prog A) (w : W) : option A * W * Trace :=
  match p with
  | Ret a => (Some a, w, [])
  | Panic _ => (None, w, [])
  | Vis o k =>
      let '(x, w1) := I o w in
      let '(r, w2, t) := run I (k x) w1 in
      (r, w2, (o, answer o x) :: t)
  end.

(* ===================================================================== *)
(** ** Package [flow]: the two gates *)

(** [strings.HasPrefix(c.Name, "__cf")] over the request's cookies: is there
    a cookie that Cloudflare did not set? *)
Definition hasCookie (r : Request) : bool :=
  existsb (fun name => negb (String.prefix "__cf" name)) (Cookies r).

Definition EnsureCSRF (r : Request) (flowType : flow.FlowType)
    (disableAPIFlowEnforcement : bool) (actual : string) : Prog (option Err) :=
  if String.eqb flowType flow.TypeAPI then
    if disableAPIFlowEnforcement then Ret None
    else if negb (String.eqb (Header_Origin r) "") then
      Ret (Some ErrOriginHeaderNeedsBrowserFlow)
    else if hasCookie r then Ret (Some ErrCookieHeaderNeedsBrowserFlow)
    else Ret None
  else
    let* token := call (GenerateCSRFToken r) in
    let* ok := call (VerifyToken token actual) in
    if negb ok then
      let* e := call (CSRFErrorReason r) in
      Ret (Some e)
    else Ret None.

(** [strings.EqualFold]: on bytes, with the ASCII letters folded.  Against the
    literal ["code"], whose letters have no other fold partner, this is Go's
    Unicode simple folding. *)
Definition lower (c : ascii) : ascii :=
  let n := N_of_ascii c in
  if ((65 <=? n) && (n <=? 90))%N then ascii_of_N (n + 32) else c.

Fixpoint EqualFold (s t : string) : bool :=
  match s, t with
  | EmptyString, EmptyString => true
  | String a s', String b t' => Ascii.eqb (lower a) (lower b) && EqualFold s' t'
  | _, _ => false
  end.

Definition MethodEnabledAndAllowed (flowName : flow.FlowName)
    (expected actual : string) : Prog (option Err) :=
  if negb (String.eqb actual expected) then
    Ret (Some ErrStrategyNotResponsible)
  else
    let* ok := (if EqualFold actual identity.CredentialsTypeCodeAuth then
            match flowName with
            | flow.RegistrationFlow =>
                let* c := call SelfServiceCodeStrategy in
                Ret (config.RegistrationEnabled c)
            | flow.LoginFlow =>
                let* c := call SelfServiceCodeStrategy in
                Ret (config.LoginEnabled c)
            | _ =>
                let* c := call SelfServiceCodeStrategy in
                Ret (config.CodeEnabled c)
            end
          else
            let* c := call (SelfServiceStrategy expected) in
            Ret (config.Enabled c)) in
    if negb ok then Ret (Some (ErrNotFound strategy.EndpointDisabledMessage))
    else Ret None.

(* ===================================================================== *)
(** ** Package [code]: the recovery strategy *)

Definition RecoveryStrategyID : string := recovery.RecoveryStrategyCode.
Definition RecoveryNodeGroup : node.UiNodeGroup := node.CodeGroup.

Definition isCodeFlow (f : recovery.Flow) : bool :=
  String.eqb (recovery.Active f) RecoveryNodeGroup.

(** [HandleRecoveryError(w, r, flow, body, err)]: [fl] and [body] may be
    [nil]; the error is handed back, the flow (when there is one) gets a
    fresh anti-forgery token and its e-mail input. *)
Definition HandleRecoveryError (r : Request) (fl : option recovery.Flow)
    (body : option recoverySubmitPayload) (err : Err)
    : Prog (option recovery.Flow * Err) :=
  match fl with
  | None => Ret (@None recovery.Flow, err)
  | Some g =>
      let email := match body with Some b => Email b | None => "" end in
      let* token := call (GenerateCSRFToken r) in
      let ui := container.SetCSRF (recovery.UI g) token in
      let ui := container.withNodes ui
        (node.Upsert (container.Nodes ui)
           (node.WithMetaLabel
              (node.NewInputField "email" (Some email) node.CodeGroup
                 node.InputAttributeTypeEmail true)
              text.NewInfoNodeInputEmail)) in
      Ret (Some (recovery.withUI g ui), err)
  end.

(** The same, for the call sites that pass the flow they hold. *)
Definition HandleRecoveryErrorOn (r : Request) (f : recovery.Flow)
    (body : option recoverySubmitPayload) (err : Err)
    : Prog (recovery.Flow * option Err) :=
  let* (g, e) := HandleRecoveryError r (Some f) body err in
  Ret (match g with Some g => g | None => f end, Some e).

Definition redirectToNewFlow (r : Request) (f : recovery.Flow) : Prog unit :=
  let* json := call (IsJSONRequest r) in
  if json then
    let* pub := call SelfPublicURL in
    call (HttpRedirect r (GetFlowURL pub (recovery.ID f)) StatusSeeOther)
  else
    let* ui := call SelfServiceFlowRecoveryUI in
    call (HttpRedirect r (AppendTo ui (recovery.ID f)) StatusSeeOther).

Definition retryRecoveryFlowWithMessage (r : Request) (ft : flow.FlowType)
    (message : text.Message) : Prog Err :=
  let* lifespan := call SelfServiceFlowRecoveryRequestLifespan in
  let* token := call (RegenerateToken r) in
  let* nf := call (NewFlow lifespan token r ft) in
  match nf with
  | inl err => Ret err
  | inr f =>
      let f := recovery.withUI f (container.MessagesAdd (recovery.UI f) message) in
      let* c := call (CreateRecoveryFlow f) in
      match c with
      | Some err => Ret err
      | None =>
          let* _ := redirectToNewFlow r f in
          Ret ErrCompletedByStrategy
      end
  end.

Definition retryRecoveryFlowWithError (r : Request) (ft : flow.FlowType)
    (recErr : Err) : Prog Err :=
  match recErr with
  | ExpiredError expiredAt =>
      retryRecoveryFlowWithMessage r ft
        (text.NewErrorValidationRecoveryFlowExpired expiredAt)
  | _ =>
      let* lifespan := call SelfServiceFlowRecoveryRequestLifespan in
      let* token := call (RegenerateToken r) in
      let* nf := call (NewFlow lifespan token r ft) in
      match nf with
      | inl err => Ret err
      | inr f =>
          let* p := call (ParseError (recovery.UI f) node.CodeGroup recErr) in
          match p with
          | inl err => Ret err
          | inr ui =>
              let f := recovery.withUI f ui in
              let* c := call (CreateRecoveryFlow f) in
              match c with
              | Some err => Ret err
              | None =>
                  let* _ := redirectToNewFlow r f in
                  Ret ErrCompletedByStrategy
              end
          end
      end
  end.

(** [retryRecoveryFlowWithError] for a caller that holds the flow [f]. *)
Definition retryWith (r : Request) (f : recovery.Flow) (err : Err)
    : Prog (recovery.Flow * option Err) :=
  let* e := retryRecoveryFlowWithError r (recovery.Type_ f) err in
  Ret (f, Some e).

(** The loop of [markRecoveryAddressVerified]: the first address whose value
    is that of the recovery address.  The loop body dereferences
    [recoveryAddress], which is [nil] for a code without one. *)
Definition findAddress (addrs : list identity.VerifiableAddress)
    (recoveryAddress : option identity.RecoveryAddress)
    : Prog (option identity.VerifiableAddress) :=
  match addrs, recoveryAddress with
  | [], _ => Ret None
  | _ :: _, None => Panic "invalid memory address or nil pointer dereference"
  | _ :: _, Some ra =>
      Ret (List.find
              (fun va => String.eqb (identity.va_Value va) (identity.ra_Value ra))
              addrs)
  end.

Definition markVerified (va : identity.VerifiableAddress) (verifiedAt : Time)
    : identity.VerifiableAddress :=
  {| identity.va_ID := identity.va_ID va;
     identity.va_Value := identity.va_Value va;
     identity.va_Verified := true;
     identity.va_Via := identity.va_Via va;
     identity.va_Status := identity.VerifiableAddressStatusCompleted;
     identity.va_VerifiedAt := Some verifiedAt |}.

Definition markRecoveryAddressVerified (r : Request) (f : recovery.Flow)
    (id : identity.Identity) (recoveryAddress : option identity.RecoveryAddress)
    : Prog (recovery.Flow * option Err) :=
  let* address := findAddress (identity.VerifiableAddresses id) recoveryAddress in
  match address with
  | Some va =>
      if negb (identity.va_Verified va) then
        let* verifiedAt := call Now in
        let* u := call (UpdateVerifiableAddress (markVerified va verifiedAt)) in
        match u with
        | Some err => HandleRecoveryErrorOn r f None err
        | None => Ret (f, None)
        end
      else Ret (f, None)
  | None => Ret (f, None)
  end.

Definition recoveryIssueSession (r : Request) (f : recovery.Flow)
    (id : identity.Identity) : Prog (recovery.Flow * option Err) :=
  let f := recovery.withUI f (container.MessagesClear (recovery.UI f)) in
  let f := recovery.withState f flow.StatePassedChallenge in
  let* token := call (RegenerateToken r) in
  let f := recovery.SetCSRFToken f token in
  let f := recovery.withRecoveredIdentityID f (Some (identity.ID id)) in
  let* u := call (UpdateRecoveryFlow f) in
  match u with
  | Some err => retryWith r f err
  | None =>
  let* now := call Now in
  let* s := call (NewActiveSession r id now identity.CredentialsTypeRecoveryCode
                    identity.AuthenticatorAssuranceLevel1) in
  match s with
  | inl err => retryWith r f err
  | inr sess =>
  let* issued :=
    (if String.eqb (recovery.Type_ f) flow.TypeBrowser then
       let* u := call (UpsertAndIssueCookie r sess) in
       Ret (f, u)
     else if String.eqb (recovery.Type_ f) flow.TypeAPI then
       let* u := call (UpsertSession sess) in
       match u with
       | Some err => Ret (f, Some err)
       | None =>
           Ret (recovery.withContinueWith f
                  (recovery.ContinueWith_ f
                     ++ [NewContinueWithSetToken (session.Token sess)]),
                None)
       end
     else Ret (f, None)) in
  match issued with
  | (f, Some err) => retryWith r f err
  | (f, None) =>
  let* nsf := call (SettingsNewFlow r (session.Identity sess) (recovery.Type_ f)) in
  match nsf with
  | inl err => retryWith r f err
  | inr sf =>
  let* returnToURL := call SelfServiceFlowRecoveryReturnTo in
  let returnTo := match returnToURL with Some u => u | None => "" end in
  let* t := call (TakeOverReturnToParameter (recovery.RequestURL f)
                    (settings.RequestURL sf) returnTo) in
  match t with
  | inl err => retryWith r f err
  | inr u =>
  let sf := settings.withRequestURL sf u in
  let* h := call (PostRecoveryHook r f sess) in
  match h with
  | Some err => retryWith r f err
  | None =>
  let* now := call Now in
  let* maxAge := call SelfServiceFlowSettingsPrivilegedSessionMaxAge in
  let sf := settings.withUI sf
    (container.MessagesSet (settings.UI sf)
       (text.NewRecoverySuccessful (now + maxAge)%Z)) in
  let* u := call (UpdateSettingsFlow sf) in
  match u with
  | Some err => retryWith r f err
  | None =>
  if flow.IsAPI (recovery.Type_ f) then
    let f := recovery.withContinueWith f
      (recovery.ContinueWith_ f ++ [NewContinueWithSettingsUI sf]) in
    let* _ := call (WriterWrite r f) in
    Ret (f, Some ErrCompletedByStrategy)
  else
    let* json := call (IsJSONRequest r) in
    let* _ :=
      (if json then
         let* ui := call SelfServiceFlowSettingsUI in
         call (WriterWriteError r
                 (BrowserLocationChangeRequiredError (AppendTo ui (settings.ID sf))))
       else
         let* ui := call SelfServiceFlowSettingsUI in
         call (HttpRedirect r (AppendTo ui (settings.ID sf)) StatusSeeOther)) in
    Ret (f, Some ErrCompletedByStrategy)
  end end end end end end end.

Definition recoveryUseCode (r : Request) (body : recoverySubmitPayload)
    (f : recovery.Flow) : Prog (recovery.Flow * option Err) :=
  let* c := call (UseRecoveryCode (recovery.ID f) (Code body)) in
  match c with
  | inl ErrCodeNotFound =>
      let ui := container.MessagesClear (recovery.UI f) in
      let ui := container.MessagesAdd ui
        text.NewErrorValidationRecoveryCodeInvalidOrAlreadyUsed in
      let f := recovery.withUI f ui in
      let* u := call (UpdateRecoveryFlow f) in
      match u with
      | Some err => retryWith r f err
      | None => Ret (f, None)     (* No error *)
      end
  | inl err => retryWith r f err
  | inr code =>
      let* i := call (GetIdentity (IdentityID code)) in
      match i with
      | inl err => HandleRecoveryErrorOn r f None err
      | inr recovered =>
          (* mark address as verified only for a self-service flow *)
          let* marked :=
            (match CodeType code with
             | RecoveryCodeTypeSelfService =>
                 markRecoveryAddressVerified r f recovered (RecoveryAddress code)
             | RecoveryCodeTypeAdmin => Ret (f, None)
             end) in
          match marked with
          | (f, Some err) => HandleRecoveryErrorOn r f (Some body) err
          | (f, None) => recoveryIssueSession r f recovered
          end
      end
  end.

(** [recoveryHandleFormSubmission] handles the submission of an Email for
    recovery. *)
Definition recoveryHandleFormSubmission (r : Request) (f : recovery.Flow)
    (body : recoverySubmitPayload) : Prog (recovery.Flow * option Err) :=
  if Nat.eqb (String.length (Email body)) 0 then
    HandleRecoveryErrorOn r f (Some body) (RequiredError "#/email" "email")
  else
  let* disable := call DisableAPIFlowEnforcement in
  let* csrf := EnsureCSRF r (recovery.Type_ f) disable (CSRFToken body) in
  match csrf with
  | Some err => HandleRecoveryErrorOn r f (Some body) err
  | None =>
  let* d := call (DeleteRecoveryCodesOfFlow (recovery.ID f)) in
  match d with
  | Some err => HandleRecoveryErrorOn r f (Some body) err
  | None =>
  let* sent := call (SendRecoveryCode f identity.VerifiableAddressTypeEmail
                       (Email body)) in
  match sent with
  | Some ErrUnknownAddress | None =>
      (* re-initialize the UI with a "clean" new state *)
      let* pub := call SelfPublicURL in
      let ui := {| container.Method := "POST";
                   container.Action := Some (SubmitFlowURL pub (recovery.ID f));
                   container.Nodes := [];
                   container.Messages := [] |} in
      let* token := call (GenerateCSRFToken r) in
      let ui := container.SetCSRF ui token in
      let f := recovery.withUI f ui in
      let f := recovery.withActive f RecoveryNodeGroup in
      let f := recovery.withState f flow.StateEmailSent in
      let ui := container.MessagesSet (recovery.UI f)
                  text.NewRecoveryEmailWithCodeSent in
      let ui := container.withNodes ui
        (node.Append (container.Nodes ui)
           (node.WithMetaLabel
              (node.NewInputField "code" None node.CodeGroup
                 node.InputAttributeTypeText true)
              text.NewInfoNodeLabelVerifyOTP)) in
      let ui := container.withNodes ui
        (node.Append (container.Nodes ui)
           (node.NewInputField "method" (Some RecoveryNodeGroup) node.CodeGroup
              node.InputAttributeTypeHidden false)) in
      let ui := container.withNodes ui
        (node.Append (container.Nodes ui)
           (node.WithMetaLabel
              (node.NewInputField "method" (Some RecoveryStrategyID)
                 node.CodeGroup node.InputAttributeTypeSubmit false)
              text.NewInfoNodeLabelSubmit)) in
      let ui := container.withNodes ui
        (node.Append (container.Nodes ui)
           (node.WithMetaLabel
              (node.NewInputField "email" (Some (Email body)) node.CodeGroup
                 node.InputAttributeTypeSubmit false)
              text.NewInfoNodeResendOTP)) in
      let f := recovery.withUI f ui in
      let* u := call (UpdateRecoveryFlow f) in
      match u with
      | Some err => HandleRecoveryErrorOn r f (Some body) err
      | None => Ret (f, None)
      end
  | Some err => HandleRecoveryErrorOn r f (Some body) err
  end end end.

(** The dispatch on the state of the flow fetched from the persister, at the
    end of [Recover].  The fetched flow is a local of [Recover]: what becomes
    of it is seen in the trace only. *)
Definition dispatchOnState (r : Request) (fl : recovery.Flow)
    (body : recoverySubmitPayload) : Prog (option Err) :=
  let st := recovery.State fl in
  if String.eqb st flow.StateChooseMethod || String.eqb st flow.StateEmailSent then
    let* (_, e) := recoveryHandleFormSubmission r fl body in
    Ret e
  else if String.eqb st flow.StatePassedChallenge then
    (* was already handled, do not allow retry *)
    let* e := retryRecoveryFlowWithMessage r (recovery.Type_ fl)
                text.NewErrorValidationRecoveryRetrySuccess in
    Ret (Some e)
  else
    let* e := retryRecoveryFlowWithMessage r (recovery.Type_ fl)
                text.NewErrorValidationRecoveryStateFailure in
    Ret (Some e).

(** [MethodEnabledAndAllowed] is called by [Recover] without a flow name; the
    flow executed is the recovery flow. *)
Definition Recover (r : Request) (f : recovery.Flow)
    : Prog (recovery.Flow * option Err) :=
  if negb (isCodeFlow f) then Ret (f, Some ErrStrategyNotResponsible) else
  let* decoded := call (DecodeRecovery r) in
  match decoded with
  | inl err => Ret (f, Some err)       (* HandleRecoveryError(w, r, nil, body, err) *)
  | inr body =>
  let* csrf :=
    (if recovery.DangerousSkipCSRFCheck f then Ret None
     else
       let* disable := call DisableAPIFlowEnforcement in
       EnsureCSRF r (recovery.Type_ f) disable (CSRFToken body)) in
  match csrf with
  | Some err =>
      (* we just issue a new flow and "abandon" the old flow *)
      let* e := retryRecoveryFlowWithError r flow.TypeBrowser err in
      Ret (f, Some e)
  | None =>
  let sID := RecoveryStrategyID in
  let f := recovery.withUI f (container.ResetMessages (recovery.UI f)) in
  (* If the email is present in the submission body, the user needs a new
     code via resend *)
  if negb (String.eqb (recovery.State f) flow.StateChooseMethod)
     && Nat.eqb (String.length (Email body)) 0 then
    let* gate := MethodEnabledAndAllowed flow.RecoveryFlow sID sID in
    match gate with
    | Some err => Ret (f, Some err)    (* HandleRecoveryError(w, r, nil, body, err) *)
    | None => recoveryUseCode r body f
    end
  else
  let* sess := call (FetchFromRequest r) in
  match sess with
  | inr _ =>
      (* User is already logged in *)
      let* json := call (IsJSONRequest r) in
      let* _ :=
        (if json then call (RespondWithJSONErrorOnAuthenticated r ErrAlreadyLoggedIn)
         else call (RedirectOnAuthenticated r)) in
      Ret (f, Some ErrCompletedByStrategy)
  | inl _ =>
  let* gate := MethodEnabledAndAllowed flow.RecoveryFlow sID (Method body) in
  match gate with
  | Some err => Ret (f, Some err)      (* HandleRecoveryError(w, r, nil, body, err) *)
  | None =>
  let* id := call (ParseUUID (Flow body)) in
  let* fetched := call (GetRecoveryFlow id) in
  match fetched with
  | inl err => Ret (f, Some err)       (* the flow handed over is nil *)
  | inr fl =>
  let* valid := call (FlowValid fl) in
  match valid with
  | Some err =>
      let* _ := HandleRecoveryError r (Some fl) (Some body) err in
      Ret (f, Some err)
  | None =>
      let* e := dispatchOnState r fl body in
      Ret (f, e)
  end end end end end end.

(** [PopulateRecoveryMethod]: the form of a fresh flow. *)
Definition populate (token : string) (f : recovery.Flow) : recovery.Flow :=
  let ui := container.SetCSRF (recovery.UI f) token in
  let ui := container.withNodes ui
    (node.Upsert (container.Nodes ui)
       (node.WithMetaLabel
          (node.NewInputField "email" None node.CodeGroup
             node.InputAttributeTypeEmail true)
          text.NewInfoNodeInputEmail)) in
  let ui := container.withNodes ui
    (node.Append (container.Nodes ui)
       (node.WithMetaLabel
          (node.NewInputField "method" (Some RecoveryStrategyID) node.CodeGroup
             node.InputAttributeTypeSubmit false)
          text.NewInfoNodeLabelSubmit)) in
  recovery.withUI f ui.

Definition PopulateRecoveryMethod (r : Request) (f : recovery.Flow)
    : Prog (recovery.Flow * option Err) :=
  let* token := call (GenerateCSRFToken r) in
  Ret (populate token f, None).

(* ===================================================================== *)
(** ** Package [hook]: marking the address of a login or registration code

    [CodeAddressVerifier] runs after a login or a registration by code.  Of
    the flow it reads the active method and the identifier, of the code that
    was used the address it was sent to.  Its collaborators are the two code
    persisters and the identity pool. *)

Module login.
Record Flow := { ID : UUID; Active : identity.CredentialsType }.
End login.

Module registration.
Record Flow := { ID : UUID; Active : identity.CredentialsType }.
End registration.

Module hook.

Record LoginCode := { login_Address : string }.
Record RegistrationCode := { registration_Address : string }.

Inductive Call :=
| GetUsedLoginCode (flowID : UUID)
| GetUsedRegistrationCode (flowID : UUID)
| UpdateVerifiableAddress (a : identity.VerifiableAddress).

Definition reply (c : Call) : Type :=
  match c with
  | GetUsedLoginCode _ => Err + LoginCode
  | GetUsedRegistrationCode _ => Err + RegistrationCode
  | UpdateVerifiableAddress _ => option Err
  end.

Inductive Reply :=
| RLogin (c : Err + LoginCode)
| RRegistration (c : Err + RegistrationCode)
| RUpdate (e : option Err).

Definition recorded (c : Call) : reply c -> Reply :=
  match c return reply c -> Reply with
  | GetUsedLoginCode _ => RLogin
  | GetUsedRegistrationCode _ => RRegistration
  | UpdateVerifiableAddress _ => RUpdate
  end.

(** A hook is a tree of calls, as a handler is. *)
Inductive Hook (A : Type) : Type :=
| Done (a : A)
| Ask (c : Call) (k : reply c -> Hook A).

Arguments Done {A} a.
Arguments Ask {A} c k.

Fixpoint runs {A} (h : Hook A) (t : list (Call * Reply)) (a : A) : Prop :=
  match h with
  | Done b => t = [] /\ a = b
  | Ask c k => exists x t', t = (c, recorded c x) :: t' /\ runs (k x) t' a
  end.

(** [va.Verified = true; va.Status = identity.VerifiableAddressStatusCompleted] *)
Definition completed (va : identity.VerifiableAddress) : identity.VerifiableAddress :=
  {| identity.va_ID := identity.va_ID va;
     identity.va_Value := identity.va_Value va;
     identity.va_Verified := true;
     identity.va_Via := identity.va_Via va;
     identity.va_Status := identity.VerifiableAddressStatusCompleted;
     identity.va_VerifiedAt := identity.va_VerifiedAt va |}.

(** The loop over [s.Identity.VerifiableAddresses], shared by the two hooks:
    it stops ([break]) at the first address that is not verified and carries
    the address of the code. *)
Fixpoint verifyAddress (address : string) (vas : list identity.VerifiableAddress)
    : Hook (option Err) :=
  match vas with
  | [] => Done None
  | va :: rest =>
      if negb (identity.va_Verified va) && String.eqb address (identity.va_Value va)
      then Ask (UpdateVerifiableAddress (completed va)) Done
      else verifyAddress address rest
  end.

Definition ExecuteLoginPostHook (f : login.Flow) (s : session.Session)
    : Hook (option Err) :=
  if negb (String.eqb (login.Active f) identity.CredentialsTypeCodeAuth) then Done None
  else
    Ask (GetUsedLoginCode (login.ID f)) (fun c =>
      match c with
      | inl err => Done (Some err)
      | inr loginCode =>
          verifyAddress (login_Address loginCode)
            (identity.VerifiableAddresses (session.Identity s))
      end).

Definition ExecutePostRegistrationPostPersistHook (a : registration.Flow)
    (s : session.Session) : Hook (option Err) :=
  if negb (String.eqb (registration.Active a) identity.CredentialsTypeCodeAuth)
  then Done None
  else
    Ask (GetUsedRegistrationCode (registration.ID a)) (fun c =>
      match c with
      | inl err => Done (Some err)
      | inr recoveryCode =>
          verifyAddress (registration_Address recoveryCode)
            (identity.VerifiableAddresses (session.Identity s))
      end).

End hook.

(* ===================================================================== *)
(** ** Package [saml]: the registry of middlewares

    [samlMiddlewares] maps a provider identifier to a pointer to its
    middleware; the middleware itself is the library's.  A key may hold the
    nil pointer: reading an absent key gives nil as well. *)

Module saml.

Section Registry.

Variable Middleware : Type.                     (* samlsp.Middleware *)

Definition Registry : Type := gmap string (option Middleware).

(** [samlMiddlewares[pid]] *)
Definition lookup (m : Registry) (pid : string) : option Middleware :=
  match m !! pid with
  | Some p => p
  | None => None
  end.

Definition DestroyMiddlewareIfExists (m : Registry) (pid : string) : Registry :=
  match lookup m pid with
  | Some _ => <[pid := None]> m
  | None => m
  end.

Definition GetMiddleware (m : Registry) (pid : string) : Err + Middleware :=
  match lookup m pid with
  | None => inl (OtherError "An error occurred during the connection with SAML.")
  | Some mw => inr mw
  end.

End Registry.

Arguments lookup {Middleware} m pid.
Arguments DestroyMiddlewareIfExists {Middleware} m pid.
Arguments GetMiddleware {Middleware} m pid.

End saml.

(* ===================================================================== *)
(** ** The code store

    The persister of recovery codes is outside the files at hand. *)

Module CodeStore.

Definition Store := list RecoveryCode.

Definition markUsed (c : RecoveryCode) (now : Time) : RecoveryCode :=
  {| code_ID := code_ID c; code_Value := code_Value c; UsedAt := Some now;
     IdentityID := IdentityID c; CodeType := CodeType c;
     code_ExpiresAt := code_ExpiresAt c; FlowID := FlowID c;
     RecoveryAddress := RecoveryAddress c |}.

Definition matches (flowID : UUID) (submitted : string) (c : RecoveryCode) : bool :=
  N.eqb (FlowID c) flowID && String.eqb (code_Value c) submitted.

(** A code is live until it is used or its time is over. *)
Definition live (now : Time) (c : RecoveryCode) : bool :=
  match UsedAt c with
  | Some _ => false
  | None => (now <? code_ExpiresAt c)%Z
  end.

(** Modelled from the spec: the persister's [DeleteRecoveryCodesOfFlow],
    "idempotent bulk invalidation". *)
Definition DeleteCodesOfFlow (st : Store) (flowID : UUID) : Store :=
  List.filter (fun c => negb (N.eqb (FlowID c) flowID)) st.

(** Modelled from the spec: the persister's [UseRecoveryCode], which "looks
    up by flow+value; fails with CodeNotFound if absent, already used, or
    expired.  On success, atomically marks UsedAt and returns the code
    record." *)
Fixpoint UseCode (st : Store) (flowID : UUID) (submitted : string) (now : Time)
    : (Err + RecoveryCode) * Store :=
  match st with
  | [] => (inl ErrCodeNotFound, [])
  | c :: rest =>
      if matches flowID submitted c then
        if live now c then (inr (markUsed c now), markUsed c now :: rest)
        else (inl ErrCodeNotFound, c :: rest)
      else
        let '(res, rest') := UseCode rest flowID submitted now in
        (res, c :: rest')
  end.

(** Modelled from the spec: the creation of a code, which "invalidates
    (deletes) all prior codes for flowID before creating the new one".  The
    identifier, the secret and the expiry are chosen by the caller. *)
Definition IssueCode (st : Store) (id : UUID) (secret : string) (expiresAt : Time)
    (flowID identityID : UUID) (address : identity.RecoveryAddress)
    (codeType : RecoveryCodeType) : RecoveryCode * Store :=
  let c := {| code_ID := id; code_Value := secret; UsedAt := None;
              IdentityID := identityID; CodeType := codeType;
              code_ExpiresAt := expiresAt; FlowID := flowID;
              RecoveryAddress := Some address |} in
  (c, DeleteCodesOfFlow st flowID ++ [c]).

Definition codesOfFlow (st : Store) (flowID : UUID) : list RecoveryCode :=
  List.filter (fun c => N.eqb (FlowID c) flowID) st.

End CodeStore.

(* ===================================================================== *)
(** ** An in-memory realisation of the collaborators

    Modelled from the spec: the collaborators of the handler (identity
    lookup and address mutation, session construction, notifier, flow
    persistence "create/fetch/update by flow ID", token generator and
    verifier), over one record of tables.  It gives the handlers runs to be
    observed, and the code store its place next to the flow store. *)

Module Mem.

Record Config := {
  cfg_DisableAPIFlowEnforcement : bool;
  cfg_CodeStrategy : config.SelfServiceStrategyCode;
  cfg_OtherStrategies : bool;
  cfg_RecoveryRequestLifespan : Time;
  cfg_CodeLifespan : Time;
  cfg_SelfPublicURL : string;
  cfg_RecoveryUI : string;
  cfg_SettingsUI : string;
  cfg_RecoveryReturnTo : option string;
  cfg_PrivilegedSessionMaxAge : Time
}.

Record World := {
  flows : gmap N recovery.Flow;
  codes : CodeStore.Store;
  identities : list identity.Identity;
  sessions : list session.Session;
  settingsFlows : list settings.Flow;
  outbox : list (string * string);             (* address, secret *)
  csrf : string;                               (* the token of the browser *)
  secrets : list string;                       (* secrets yet to be drawn *)
  clock : Time;
  nextID : N;
  cfg : Config
}.

Definition withFlows (w : World) (x : gmap N recovery.Flow) : World :=
  {| flows := x; codes := codes w; identities := identities w;
     sessions := sessions w; settingsFlows := settingsFlows w;
     outbox := outbox w; csrf := csrf w; secrets := secrets w;
     clock := clock w; nextID := nextID w; cfg := cfg w |}.

Definition withCodes (w : World) (x : CodeStore.Store) : World :=
  {| flows := flows w; codes := x; identities := identities w;
     sessions := sessions w; settingsFlows := settingsFlows w;
     outbox := outbox w; csrf := csrf w; secrets := secrets w;
     clock := clock w; nextID := nextID w; cfg := cfg w |}.

Definition withIdentities (w : World) (x : list identity.Identity) : World :=
  {| flows := flows w; codes := codes w; identities := x;
     sessions := sessions w; settingsFlows := settingsFlows w;
     outbox := outbox w; csrf := csrf w; secrets := secrets w;
     clock := clock w; nextID := nextID w; cfg := cfg w |}.

Definition withSessions (w : World) (x : list session.Session) : World :=
  {| flows := flows w; codes := codes w; identities := identities w;
     sessions := x; settingsFlows := settingsFlows w;
     outbox := outbox w; csrf := csrf w; secrets := secrets w;
     clock := clock w; nextID := nextID w; cfg := cfg w |}.

Definition withSettingsFlows (w : World) (x : list settings.Flow) : World :=
  {| flows := flows w; codes := codes w; identities := identities w;
     sessions := sessions w; settingsFlows := x;
     outbox := outbox w; csrf := csrf w; secrets := secrets w;
     clock := clock w; nextID := nextID w; cfg := cfg w |}.

Definition withCsrf (w : World) (x : string) : World :=
  {| flows := flows w; codes := codes w; identities := identities w;
     sessions := sessions w; settingsFlows := settingsFlows w;
     outbox := outbox w; csrf := x; secrets := secrets w;
     clock := clock w; nextID := nextID w; cfg := cfg w |}.

(** Drawing a fresh identifier, a secret, the time. *)
Definition fresh (w : World) : N * World :=
  (nextID w,
   {| flows := flows w; codes := codes w; identities := identities w;
      sessions := sessions w; settingsFlows := settingsFlows w;
      outbox := outbox w; csrf := csrf w; secrets := secrets w;
      clock := clock w; nextID := N.succ (nextID w); cfg := cfg w |}).

Definition draw (w : World) : string * World :=
  (match secrets w with s :: _ => s | [] => "000000" end,
   {| flows := flows w; codes := codes w; identities := identities w;
      sessions := sessions w; settingsFlows := settingsFlows w;
      outbox := outbox w; csrf := csrf w; secrets := tl (secrets w);
      clock := clock w; nextID := nextID w; cfg := cfg w |}).

Definition tick (w : World) : Time * World :=
  (clock w,
   {| flows := flows w; codes := codes w; identities := identities w;
      sessions := sessions w; settingsFlows := settingsFlows w;
      outbox := outbox w; csrf := csrf w; secrets := secrets w;
      clock := (clock w + 1)%Z; nextID := nextID w; cfg := cfg w |}).

Definition post (w : World) (to secret : string) : World :=
  {| flows := flows w; codes := codes w; identities := identities w;
     sessions := sessions w; settingsFlows := settingsFlows w;
     outbox := outbox w ++ [(to, secret)]; csrf := csrf w; secrets := secrets w;
     clock := clock w; nextID := nextID w; cfg := cfg w |}.

(** Identifiers are written in decimal in a payload. *)
Fixpoint parseDigits (s : string) (acc : N) : option N :=
  match s with
  | EmptyString => Some acc
  | String c s' =>
      let n := N_of_ascii c in
      if ((48 <=? n) && (n <=? 57))%N then parseDigits s' (acc * 10 + (n - 48))%N
      else None
  end.

Definition parseUUID (s : string) : UUID :=
  match s with
  | EmptyString => 0%N
  | _ => match parseDigits s 0 with Some n => n | None => 0%N end
  end.

Definition recoveryAddressOf (to : string) (i : identity.Identity)
    : option identity.RecoveryAddress :=
  List.find (fun ra => String.eqb (identity.ra_Value ra) to)
    (identity.RecoveryAddresses i).

Fixpoint lookupAddress (to : string) (ids : list identity.Identity)
    : option (identity.Identity * identity.RecoveryAddress) :=
  match ids with
  | [] => None
  | i :: rest =>
      match recoveryAddressOf to i with
      | Some ra => Some (i, ra)
      | None => lookupAddress to rest
      end
  end.

(** The notifier: a code is issued and posted when the address belongs to an
    identity, and the address is reported unknown otherwise. *)
Definition sendRecoveryCode (w : World) (f : recovery.Flow) (to : string)
    : option Err * World :=
  match lookupAddress to (identities w) with
  | None => (Some ErrUnknownAddress, w)
  | Some (i, ra) =>
      let '(id, w) := fresh w in
      let '(secret, w) := draw w in
      let '(c, st) :=
        CodeStore.IssueCode (codes w) id secret
          (clock w + cfg_CodeLifespan (cfg w))%Z
          (recovery.ID f) (identity.ID i) ra RecoveryCodeTypeSelfService in
      (None, post (withCodes w st) to secret)
  end.

Definition updateAddress (a : identity.VerifiableAddress) (i : identity.Identity)
    : identity.Identity :=
  {| identity.ID := identity.ID i;
     identity.VerifiableAddresses :=
       map (fun va => if N.eqb (identity.va_ID va) (identity.va_ID a) then a else va)
         (identity.VerifiableAddresses i);
     identity.RecoveryAddresses := identity.RecoveryAddresses i |}.

Definition newFlow (w : World) (lifespan : Time) (token : string)
    (ft : flow.FlowType) : recovery.Flow * World :=
  let '(id, w) := fresh w in
  (populate (csrf w)
     {| recovery.ID := id; recovery.Type_ := ft;
        recovery.ExpiresAt := (clock w + lifespan)%Z;
        recovery.RequestURL := "";
        recovery.Active := RecoveryNodeGroup;
        recovery.UI :=
          {| container.Method := "POST";
             container.Action := Some (SubmitFlowURL (cfg_SelfPublicURL (cfg w)) id);
             container.Nodes := []; container.Messages := [] |};
        recovery.State := flow.StateChooseMethod;
        recovery.CSRFToken := token;
        recovery.RecoveredIdentityID := None;
        recovery.DangerousSkipCSRFCheck := false;
        recovery.ContinueWith_ := [] |}, w).

Definition impl : Impl World := fun o =>
  match o return World -> result o * World with
  | DecodeRecovery r => fun w => (inr (Form r), w)
  | IsJSONRequest r => fun w => (AcceptsJSON r, w)
  | ParseUUID s => fun w => (parseUUID s, w)
  | Now => tick
  | DisableAPIFlowEnforcement => fun w => (cfg_DisableAPIFlowEnforcement (cfg w), w)
  | SelfServiceCodeStrategy => fun w => (cfg_CodeStrategy (cfg w), w)
  | SelfServiceStrategy _ => fun w =>
      ({| config.Enabled := cfg_OtherStrategies (cfg w) |}, w)
  | SelfServiceFlowRecoveryRequestLifespan => fun w =>
      (cfg_RecoveryRequestLifespan (cfg w), w)
  | SelfPublicURL => fun w => (cfg_SelfPublicURL (cfg w), w)
  | SelfServiceFlowRecoveryUI => fun w => (cfg_RecoveryUI (cfg w), w)
  | SelfServiceFlowSettingsUI => fun w => (cfg_SettingsUI (cfg w), w)
  | SelfServiceFlowRecoveryReturnTo => fun w => (cfg_RecoveryReturnTo (cfg w), w)
  | SelfServiceFlowSettingsPrivilegedSessionMaxAge => fun w =>
      (cfg_PrivilegedSessionMaxAge (cfg w), w)
  | GenerateCSRFToken _ => fun w => (csrf w, w)
  | RegenerateToken _ => fun w =>
      let '(secret, w) := draw w in (secret, withCsrf w secret)
  | VerifyToken realToken sentToken => fun w => (String.eqb realToken sentToken, w)
  | CSRFErrorReason _ => fun w => (OtherError "the anti-forgery token is missing or invalid", w)
  | UseRecoveryCode flowID submitted => fun w =>
      let '(res, st) := CodeStore.UseCode (codes w) flowID submitted (clock w) in
      (res, withCodes w st)
  | DeleteRecoveryCodesOfFlow flowID => fun w =>
      (None, withCodes w (CodeStore.DeleteCodesOfFlow (codes w) flowID))
  | SendRecoveryCode f _ to => fun w => sendRecoveryCode w f to
  | GetRecoveryFlow id => fun w =>
      (match flows w !! id with
       | Some f => inr f
       | None => inl (OtherError "no such flow")
       end, w)
  | UpdateRecoveryFlow f => fun w =>
      match flows w !! recovery.ID f with
      | Some _ => (None, withFlows w (<[recovery.ID f := f]> (flows w)))
      | None => (Some (OtherError "no such flow"), w)
      end
  | CreateRecoveryFlow f => fun w =>
      (None, withFlows w (<[recovery.ID f := f]> (flows w)))
  | FlowValid f => fun w =>
      (if (recovery.ExpiresAt f <? clock w)%Z
       then Some (ExpiredError (recovery.ExpiresAt f)) else None, w)
  | NewFlow lifespan token _ ft => fun w =>
      let '(f, w) := newFlow w lifespan token ft in (inr f, w)
  | ParseError ui _ e => fun w =>
      (inr (container.MessagesAdd ui (text.OtherMessage 0 "an error occurred")), w)
  | GetIdentity id => fun w =>
      (match List.find (fun i => N.eqb (identity.ID i) id) (identities w) with
       | Some i => inr i
       | None => inl (OtherError "no such identity")
       end, w)
  | UpdateVerifiableAddress a => fun w =>
      (None, withIdentities w (map (updateAddress a) (identities w)))
  | FetchFromRequest r => fun w =>
      (match SessionToken r with
       | Some tok =>
           match List.find (fun s => String.eqb (session.Token s) tok) (sessions w) with
           | Some s => inr s
           | None => inl (OtherError "no active session")
           end
       | None => inl (OtherError "no active session")
       end, w)
  | NewActiveSession _ i authenticatedAt method aal => fun w =>
      let '(secret, w) := draw w in
      (inr {| session.Identity := i; session.Token := secret;
              session.AuthenticatedAt := authenticatedAt;
              session.Method := method; session.AAL := aal |}, w)
  | UpsertAndIssueCookie _ s => fun w => (None, withSessions w (sessions w ++ [s]))
  | UpsertSession s => fun w => (None, withSessions w (sessions w ++ [s]))
  | SettingsNewFlow _ _ _ => fun w =>
      let '(id, w) := fresh w in
      (inr {| settings.ID := id; settings.RequestURL := "";
              settings.UI := {| container.Method := "POST"; container.Action := None;
                                container.Nodes := []; container.Messages := [] |} |}, w)
  | TakeOverReturnToParameter _ to _ => fun w => (inr to, w)
  | PostRecoveryHook _ _ _ => fun w => (None, w)
  | UpdateSettingsFlow sf => fun w =>
      (None, withSettingsFlows w (settingsFlows w ++ [sf]))
  | RespondWithJSONErrorOnAuthenticated _ _ => fun w => (tt, w)
  | RedirectOnAuthenticated _ => fun w => (tt, w)
  | WriterWrite _ _ => fun w => (tt, w)
  | WriterWriteError _ _ => fun w => (tt, w)
  | HttpRedirect _ _ _ => fun w => (tt, w)
  end.

(** Modelled from the spec: the caller of the strategy, which fetches the
    flow of a submission from the flow store and hands it to [Recover]. *)
Definition submit (w : World) (flowID : UUID) (r : Request)
    : option (recovery.Flow * option Err) * World * Trace :=
  match flows w !! flowID with
  | Some f => run impl (Recover r f) w
  | None => (None, w, [])
  end.

End Mem.

(* ===================================================================== *)
(** ** Vocabulary of the properties *)

(** A property of every event of every run. *)
Definition always {A} (P : Event -> Prop) (p : Prog A) : Prop :=
  forall t r, behaves p t r -> Forall P t.

(** A run starts with the given event. *)
Definition startsWith (t : Trace) (e : Event) : Prop := hd_error t = Some e.

(** Calls sorted by what they touch. *)
Definition isUseRecoveryCode (o : Op) : bool :=
  match o with UseRecoveryCode _ _ => true | _ => false end.

Definition isSendRecoveryCode (o : Op) : bool :=
  match o with SendRecoveryCode _ _ _ => true | _ => false end.

Definition isNewFlow (o : Op) : bool :=
  match o with NewFlow _ _ _ _ | CreateRecoveryFlow _ => true | _ => false end.

(** Calls that change a stored flow, code, identity or session that was
    there before the request; creating a new flow is not among them. *)
Definition mutates (o : Op) : bool :=
  match o with
  | UseRecoveryCode _ _ | DeleteRecoveryCodesOfFlow _ | SendRecoveryCode _ _ _
  | UpdateRecoveryFlow _ | UpdateVerifiableAddress _
  | UpsertAndIssueCookie _ _ | UpsertSession _ | UpdateSettingsFlow _
  | PostRecoveryHook _ _ _ | SettingsNewFlow _ _ _ => true
  | _ => false
  end.

(** Calls that write a response. *)
Definition responds (o : Op) : bool :=
  match o with
  | RespondWithJSONErrorOnAuthenticated _ _ | RedirectOnAuthenticated _
  | WriterWrite _ _ | WriterWriteError _ _ | HttpRedirect _ _ _ => true
  | _ => false
  end.

(** The steps of the state of a flow:
    ChooseMethod -> EmailSent -> PassedChallenge, or no step. *)
Inductive advance : flow.State -> flow.State -> Prop :=
| advance_stay s : advance s s
| advance_sent : advance flow.StateChooseMethod flow.StateEmailSent
| advance_passed s :
    s <> flow.StateChooseMethod -> advance s flow.StatePassedChallenge.

Definition rank (s : flow.State) : nat :=
  if String.eqb s flow.StatePassedChallenge then 2
  else if String.eqb s flow.StateEmailSent then 1
  else 0.

(** An update of a stored flow that keeps its identity and lets its state
    advance from that of [f]. *)
Definition advancesFrom (f g : recovery.Flow) : Prop :=
  recovery.ID g = recovery.ID f /\ advance (recovery.State f) (recovery.State g).

(** The flag that [MethodEnabledAndAllowed] reads for the code strategy. *)
Definition codeFlag (flowName : flow.FlowName) (c : config.SelfServiceStrategyCode)
    : bool :=
  match flowName with
  | flow.RegistrationFlow => config.RegistrationEnabled c
  | flow.LoginFlow => config.LoginEnabled c
  | _ => config.CodeEnabled c
  end.

Definition gateError (ok : bool) : option Err :=
  if ok then None else Some (ErrNotFound strategy.EndpointDisabledMessage).

(** The flow after the e-mail step, given the two answers that enter it. *)
Definition emailSentFlow (f : recovery.Flow) (body : recoverySubmitPayload)
    (pub token : string) : recovery.Flow :=
  let ui := {| container.Method := "POST";
               container.Action := Some (SubmitFlowURL pub (recovery.ID f));
               container.Nodes := [];
               container.Messages := [] |} in
  let ui := container.SetCSRF ui token in
  let ui := container.MessagesSet ui text.NewRecoveryEmailWithCodeSent in
  let ui := container.withNodes ui
    (container.Nodes ui ++
     [node.WithMetaLabel
        (node.NewInputField "code" None node.CodeGroup
           node.InputAttributeTypeText true)
        text.NewInfoNodeLabelVerifyOTP;
      node.NewInputField "method" (Some RecoveryNodeGroup) node.CodeGroup
        node.InputAttributeTypeHidden false;
      node.WithMetaLabel
        (node.NewInputField "method" (Some RecoveryStrategyID)
           node.CodeGroup node.InputAttributeTypeSubmit false)
        text.NewInfoNodeLabelSubmit;
      node.WithMetaLabel
        (node.NewInputField "email" (Some (Email body)) node.CodeGroup
           node.InputAttributeTypeSubmit false)
        text.NewInfoNodeResendOTP]) in
  recovery.withUI
    (recovery.withState (recovery.withActive f RecoveryNodeGroup)
       flow.StateEmailSent) ui.

(** The flow after the code was refused. *)
Definition refusedFlow (f : recovery.Flow) : recovery.Flow :=
  recovery.withUI f
    (container.MessagesAdd (container.MessagesClear (recovery.UI f))
       text.NewErrorValidationRecoveryCodeInvalidOrAlreadyUsed).

(** The flow after the code was accepted for the identity [id]. *)
Definition passedFlow (f : recovery.Flow) (token : string) (id : identity.Identity)
    : recovery.Flow :=
  recovery.withRecoveredIdentityID
    (recovery.SetCSRFToken
       (recovery.withState
          (recovery.withUI f (container.MessagesClear (recovery.UI f)))
          flow.StatePassedChallenge)
       token)
    (Some (identity.ID id)).

(** The address that [markRecoveryAddressVerified] picks. *)
Definition pickedAddress (id : identity.Identity) (ra : identity.RecoveryAddress)
    : option identity.VerifiableAddress :=
  List.find (fun va => String.eqb (identity.va_Value va) (identity.ra_Value ra))
    (identity.VerifiableAddresses id).

(** Two runs get the same answers to the same calls made at the same place,
    calls of the notifier left aside. *)
Definition sameAnswersButSend (t1 t2 : Trace) : Prop :=
  forall i o a1 a2,
    t1 !! i = Some (o, a1) -> t2 !! i = Some (o, a2) ->
    isSendRecoveryCode o = false -> a1 = a2.

(** A handler that returns on every run (it never panics). *)
Definition returns {A} (p : Prog A) : Prop := forall t, ~ behaves p t None.

(** The anti-forgery gate as [Recover] applies it to the flow it is given. *)
Definition csrfGate (r : Request) (f : recovery.Flow) (body : recoverySubmitPayload)
    : Prog (option Err) :=
  if recovery.DangerousSkipCSRFCheck f then Ret None
  else
    let* disable := call DisableAPIFlowEnforcement in
    EnsureCSRF r (recovery.Type_ f) disable (CSRFToken body).

(** The flow [Recover] works on once the gate is passed. *)
Definition resetFlow (f : recovery.Flow) : recovery.Flow :=
  recovery.withUI f (container.ResetMessages (recovery.UI f)).

(** Does [Recover] take the submission for a code (rather than an address)? *)
Definition submitsCode (f : recovery.Flow) (body : recoverySubmitPayload) : bool :=
  negb (String.eqb (recovery.State f) flow.StateChooseMethod)
  && Nat.eqb (String.length (Email body)) 0.

(** The calls each handler may make. *)
Definition callsEnsureCSRF (o : Op) : bool :=
  match o with
  | GenerateCSRFToken _ | VerifyToken _ _ | CSRFErrorReason _ => true
  | _ => false
  end.

Definition callsCsrfGate (o : Op) : bool :=
  match o with
  | DisableAPIFlowEnforcement => true
  | _ => callsEnsureCSRF o
  end.

Definition callsGate (o : Op) : bool :=
  match o with
  | SelfServiceCodeStrategy | SelfServiceStrategy _ => true
  | _ => false
  end.

Definition callsRetry (o : Op) : bool :=
  match o with
  | SelfServiceFlowRecoveryRequestLifespan | RegenerateToken _
  | NewFlow _ _ _ _ | ParseError _ _ _ | CreateRecoveryFlow _
  | IsJSONRequest _ | SelfPublicURL | SelfServiceFlowRecoveryUI
  | HttpRedirect _ _ _ => true
  | _ => false
  end.

Definition callsHandleError (o : Op) : bool :=
  match o with GenerateCSRFToken _ => true | _ => false end.

Definition callsFormSubmission (o : Op) : bool :=
  match o with
  | DisableAPIFlowEnforcement | DeleteRecoveryCodesOfFlow _
  | SendRecoveryCode _ _ _ | SelfPublicURL | UpdateRecoveryFlow _ => true
  | _ => callsEnsureCSRF o
  end.

Definition callsMark (o : Op) : bool :=
  match o with
  | Now | UpdateVerifiableAddress _ | GenerateCSRFToken _ => true
  | _ => false
  end.

Definition callsIssueSession (o : Op) : bool :=
  match o with
  | UpdateRecoveryFlow _ | Now | NewActiveSession _ _ _ _ _
  | UpsertAndIssueCookie _ _ | UpsertSession _ | SettingsNewFlow _ _ _
  | SelfServiceFlowRecoveryReturnTo | TakeOverReturnToParameter _ _ _
  | PostRecoveryHook _ _ _ | SelfServiceFlowSettingsPrivilegedSessionMaxAge
  | UpdateSettingsFlow _ | WriterWrite _ _ | SelfServiceFlowSettingsUI
  | WriterWriteError _ _ => true
  | _ => callsRetry o
  end.

Definition callsUseCode (o : Op) : bool :=
  match o with
  | UseRecoveryCode _ _ | GetIdentity _ => true
  | _ => callsMark o || callsIssueSession o
  end.

Definition callsDispatch (o : Op) : bool :=
  callsFormSubmission o || callsRetry o.

(** Properties of single events, by the call they record. *)
Definition calls (Q : Op -> bool) (e : Event) : Prop := Q (fst e) = true.
Definition callsNo (Q : Op -> bool) (e : Event) : Prop := Q (fst e) = false.

(** Every flow handed to [UpdateRecoveryFlow] satisfies [Q]. *)
Definition updatesOnly (Q : recovery.Flow -> Prop) (e : Event) : Prop :=
  match fst e with UpdateRecoveryFlow g => Q g | _ => True end.

(** Every flow asked of [recovery.NewFlow] is of a type satisfying [Q]. *)
Definition newFlowsOnly (Q : flow.FlowType -> Prop) (e : Event) : Prop :=
  match fst e with NewFlow _ _ _ ft => Q ft | _ => True end.

(** Every code asked of the code store is the one submitted for flow [f]. *)
Definition usesOnly (f : recovery.Flow) (body : recoverySubmitPayload) (e : Event)
    : Prop :=
  match fst e with
  | UseRecoveryCode flowID code => flowID = recovery.ID f /\ code = Code body
  | _ => True
  end.

(** Every event of every run satisfies [P], and every value returned [R]. *)
Definition spec {A} (P : Event -> Prop) (R : A -> Prop) (p : Prog A) : Prop :=
  forall t r, behaves p t r -> Forall P t /\ forall a, r = Some a -> R a.

(** The flow [g] is the flow [id] of type [ty], in a state among [allowed]. *)
Definition tracks (id : UUID) (ty : flow.FlowType) (allowed : flow.State -> Prop)
    (g : recovery.Flow) : Prop :=
  recovery.ID g = id /\ recovery.Type_ g = ty /\ allowed (recovery.State g).

(** An event concerns no other flow than the flow [id]: codes are used and
    deleted for it, what is sent and updated is this flow, and a new flow is
    asked for with its type. *)
Definition about (id : UUID) (ty : flow.FlowType) (allowed : flow.State -> Prop)
    (e : Event) : Prop :=
  match fst e with
  | NewFlow _ _ _ ft => ft = ty
  | UseRecoveryCode flowID _ | DeleteRecoveryCodesOfFlow flowID => flowID = id
  | SendRecoveryCode g _ _ | UpdateRecoveryFlow g => tracks id ty allowed g
  | _ => True
  end.

Definition returnsAbout (id : UUID) (ty : flow.FlowType)
    (allowed : flow.State -> Prop) (x : recovery.Flow * option Err) : Prop :=
  tracks id ty allowed (fst x).

(** The shape of a retry.  The reply: a redirect (303) to the new flow [g],
    by its identifier, on the public address for a JSON client and on the
    recovery UI otherwise. *)
Definition redirectsTo (r : Request) (g : recovery.Flow) (t : Trace) : Prop :=
  exists json base,
    t = [(IsJSONRequest r, ABool json);
         (if json then SelfPublicURL else SelfServiceFlowRecoveryUI, AString base);
         (HttpRedirect r
            (if json then GetFlowURL base (recovery.ID g)
             else AppendTo base (recovery.ID g))
            StatusSeeOther, AUnit)].

(** The new flow [g] is handed to the persister; when it is accepted the
    reply follows and the handler ends with [ErrCompletedByStrategy]. *)
Definition persistsNew (r : Request) (g : recovery.Flow) (t : Trace) (e : Err)
    : Prop :=
  exists u rest,
    t = (CreateRecoveryFlow g, AError u) :: rest /\
    match u with
    | Some err => rest = [] /\ e = err
    | None => redirectsTo r g rest /\ e = ErrCompletedByStrategy
    end.

(** A flow of type [ft] is asked of [recovery.NewFlow], with the configured
    lifespan and a regenerated token; [k] is what follows. *)
Definition startsNew (r : Request) (ft : flow.FlowType) (t : Trace) (e : Err)
    (k : recovery.Flow -> Trace -> Prop) : Prop :=
  exists lifespan token nf rest,
    t = (SelfServiceFlowRecoveryRequestLifespan, ATime lifespan)
        :: (RegenerateToken r, AString token)
        :: (NewFlow lifespan token r ft, AFlow nf) :: rest /\
    match nf with
    | inl err => rest = [] /\ e = err
    | inr g => k g rest
    end.

(** The message for the error [recErr] is put on the new flow [g]: the
    expiry message for an [ExpiredError], what [ParseError] makes of the
    error otherwise. *)
Definition attaches (r : Request) (recErr : Err) (g : recovery.Flow)
    (t : Trace) (e : Err) : Prop :=
  match recErr with
  | ExpiredError expiredAt =>
      persistsNew r
        (recovery.withUI g
           (container.MessagesAdd (recovery.UI g)
              (text.NewErrorValidationRecoveryFlowExpired expiredAt))) t e
  | _ =>
      exists p rest,
        t = (ParseError (recovery.UI g) node.CodeGroup recErr, AContainer p) :: rest /\
        match p with
        | inl err => rest = [] /\ e = err
        | inr ui => persistsNew r (recovery.withUI g ui) rest e
        end
  end.

Definition isUpdateVerifiableAddress (o : Op) : bool :=
  match o with UpdateVerifiableAddress _ => true | _ => false end.

(** The calls by which the address of an accepted code is marked verified,
    and the persister's answer [u]: for a self-service code whose address is
    the value of an address of the identity not yet verified (the first such
    address in the identity's list), the clock is read and the address is
    handed to the identity pool, verified, with the time read and the status
    "completed"; in every other case no call is made. *)
Definition verifies (code : RecoveryCode) (recovered : identity.Identity)
    (t : Trace) (u : option Err) : Prop :=
  match CodeType code, RecoveryAddress code with
  | RecoveryCodeTypeSelfService, Some ra =>
      match pickedAddress recovered ra with
      | Some va =>
          if identity.va_Verified va then t = [] /\ u = None
          else exists now,
                 t = [(Now, ATime now);
                      (UpdateVerifiableAddress (markVerified va now), AError u)]
      | None => t = [] /\ u = None
      end
  | RecoveryCodeTypeSelfService, None =>
      identity.VerifiableAddresses recovered = [] /\ t = [] /\ u = None
  | RecoveryCodeTypeAdmin, _ => t = [] /\ u = None
  end.

(** The session is made for the identity at the first assurance level, for
    the credential type "recovery code", and handed to the session manager
    (browser flow, with a cookie) or to the session persister (API flow). *)
Definition issuesSession (r : Request) (f : recovery.Flow)
    (recovered : identity.Identity) (t : Trace) : Prop :=
  exists now s rest,
    t = (Now, ATime now)
        :: (NewActiveSession r recovered now identity.CredentialsTypeRecoveryCode
              identity.AuthenticatorAssuranceLevel1, ASession s)
        :: rest
    /\ forall sess, s = inr sess ->
         (recovery.Type_ f = flow.TypeBrowser ->
            exists u rest', rest = (UpsertAndIssueCookie r sess, AError u) :: rest')
         /\ (recovery.Type_ f = flow.TypeAPI ->
               exists u rest', rest = (UpsertSession sess, AError u) :: rest').

(** The code store after the address step, in the in-memory realisation. *)
Definition codesAfterSend (w : Mem.World) (f : recovery.Flow)
    (body : recoverySubmitPayload) : CodeStore.Store :=
  let deleted := CodeStore.DeleteCodesOfFlow (Mem.codes w) (recovery.ID f) in
  match Mem.lookupAddress (Email body) (Mem.identities w) with
  | None => deleted
  | Some (i, ra) =>
      snd (CodeStore.IssueCode deleted (Mem.nextID w)
             (match Mem.secrets w with s :: _ => s | [] => "000000" end)
             (Mem.clock w + Mem.cfg_CodeLifespan (Mem.cfg w))%Z
             (recovery.ID f) (identity.ID i) ra RecoveryCodeTypeSelfService)
  end.

(** The three assurance levels. *)
Definition validAAL (aal : identity.AuthenticatorAssuranceLevel) : Prop :=
  aal = identity.NoAuthenticatorAssuranceLevel
  \/ aal = identity.AuthenticatorAssuranceLevel1
  \/ aal = identity.AuthenticatorAssuranceLevel2.


(** What [CredentialsEqual] compares of two credentials: the configuration
    and the identifiers; type, version, identifiers of rows and dates are
    left aside. *)
Definition sameCredentials (x y : identity.Credentials) : Prop :=
  identity.Config x = identity.Config y
  /\ identity.Identifiers x = identity.Identifiers y.

(** Two maps hold credentials under the same types, alike under each. *)
Definition agree (a b : gmap string identity.Credentials) : Prop :=
  forall k,
    match a !! k, b !! k with
    | Some x, Some y => sameCredentials x y
    | None, None => True
    | _, _ => False
    end.

(** The address the hooks of [CodeAddressVerifier] pick: the first one that
    is not verified and carries the given value. *)
Definition firstUnverified (address : string) (vas : list identity.VerifiableAddress)
    : option identity.VerifiableAddress :=
  List.find
    (fun va => negb (identity.va_Verified va)
               && String.eqb address (identity.va_Value va))
    vas.

(** What the hooks do once the used code is at hand: at most one call, of
    the identity pool, for the address picked; its answer is the hook's. *)
Definition marksOnly (address : string) (vas : list identity.VerifiableAddress)
    (t : list (hook.Call * hook.Reply)) (res : option Err) : Prop :=
  match firstUnverified address vas with
  | None => t = [] /\ res = None
  | Some va =>
      t = [(hook.UpdateVerifiableAddress (hook.completed va), hook.RUpdate res)]
  end.

(** The payload [body] with the method field replaced. *)
Definition withMethod (body : recoverySubmitPayload) (m : string)
    : recoverySubmitPayload :=
  {| Method := m; Code := Code body; CSRFToken := CSRFToken body;
     Flow := Flow body; Email := Email body |}.

(** Every cookie of the request is one of Cloudflare's. *)
Definition onlyCloudflareCookies (r : Request) : Prop :=
  Forall (fun name => String.prefix "__cf" name = true) (Cookies r).

(** No condition on the events of a run. *)
Definition anyEvent : Event -> Prop := fun _ => True.

(** A handler's result carries an error. *)
Definition failed (x : recovery.Flow * option Err) : Prop := snd x <> None.

(** The session [s] was made in the run [t]: [session.NewActiveSession]
    answered it. *)
Definition made (t : Trace) (s : session.Session) : Prop :=
  exists r i now method aal,
    In (NewActiveSession r i now method aal, ASession (inr s)) t.

(** How [recoveryIssueSession] hands on the session, by the type of the flow
    [f]: with a cookie for a browser flow; to the session persister for an
    API flow, whose body, when written, carries the session token and the
    settings flow as the two things to continue with; a browser client is
    sent on to the settings UI. *)
Definition sessionByType (f : recovery.Flow) (t : Trace) (e : Event) : Prop :=
  match fst e with
  | UpsertAndIssueCookie _ s => recovery.Type_ f = flow.TypeBrowser /\ made t s
  | UpsertSession s => recovery.Type_ f = flow.TypeAPI /\ made t s
  | WriterWrite _ g =>
      recovery.Type_ f = flow.TypeAPI
      /\ exists s sf,
           made t s
           /\ recovery.ContinueWith_ g
              = recovery.ContinueWith_ f
                ++ [NewContinueWithSetToken (session.Token s);
                    NewContinueWithSettingsUI sf]
  | WriterWriteError _ _ => recovery.Type_ f <> flow.TypeAPI
  | _ => True
  end.

(** The same, for the session [sess] at hand. *)
Definition handsOn (f : recovery.Flow) (sess : session.Session) (e : Event) : Prop :=
  match fst e with
  | UpsertAndIssueCookie _ s => recovery.Type_ f = flow.TypeBrowser /\ s = sess
  | UpsertSession s => recovery.Type_ f = flow.TypeAPI /\ s = sess
  | WriterWrite _ g =>
      recovery.Type_ f = flow.TypeAPI
      /\ exists sf,
           recovery.ContinueWith_ g
           = recovery.ContinueWith_ f
             ++ [NewContinueWithSetToken (session.Token sess);
                 NewContinueWithSettingsUI sf]
  | WriterWriteError _ _ => recovery.Type_ f <> flow.TypeAPI
  | NewActiveSession _ _ _ _ _ => False
  | _ => True
  end.

(** What is continued with on the flow [g] held while the session is handed
    on: nothing more than on [f], or, on an API flow, the session token. *)
Definition continues (f : recovery.Flow) (sess : session.Session)
    (g : recovery.Flow) : Prop :=
  recovery.Type_ g = recovery.Type_ f
  /\ (recovery.ContinueWith_ g = recovery.ContinueWith_ f
      \/ (recovery.Type_ f = flow.TypeAPI
          /\ recovery.ContinueWith_ g
             = recovery.ContinueWith_ f
               ++ [NewContinueWithSetToken (session.Token sess)])).

(** The result carries an error, and a flow that is not of type API has
    nothing added to continue with. *)
Definition keepsToken (f : recovery.Flow) (x : recovery.Flow * option Err) : Prop :=
  snd x <> None
  /\ (recovery.Type_ f <> flow.TypeAPI ->
      recovery.ContinueWith_ (fst x) = recovery.ContinueWith_ f).

(** What no handler of the strategy changes of the flow [f] it is given. *)
Definition sameFrame (f g : recovery.Flow) : Prop :=
  recovery.ID g = recovery.ID f
  /\ recovery.Type_ g = recovery.Type_ f
  /\ recovery.ExpiresAt g = recovery.ExpiresAt f
  /\ recovery.RequestURL g = recovery.RequestURL f
  /\ recovery.Active g = recovery.Active f
  /\ recovery.DangerousSkipCSRFCheck g = recovery.DangerousSkipCSRFCheck f.

(** What changes with the step to PassedChallenge only. *)
Definition untouched (f g : recovery.Flow) : Prop :=
  recovery.State g = recovery.State f
  /\ recovery.CSRFToken g = recovery.CSRFToken f
  /\ recovery.RecoveredIdentityID g = recovery.RecoveredIdentityID f
  /\ recovery.ContinueWith_ g = recovery.ContinueWith_ f.

Definition inFrame (f g : recovery.Flow) : Prop :=
  sameFrame f g
  /\ (untouched f g
      \/ (recovery.State g = flow.StatePassedChallenge
          /\ recovery.RecoveredIdentityID g <> None)).

Definition framed (f : recovery.Flow) (x : recovery.Flow * option Err) : Prop :=
  inFrame f (fst x).

(** A run writes no response, or it writes one, with its last call, and the
    handler then ends with [ErrCompletedByStrategy]. *)
Definition respondsLast (t : Trace) (e : option Err) : Prop :=
  Forall (callsNo responds) t
  \/ exists pre ev,
       t = pre ++ [ev]
       /\ Forall (callsNo responds) pre
       /\ responds (fst ev) = true
       /\ e = Some ErrCompletedByStrategy.

(** Every run of [p] that returns is such, [err] reading the error off the
    value returned. *)
Definition respondsOnce {A} (err : A -> option Err) (p : Prog A) : Prop :=
  forall t a, behaves p t (Some a) -> respondsLast t (err a).

Definition completed (_ : unit) : option Err := Some ErrCompletedByStrategy.
Definition errorOf (x : recovery.Flow * option Err) : option Err := snd x.

(** The input fields the handlers put on a form. *)
Definition csrfField (token : string) : node.Node :=
  node.NewInputField "csrf_token" (Some token) node.DefaultGroup
    node.InputAttributeTypeHidden true.

Definition emailField (value : option string) : node.Node :=
  node.WithMetaLabel
    (node.NewInputField "email" value node.CodeGroup node.InputAttributeTypeEmail true)
    text.NewInfoNodeInputEmail.

Definition submitButton : node.Node :=
  node.WithMetaLabel
    (node.NewInputField "method" (Some RecoveryStrategyID) node.CodeGroup
       node.InputAttributeTypeSubmit false)
    text.NewInfoNodeLabelSubmit.

(** The form [h] is the form [g] but for its fields. *)
Definition sameFormBut (g h : container.Container) : Prop :=
  container.Method h = container.Method g
  /\ container.Action h = container.Action g
  /\ container.Messages h = container.Messages g.

(** The fields of [ns] other than the anti-forgery token and the address
    are among [ms]. *)
Definition keepsOtherFields (ns ms : node.Nodes) : Prop :=
  forall n, In n ns -> node.Name n <> "csrf_token" -> node.Name n <> "email" ->
            In n ms.

(** The submission was decoded to [body], names the flow [i], and the flow
    fetched under this identifier is [fl], found valid. *)
Definition fetchedFor (r : Request) (t : Trace) (body : recoverySubmitPayload)
    (i : UUID) (fl : recovery.Flow) : Prop :=
  In (DecodeRecovery r, APayload (inr body)) t
  /\ In (ParseUUID (Flow body), AUUID i) t
  /\ In (GetRecoveryFlow i, AFlow (inr fl)) t
  /\ In (FlowValid fl, AError None) t.

(** Codes are deleted and sent for the flow fetched, to the address
    submitted. *)
Definition onFetched (r : Request) (t : Trace) (e : Event) : Prop :=
  match fst e with
  | DeleteRecoveryCodesOfFlow id =>
      exists body i fl, fetchedFor r t body i fl /\ id = recovery.ID fl
  | SendRecoveryCode g _ to =>
      exists body i fl, fetchedFor r t body i fl /\ g = fl /\ to = Email body
  | _ => True
  end.

(** For the flow [fl] and the payload [body] at hand. *)
Definition onFlow (fl : recovery.Flow) (body : recoverySubmitPayload) (e : Event)
    : Prop :=
  match fst e with
  | DeleteRecoveryCodesOfFlow id => id = recovery.ID fl
  | SendRecoveryCode g _ to => g = fl /\ to = Email body
  | _ => True
  end.

Definition isGetRecoveryFlow (o : Op) : bool :=
  match o with GetRecoveryFlow _ => true | _ => false end.

(** One of the three states the strategy knows. *)
Definition knownState (s : flow.State) : Prop :=
  s = flow.StateChooseMethod \/ s = flow.StateEmailSent
  \/ s = flow.StatePassedChallenge.

Definition isUpsertSession (o : Op) : bool :=
  match o with
  | UpsertAndIssueCookie _ _ | UpsertSession _ => true
  | _ => false
  end.

(** The flow held after the session was handed on: the flow [f] in state
    PassedChallenge, with the same identifier, type and request URL. *)
Definition passedOf (f g : recovery.Flow) : Prop :=
  recovery.ID g = recovery.ID f
  /\ recovery.Type_ g = recovery.Type_ f
  /\ recovery.RequestURL g = recovery.RequestURL f
  /\ recovery.State g = flow.StatePassedChallenge.

(** The settings flow as it is persisted: the fresh flow [sf] with the
    return address [u] and the message that the recovery succeeded. *)
Definition successFlow (sf : settings.Flow) (u : string) (until : Time)
    : settings.Flow :=
  settings.withUI (settings.withRequestURL sf u)
    (container.MessagesSet (settings.UI sf) (text.NewRecoverySuccessful until)).

(** The reply that sends the client on to the settings flow [sf]: the body
    of an API flow, naming the settings flow among the things to continue
    with; for a browser, the address of the settings UI with the settings
    flow's identifier, as an error to act on for a JSON client and as a
    redirect (303) otherwise. *)
Definition sendsToSettings (r : Request) (f : recovery.Flow) (sf : settings.Flow)
    (t : Trace) : Prop :=
  (recovery.Type_ f = flow.TypeAPI
   /\ exists pre g,
        t = pre ++ [(WriterWrite r g, AUnit)]
        /\ passedOf f g
        /\ In (NewContinueWithSettingsUI sf) (recovery.ContinueWith_ g))
  \/ (recovery.Type_ f <> flow.TypeAPI
      /\ exists pre json ui,
           t = pre ++ [(IsJSONRequest r, ABool json);
                       (SelfServiceFlowSettingsUI, AString ui);
                       (if json
                        then WriterWriteError r
                               (BrowserLocationChangeRequiredError
                                  (AppendTo ui (settings.ID sf)))
                        else HttpRedirect r (AppendTo ui (settings.ID sf))
                               StatusSeeOther, AUnit)]).

(** The calls of the address step of [Recover]: the session check, the
    fetching and validation of the flow named by the payload, the deleting
    and sending of codes. *)
Definition callsAddressStep (o : Op) : bool :=
  match o with
  | FetchFromRequest _ | ParseUUID _ | GetRecoveryFlow _ | FlowValid _
  | DeleteRecoveryCodesOfFlow _ | SendRecoveryCode _ _ _ => true
  | _ => false
  end.

(* ===================================================================== *)
(** ** A worked scenario: one identity, one browser flow *)

Module Sample.

Definition emptyUI : container.Container :=
  {| container.Method := "POST"; container.Action := None;
     container.Nodes := []; container.Messages := [] |}.

Definition I1 : identity.Identity :=
  {| identity.ID := 100%N;
     identity.VerifiableAddresses :=
       [ {| identity.va_ID := 201%N; identity.va_Value := "a@x.com";
            identity.va_Verified := false; identity.va_Via := "email";
            identity.va_Status := "pending"; identity.va_VerifiedAt := None |} ];
     identity.RecoveryAddresses :=
       [ {| identity.ra_ID := 301%N; identity.ra_Value := "a@x.com" |} ] |}.

Definition F1 : recovery.Flow :=
  {| recovery.ID := 1%N; recovery.Type_ := flow.TypeBrowser;
     recovery.ExpiresAt := 1000%Z; recovery.RequestURL := "";
     recovery.Active := "code"; recovery.UI := emptyUI;
     recovery.State := flow.StateChooseMethod; recovery.CSRFToken := "tok";
     recovery.RecoveredIdentityID := None;
     recovery.DangerousSkipCSRFCheck := false;
     recovery.ContinueWith_ := [] |}.

Definition cfg0 : Mem.Config :=
  {| Mem.cfg_DisableAPIFlowEnforcement := false;
     Mem.cfg_CodeStrategy :=
       {| config.CodeEnabled := true; config.RegistrationEnabled := false;
          config.LoginEnabled := false |};
     Mem.cfg_OtherStrategies := false;
     Mem.cfg_RecoveryRequestLifespan := 60%Z;
     Mem.cfg_CodeLifespan := 30%Z;
     Mem.cfg_SelfPublicURL := "https://id.example";
     Mem.cfg_RecoveryUI := "https://app.example/recovery";
     Mem.cfg_SettingsUI := "https://app.example/settings";
     Mem.cfg_RecoveryReturnTo := None;
     Mem.cfg_PrivilegedSessionMaxAge := 15%Z |}.

Definition w0 : Mem.World :=
  {| Mem.flows := {[ 1%N := F1 ]}; Mem.codes := []; Mem.identities := [I1];
     Mem.sessions := []; Mem.settingsFlows := []; Mem.outbox := [];
     Mem.csrf := "tok"; Mem.secrets := ["123456"; "s1"; "s2"; "s3"; "s4"; "s5"];
     Mem.clock := 10%Z; Mem.nextID := 500%N; Mem.cfg := cfg0 |}.

(** A browser submission for flow 1. *)
Definition req (email code token : string) : Request :=
  {| Header_Origin := ""; Cookies := []; AcceptsJSON := false;
     Form := {| Method := "code"; Code := code; CSRFToken := token;
                Flow := "1"; Email := email |};
     SessionToken := None |}.

Definition world (x : option (recovery.Flow * option Err) * Mem.World * Trace)
    : Mem.World := snd (fst x).
Definition outcome (x : option (recovery.Flow * option Err) * Mem.World * Trace)
    : option (recovery.Flow * option Err) := fst (fst x).
Definition trace (x : option (recovery.Flow * option Err) * Mem.World * Trace)
    : Trace := snd x.

(** The flow of the scenario, as the flow store holds it. *)
Definition stored (w : Mem.World) : recovery.Flow :=
  match Mem.flows w !! 1%N with Some f => f | None => F1 end.

(** The address is submitted, then a wrong code, then the code, then the
    same code again. *)
Definition emailRequest : Request := req "a@x.com" "" "tok".
Definition step1 := Eval vm_compute in Mem.submit w0 1%N emailRequest.
Definition w1 : Mem.World := Eval vm_compute in world step1.
Definition F1sent : recovery.Flow := Eval vm_compute in stored w1.

Definition wrongCodeRequest : Request := req "" "999999" "tok".
Definition refused :=
  Eval vm_compute in
    run Mem.impl (recoveryUseCode wrongCodeRequest (Form wrongCodeRequest) F1sent) w1.

Definition codeRequest : Request := req "" "123456" "tok".
Definition step2 := Eval vm_compute in Mem.submit w1 1%N codeRequest.
Definition w2 : Mem.World := Eval vm_compute in world step2.
Definition F1passed : recovery.Flow := Eval vm_compute in stored w2.

Definition codeAgainRequest : Request := req "" "123456" "s1".
Definition step3 := Eval vm_compute in Mem.submit w2 1%N codeAgainRequest.
Definition w3 : Mem.World := Eval vm_compute in world step3.

(** The same flow in state EmailSent, created with the anti-forgery check
    switched off, and a submission of the code with a token the browser was
    never given. *)
Definition F1skip : recovery.Flow :=
  Eval vm_compute in
    {| recovery.ID := recovery.ID F1sent; recovery.Type_ := recovery.Type_ F1sent;
       recovery.ExpiresAt := recovery.ExpiresAt F1sent;
       recovery.RequestURL := recovery.RequestURL F1sent;
       recovery.Active := recovery.Active F1sent; recovery.UI := recovery.UI F1sent;
       recovery.State := recovery.State F1sent;
       recovery.CSRFToken := recovery.CSRFToken F1sent;
       recovery.RecoveredIdentityID := recovery.RecoveredIdentityID F1sent;
       recovery.DangerousSkipCSRFCheck := true;
       recovery.ContinueWith_ := recovery.ContinueWith_ F1sent |}.
Definition w1skip : Mem.World :=
  Eval vm_compute in Mem.withFlows w1 (<[1%N := F1skip]> (Mem.flows w1)).
Definition forgedRequest : Request := req "" "123456" "forged".
Definition stepForged := Eval vm_compute in Mem.submit w1skip 1%N forgedRequest.

(** A submission of the code to the flow checked as usual, with the same
    forged token. *)
Definition stepRejected := Eval vm_compute in Mem.submit w1 1%N forgedRequest.

(** A flow of type API, submitted to from a browser script: the request
    carries an Origin header. *)
Definition F1api : recovery.Flow :=
  Eval vm_compute in
    {| recovery.ID := 1%N; recovery.Type_ := flow.TypeAPI;
       recovery.ExpiresAt := 1000%Z; recovery.RequestURL := "";
       recovery.Active := "code"; recovery.UI := emptyUI;
       recovery.State := flow.StateChooseMethod; recovery.CSRFToken := "tok";
       recovery.RecoveredIdentityID := None;
       recovery.DangerousSkipCSRFCheck := false;
       recovery.ContinueWith_ := [] |}.
Definition w0api : Mem.World :=
  Eval vm_compute in Mem.withFlows w0 {[ 1%N := F1api ]}.
Definition originRequest : Request :=
  {| Header_Origin := "https://app.example"; Cookies := []; AcceptsJSON := true;
     Form := {| Method := "code"; Code := ""; CSRFToken := "";
                Flow := "1"; Email := "a@x.com" |};
     SessionToken := None |}.
Definition stepOrigin := Eval vm_compute in Mem.submit w0api 1%N originRequest.

(** An address no identity has. *)
Definition unknownRequest : Request := req "nobody@x.com" "" "tok".
Definition stepUnknown := Eval vm_compute in Mem.submit w0 1%N unknownRequest.
Definition sentKnown :=
  Eval vm_compute in
    run Mem.impl (recoveryHandleFormSubmission emailRequest F1 (Form emailRequest)) w0.
Definition sentUnknown :=
  Eval vm_compute in
    run Mem.impl (recoveryHandleFormSubmission emailRequest F1 (Form emailRequest))
      (Mem.withIdentities w0 []).

(** The accepted code, seen from [recoveryUseCode]. *)
Definition accepted :=
  Eval vm_compute in
    run Mem.impl (recoveryUseCode codeRequest (Form codeRequest) F1sent) w1.

(** A second address submission on the flow in state EmailSent. *)
Definition resendRequest : Request := req "a@x.com" "" "tok".
Definition resent :=
  Eval vm_compute in
    run Mem.impl (recoveryHandleFormSubmission resendRequest F1sent (Form resendRequest)) w1.

(** A retry after the flow expired. *)
Definition retried :=
  Eval vm_compute in
    run Mem.impl
      (retryRecoveryFlowWithError forgedRequest flow.TypeBrowser (ExpiredError 5%Z)) w1.

(** A submission by a client that holds the session issued by the recovery. *)
Definition issuedToken : string :=
  Eval vm_compute in
    match Mem.sessions w2 with s :: _ => session.Token s | [] => "" end.
Definition authedRequest : Request :=
  Eval vm_compute in
    {| Header_Origin := ""; Cookies := []; AcceptsJSON := true;
       Form := {| Method := "code"; Code := ""; CSRFToken := Mem.csrf w2;
                  Flow := "1"; Email := "a@x.com" |};
       SessionToken := Some issuedToken |}.
Definition stepAuthed := Eval vm_compute in Mem.submit w2 1%N authedRequest.

(** A submission that names a flow the store does not hold. *)
Definition strayRequest : Request :=
  {| Header_Origin := ""; Cookies := []; AcceptsJSON := false;
     Form := {| Method := "code"; Code := ""; CSRFToken := "tok";
                Flow := "9"; Email := "a@x.com" |};
     SessionToken := None |}.
Definition stepStray := Eval vm_compute in Mem.submit w0 1%N strayRequest.

(** A flow that another strategy is active on. *)
Definition F1link : recovery.Flow :=
  Eval vm_compute in recovery.withActive F1 "link".

(** After a login by code: the flow, the session of the identity, and the
    code that was used, sent to the identity's address. *)
Definition loginFlow : login.Flow :=
  {| login.ID := 7%N; login.Active := identity.CredentialsTypeCodeAuth |}.
Definition registrationFlow : registration.Flow :=
  {| registration.ID := 8%N; registration.Active := identity.CredentialsTypeCodeAuth |}.
Definition loginSession : session.Session :=
  {| session.Identity := I1; session.Token := "s9";
     session.AuthenticatedAt := 20%Z;
     session.Method := identity.CredentialsTypeCodeAuth;
     session.AAL := identity.AuthenticatorAssuranceLevel1 |}.
Definition A1 : identity.VerifiableAddress :=
  {| identity.va_ID := 201%N; identity.va_Value := "a@x.com";
     identity.va_Verified := false; identity.va_Via := "email";
     identity.va_Status := "pending"; identity.va_VerifiedAt := None |}.
Definition loginRun : list (hook.Call * hook.Reply) :=
  [(hook.GetUsedLoginCode 7%N,
    hook.RLogin (inr {| hook.login_Address := "a@x.com" |}));
   (hook.UpdateVerifiableAddress (hook.completed A1), hook.RUpdate None)].
Definition registrationRun : list (hook.Call * hook.Reply) :=
  [(hook.GetUsedRegistrationCode 8%N,
    hook.RRegistration (inr {| hook.registration_Address := "a@x.com" |}));
   (hook.UpdateVerifiableAddress (hook.completed A1), hook.RUpdate None)].

(** Credentials of one type, and the same at a later version. *)
Definition password1 : identity.Credentials :=
  {| identity.cred_ID := 1%N; identity.cred_Type := identity.CredentialsTypePassword;
     identity.IdentityCredentialTypeID := 2%N;
     identity.Identifiers := Some ["a@x.com"];
     identity.IdentifierAddressType := "email";
     identity.Config := "{}"; identity.Version := 0%Z;
     identity.cred_IdentityID := 100%N; identity.CreatedAt := 1%Z;
     identity.UpdatedAt := 1%Z; identity.NID := 3%N |}.
Definition bumpVersion (c : identity.Credentials) : identity.Credentials :=
  {| identity.cred_ID := identity.cred_ID c;
     identity.cred_Type := identity.cred_Type c;
     identity.IdentityCredentialTypeID := identity.IdentityCredentialTypeID c;
     identity.Identifiers := identity.Identifiers c;
     identity.IdentifierAddressType := identity.IdentifierAddressType c;
     identity.Config := identity.Config c;
     identity.Version := (identity.Version c + 1)%Z;
     identity.cred_IdentityID := identity.cred_IdentityID c;
     identity.CreatedAt := identity.CreatedAt c;
     identity.UpdatedAt := (identity.UpdatedAt c + 1)%Z;
     identity.NID := identity.NID c |}.
Definition credentials1 : gmap string identity.Credentials :=
  {[ "password" := password1 ]}.

Definition issuedSession : session.Session :=
  Eval vm_compute in
    match Mem.sessions w2 with
    | s :: _ => s
    | [] => loginSession
    end.

(** The session issued on a flow of type API. *)
Definition issuedApi :=
  Eval vm_compute in
    run Mem.impl (recoveryIssueSession codeRequest F1api I1) w0api.

(** The code strategy switched off. *)
Definition cfgOff : Mem.Config :=
  Eval vm_compute in
    {| Mem.cfg_DisableAPIFlowEnforcement := false;
       Mem.cfg_CodeStrategy :=
         {| config.CodeEnabled := false; config.RegistrationEnabled := true;
            config.LoginEnabled := true |};
       Mem.cfg_OtherStrategies := true;
       Mem.cfg_RecoveryRequestLifespan := 60%Z;
       Mem.cfg_CodeLifespan := 30%Z;
       Mem.cfg_SelfPublicURL := "https://id.example";
       Mem.cfg_RecoveryUI := "https://app.example/recovery";
       Mem.cfg_SettingsUI := "https://app.example/settings";
       Mem.cfg_RecoveryReturnTo := None;
       Mem.cfg_PrivilegedSessionMaxAge := 15%Z |}.
Definition w1off : Mem.World :=
  Eval vm_compute in
    {| Mem.flows := Mem.flows w1; Mem.codes := Mem.codes w1;
       Mem.identities := Mem.identities w1; Mem.sessions := Mem.sessions w1;
       Mem.settingsFlows := Mem.settingsFlows w1; Mem.outbox := Mem.outbox w1;
       Mem.csrf := Mem.csrf w1; Mem.secrets := Mem.secrets w1;
       Mem.clock := Mem.clock w1; Mem.nextID := Mem.nextID w1; Mem.cfg := cfgOff |}.
Definition stepOff := Eval vm_compute in Mem.submit w1off 1%N codeRequest.

(** A flow in a state the strategy does not know. *)
Definition F1odd : recovery.Flow :=
  Eval vm_compute in recovery.withState F1 "odd".
Definition w0odd : Mem.World :=
  Eval vm_compute in Mem.withFlows w0 {[ 1%N := F1odd ]}.
Definition stepOdd := Eval vm_compute in Mem.submit w0odd 1%N emailRequest.

(** The code of an identity that is gone. *)
Definition w1gone : Mem.World := Eval vm_compute in Mem.withIdentities w1 [].
Definition gone :=
  Eval vm_compute in
    run Mem.impl (recoveryUseCode codeRequest (Form codeRequest) F1sent) w1gone.

(** The settings flow persisted in that run. *)
Definition settingsApi : settings.Flow :=
  Eval vm_compute in
    match Mem.settingsFlows (snd (fst issuedApi)) with
    | sf :: _ => sf
    | [] => {| settings.ID := 0%N; settings.RequestURL := ""; settings.UI := emptyUI |}
    end.

(** The code of the scenario, stored without its recovery address. *)
Definition w1bare : Mem.World :=
  Eval vm_compute in
    Mem.withCodes w1
      (map (fun c =>
              {| code_ID := code_ID c; code_Value := code_Value c;
                 UsedAt := UsedAt c; IdentityID := IdentityID c;
                 CodeType := CodeType c; code_ExpiresAt := code_ExpiresAt c;
                 FlowID := FlowID c; RecoveryAddress := None |})
         (Mem.codes w1)).
Definition stepBare := Eval vm_compute in Mem.submit w1bare 1%N codeRequest.

End Sample.

(* ===================================================================== *)
(** * Properties *)

(** ** Runs *)

Lemma behaves_bind_inv {A B} (p : Prog A) (k : A -> Prog B) t r :
  behaves (bind p k) t r ->
  (exists t1 a t2, t = t1 ++ t2 /\ behaves p t1 (Some a) /\ behaves (k a) t2 r)
  \/ (behaves p t None /\ r = None).
Proof.
  revert t. induction p as [a | m | o k' IH]; simpl; intros t H.
  - left. exists [], a, t. simpl. repeat split; auto.
  - right. destruct H as [-> ->]. auto.
  - destruct H as (x & t' & -> & H). apply IH in H.
    destruct H as [(t1 & a & t2 & -> & H1 & H2) | [H1 ->]].
    + left. exists ((o, answer o x) :: t1), a, t2. simpl. repeat split; eauto.
    + right. split; eauto.
Qed.

Lemma behaves_bind_intro {A B} (p : Prog A) (k : A -> Prog B) t1 a t2 r :
  behaves p t1 (Some a) -> behaves (k a) t2 r -> behaves (bind p k) (t1 ++ t2) r.
Proof.
  revert t1. induction p as [x | m | o k' IH]; simpl; intros t1 H1 H2.
  - destruct H1 as [-> [= ->]]. exact H2.
  - destruct H1 as [_ [=]].
  - destruct H1 as (x & t' & -> & H1). exists x, (t' ++ t2). eauto.
Qed.

(** Every run against an implementation of the collaborators is a run. *)
Lemma run_behaves {W A} (I : Impl W) (p : Prog A) w :
  behaves p (snd (run I p w)) (fst (fst (run I p w))).
Proof.
  revert w. induction p as [a | m | o k IH]; simpl; intros w; auto.
  destruct (I o w) as [x w1]. specialize (IH x w1).
  destruct (run I (k x) w1) as [[r w2] t]. simpl in *. eauto.
Qed.

Lemma always_ret {A} P (a : A) : always P (Ret a).
Proof. intros t r [-> _]. constructor. Qed.

Lemma always_panic {A} P m : always P (@Panic A m).
Proof. intros t r [-> _]. constructor. Qed.

Lemma always_vis {A} P o (k : result o -> Prog A) :
  (forall x, P (o, answer o x)) -> (forall x, always P (k x)) ->
  always P (Vis o k).
Proof.
  intros HP Hk t r (x & t' & -> & H). constructor; [apply HP | eapply Hk, H].
Qed.

Lemma always_call P o : (forall x, P (o, answer o x)) -> always P (call o).
Proof. intros HP. apply always_vis; [exact HP | intros x; apply always_ret]. Qed.

Lemma always_bind {A B} P (p : Prog A) (k : A -> Prog B) :
  always P p -> (forall a, always P (k a)) -> always P (bind p k).
Proof.
  intros Hp Hk t r H. apply behaves_bind_inv in H.
  destruct H as [(t1 & a & t2 & -> & H1 & H2) | [H1 _]].
  - apply Forall_app. split; [eapply Hp, H1 | eapply Hk, H2].
  - eapply Hp, H1.
Qed.

Lemma always_weaken {A} (P Q : Event -> Prop) (p : Prog A) :
  (forall e, P e -> Q e) -> always P p -> always Q p.
Proof. intros HPQ Hp t r H. eapply Forall_impl; [|exact HPQ]. eapply Hp, H. Qed.

(** Syntax-directed proof of an [always] goal; calls of other handlers are
    closed from the hint base. *)
Create HintDb always discriminated.

Ltac always_step :=
  match goal with
  | |- always _ (Ret _) => apply always_ret
  | |- always _ (Panic _) => apply always_panic
  | |- always ?P (call ?o) => apply (always_call P o); intros ?; simpl
  | |- always ?P (Vis ?o ?k) => apply (always_vis P o k); [intros ?; simpl | intros ?]
  | |- always _ (bind _ _) => apply always_bind; [| intros ?]
  | |- always _ (match ?x with _ => _ end) => destruct x eqn:?
  | |- always _ _ => solve [eauto with always]
  end.

Ltac always_auto := repeat always_step; try solve [simpl; auto; congruence].

(** Unfolding one layer of a run held as a hypothesis. *)
Ltac run_step H :=
  match type of H with
  | behaves (Ret _) _ _ => destruct H as [-> H]
  | behaves (Panic _) _ _ => destruct H as [-> H]
  | behaves (Vis _ _) _ _ =>
      let x := fresh "x" in let t := fresh "t" in
      destruct H as (x & t & -> & H)
  | behaves (call _) _ _ =>
      let x := fresh "x" in let t := fresh "t" in
      destruct H as (x & t & -> & H)
  | behaves (match ?x with _ => _ end) _ _ => destruct x eqn:?
  | behaves (bind _ _) _ _ => simpl in H
  end.

(* ===================================================================== *)
(** ** The method gate *)

(** C9, as amended.  [MethodEnabledAndAllowed] has three outcomes.  When the
    requested method differs from the expected strategy identifier it fails
    with [ErrStrategyNotResponsible] and reads no configuration.  When they
    are equal it reads one flag and succeeds exactly when the flag is set,
    failing as "not found" with the endpoint-disabled reason otherwise: for
    the code strategy the flag is the one of the flow executed (registration,
    login, or the general one), for any other strategy it is that strategy's
    single flag. *)
Theorem MethodEnabledAndAllowed_gate flowName expected actual t res :
  behaves (MethodEnabledAndAllowed flowName expected actual) t res ->
  (actual <> expected /\ t = [] /\ res = Some (Some ErrStrategyNotResponsible))
  \/ (actual = expected /\
      EqualFold actual identity.CredentialsTypeCodeAuth = true /\
      exists c, t = [(SelfServiceCodeStrategy, ACodeStrategy c)] /\
                res = Some (gateError (codeFlag flowName c)))
  \/ (actual = expected /\
      EqualFold actual identity.CredentialsTypeCodeAuth = false /\
      exists c, t = [(SelfServiceStrategy expected, AStrategy c)] /\
                res = Some (gateError (config.Enabled c))).
Proof.
  unfold MethodEnabledAndAllowed. intros H.
  destruct (String.eqb actual expected) eqn:E; simpl in H.
  - apply String.eqb_eq in E. right.
    destruct (EqualFold actual identity.CredentialsTypeCodeAuth) eqn:F.
    + left. repeat split; auto.
      destruct flowName; simpl in H; destruct H as (c & t' & -> & H);
        exists c; unfold codeFlag, gateError;
        destruct c as [e1 e2 e3]; simpl in *;
        match goal with |- context [if ?b then _ else _] => destruct b end;
        simpl in H; destruct H as [-> ->]; auto.
    + right. repeat split; auto.
      simpl in H. destruct H as (c & t' & -> & H). exists c.
      unfold gateError. destruct (config.Enabled c); simpl in H;
        destruct H as [-> ->]; auto.
  - apply String.eqb_neq in E. left. destruct H as [-> ->]. auto.
Qed.

(** The gate on the sample configuration: the code strategy is enabled, the
    method asked for is the expected one, the gate lets the request pass. *)
Lemma MethodEnabledAndAllowed_gate_witness :
  behaves (MethodEnabledAndAllowed flow.RecoveryFlow "code" "code")
    [(SelfServiceCodeStrategy, ACodeStrategy (Mem.cfg_CodeStrategy Sample.cfg0))]
    (Some None)
  /\ exists c,
       [(SelfServiceCodeStrategy, ACodeStrategy (Mem.cfg_CodeStrategy Sample.cfg0))]
       = [(SelfServiceCodeStrategy, ACodeStrategy c)]
       /\ Some (@None Err) = Some (gateError (codeFlag flow.RecoveryFlow c)).
Proof.
  assert (H : behaves (MethodEnabledAndAllowed flow.RecoveryFlow "code" "code")
    [(SelfServiceCodeStrategy, ACodeStrategy (Mem.cfg_CodeStrategy Sample.cfg0))]
    (Some None)).
  { simpl. eexists _, _. split; [reflexivity|]. simpl. auto. }
  split; [exact H|].
  destruct (MethodEnabledAndAllowed_gate _ _ _ _ _ H)
    as [(N & _) | [(_ & _ & R) | (_ & F & _)]].
  - congruence.
  - exact R.
  - discriminate F.
Defined.

(** C9, as stated, fails: asked for method "link" where "code" is expected,
    the gate does not fail as "not found" but as "not responsible". *)
Lemma MethodEnabledAndAllowed_mismatch :
  behaves (MethodEnabledAndAllowed flow.RecoveryFlow "code" "link") []
    (Some (Some ErrStrategyNotResponsible))
  /\ Some (Some ErrStrategyNotResponsible)
     <> Some (Some (ErrNotFound strategy.EndpointDisabledMessage)).
Proof. split; [simpl; auto | discriminate]. Qed.

(* ===================================================================== *)
(** ** Runs of the scenario *)

Lemma run_behaves_eq {W A} (I : Impl W) (p : Prog A) w x :
  run I p w = x -> behaves p (snd x) (fst (fst x)).
Proof. intros <-. apply run_behaves. Qed.

Lemma refused_run :
  run Mem.impl
    (recoveryUseCode Sample.wrongCodeRequest (Form Sample.wrongCodeRequest)
       Sample.F1sent) Sample.w1
  = Sample.refused.
Proof. vm_compute. reflexivity. Qed.

(* ===================================================================== *)
(** ** A code that is not found *)

(** C3.  When the code store answers [ErrCodeNotFound] to [recoveryUseCode],
    the handler replaces the flow's messages by the single message "invalid
    or already used", keeps the flow's identifier and state, and hands this
    very flow to the flow persister.  When the persister accepts it, nothing
    else happens: no further call is made (no new flow, no response written)
    and the handler returns the flow with no error.  (When the persister
    refuses, the retry path takes over.) *)
Theorem recoveryUseCode_code_not_found r body f t res :
  behaves (recoveryUseCode r body f) t res ->
  startsWith t
    (UseRecoveryCode (recovery.ID f) (Code body), ACode (inl ErrCodeNotFound)) ->
  container.Messages (recovery.UI (refusedFlow f))
    = [text.NewErrorValidationRecoveryCodeInvalidOrAlreadyUsed]
  /\ recovery.State (refusedFlow f) = recovery.State f
  /\ recovery.ID (refusedFlow f) = recovery.ID f
  /\ exists u rest,
       t = (UseRecoveryCode (recovery.ID f) (Code body), ACode (inl ErrCodeNotFound))
           :: (UpdateRecoveryFlow (refusedFlow f), AError u) :: rest
       /\ (u = None -> rest = [] /\ res = Some (refusedFlow f, None))
       /\ (forall err, u = Some err ->
             behaves (retryWith r (refusedFlow f) err) rest res).
Proof.
  intros H S. repeat split.
  unfold recoveryUseCode in H. simpl in H.
  destruct H as (c & t' & -> & H).
  injection S as ->. simpl in H.
  destruct H as (u & t'' & -> & H).
  exists u, t''. split; [reflexivity|]. split.
  - intros ->. destruct H as [-> ->]. auto.
  - intros err ->. exact H.
Qed.

(** In the scenario, a wrong code submitted to the flow in state EmailSent:
    the flow comes back with the message and without error. *)
Lemma recoveryUseCode_code_not_found_witness :
  startsWith (snd Sample.refused)
    (UseRecoveryCode (recovery.ID Sample.F1sent) (Code (Form Sample.wrongCodeRequest)),
     ACode (inl ErrCodeNotFound))
  /\ fst (fst Sample.refused) = Some (refusedFlow Sample.F1sent, None)
  /\ recovery.State (refusedFlow Sample.F1sent) = flow.StateEmailSent.
Proof.
  assert (S : startsWith (snd Sample.refused)
    (UseRecoveryCode (recovery.ID Sample.F1sent) (Code (Form Sample.wrongCodeRequest)),
     ACode (inl ErrCodeNotFound))) by (vm_compute; reflexivity).
  split; [exact S|].
  destruct (recoveryUseCode_code_not_found Sample.wrongCodeRequest
              (Form Sample.wrongCodeRequest) Sample.F1sent
              (snd Sample.refused) (fst (fst Sample.refused))
              (run_behaves_eq _ _ _ _ refused_run) S)
    as (_ & St & _ & u & rest & E & Hok & _).
  split.
  - destruct u as [e|]; [vm_compute in E; discriminate E | apply Hok; reflexivity].
  - rewrite St. vm_compute. reflexivity.
Defined.

(* ===================================================================== *)
(** ** Handlers return; the calls they make *)

Lemma returns_ret {A} (a : A) : returns (Ret a).
Proof. intros t [_ [=]]. Qed.

Lemma returns_vis {A} o (k : result o -> Prog A) :
  (forall x, returns (k x)) -> returns (Vis o k).
Proof. intros Hk t (x & t' & -> & H). exact (Hk x t' H). Qed.

Lemma returns_call o : returns (call o).
Proof. apply returns_vis. intros x. apply returns_ret. Qed.

Lemma returns_bind {A B} (p : Prog A) (k : A -> Prog B) :
  returns p -> (forall a, returns (k a)) -> returns (bind p k).
Proof.
  intros Hp Hk t H. apply behaves_bind_inv in H.
  destruct H as [(t1 & a & t2 & -> & H1 & H2) | [H1 _]].
  - exact (Hk a t2 H2).
  - exact (Hp t H1).
Qed.

(** A run of a sequence whose first part returns splits in two. *)
Lemma behaves_bind_returns {A B} (p : Prog A) (k : A -> Prog B) t r :
  returns p -> behaves (bind p k) t r ->
  exists t1 a t2, t = t1 ++ t2 /\ behaves p t1 (Some a) /\ behaves (k a) t2 r.
Proof.
  intros Hp H. apply behaves_bind_inv in H.
  destruct H as [H | [H _]]; [exact H | destruct (Hp t H)].
Qed.

Create HintDb returns discriminated.

Ltac returns_step :=
  match goal with
  | |- returns (Ret _) => apply returns_ret
  | |- returns (call ?o) => apply (returns_call o)
  | |- returns (Vis ?o ?k) => apply (returns_vis o k); intros ?
  | |- returns (bind _ _) => apply returns_bind; [| intros ?]
  | |- returns (match ?x with _ => _ end) => destruct x eqn:?
  | |- returns _ => solve [eauto with returns]
  end.

Ltac returns_auto := repeat returns_step.

Lemma EnsureCSRF_returns r ft d actual : returns (EnsureCSRF r ft d actual).
Proof. unfold EnsureCSRF. returns_auto. Qed.
#[export] Hint Resolve EnsureCSRF_returns : returns.

Lemma csrfGate_returns r f body : returns (csrfGate r f body).
Proof. unfold csrfGate. returns_auto. Qed.
#[export] Hint Resolve csrfGate_returns : returns.

Lemma MethodEnabledAndAllowed_returns n e a : returns (MethodEnabledAndAllowed n e a).
Proof. unfold MethodEnabledAndAllowed. returns_auto. Qed.
#[export] Hint Resolve MethodEnabledAndAllowed_returns : returns.

Lemma HandleRecoveryError_returns r fl body err :
  returns (HandleRecoveryError r fl body err).
Proof. unfold HandleRecoveryError. returns_auto. Qed.
#[export] Hint Resolve HandleRecoveryError_returns : returns.

Lemma HandleRecoveryErrorOn_returns r f body err :
  returns (HandleRecoveryErrorOn r f body err).
Proof. unfold HandleRecoveryErrorOn. returns_auto. Qed.
#[export] Hint Resolve HandleRecoveryErrorOn_returns : returns.

Lemma redirectToNewFlow_returns r f : returns (redirectToNewFlow r f).
Proof. unfold redirectToNewFlow. returns_auto. Qed.
#[export] Hint Resolve redirectToNewFlow_returns : returns.

Lemma retryRecoveryFlowWithMessage_returns r ft m :
  returns (retryRecoveryFlowWithMessage r ft m).
Proof. unfold retryRecoveryFlowWithMessage. returns_auto. Qed.
#[export] Hint Resolve retryRecoveryFlowWithMessage_returns : returns.

Lemma retryRecoveryFlowWithError_returns r ft e :
  returns (retryRecoveryFlowWithError r ft e).
Proof. unfold retryRecoveryFlowWithError. returns_auto. Qed.
#[export] Hint Resolve retryRecoveryFlowWithError_returns : returns.

Lemma retryWith_returns r f e : returns (retryWith r f e).
Proof. unfold retryWith. returns_auto. Qed.
#[export] Hint Resolve retryWith_returns : returns.

Lemma recoveryHandleFormSubmission_returns r f body :
  returns (recoveryHandleFormSubmission r f body).
Proof. unfold recoveryHandleFormSubmission. returns_auto. Qed.
#[export] Hint Resolve recoveryHandleFormSubmission_returns : returns.

Lemma dispatchOnState_returns r fl body : returns (dispatchOnState r fl body).
Proof. unfold dispatchOnState. returns_auto. Qed.
#[export] Hint Resolve dispatchOnState_returns : returns.

Lemma recoveryIssueSession_returns r f id : returns (recoveryIssueSession r f id).
Proof. unfold recoveryIssueSession. returns_auto. Qed.
#[export] Hint Resolve recoveryIssueSession_returns : returns.


(** A handler's calls are among those of the handler that calls it. *)
Ltac calls_sub :=
  eapply always_weaken; [| solve [eauto with always]];
  intros [[] ?]; unfold calls; simpl; intros; (reflexivity || discriminate).

Ltac calls_step :=
  match goal with
  | |- always _ (Ret _) => apply always_ret
  | |- always _ (Panic _) => apply always_panic
  | |- always ?P (call ?o) => apply (always_call P o); intros ?; reflexivity
  | |- always _ (bind _ _) => apply always_bind; [| intros ?]
  | |- always _ (match ?x with _ => _ end) => destruct x eqn:?
  | |- always _ _ => solve [eauto with always]
  | |- always _ _ => calls_sub
  end.

Ltac calls_auto := repeat calls_step.

(** The calls of each handler. *)

Lemma EnsureCSRF_calls r ft d actual :
  always (calls callsEnsureCSRF) (EnsureCSRF r ft d actual).
Proof. unfold EnsureCSRF. calls_auto. Qed.
#[export] Hint Resolve EnsureCSRF_calls : always.

Lemma MethodEnabledAndAllowed_calls n e a :
  always (calls callsGate) (MethodEnabledAndAllowed n e a).
Proof. unfold MethodEnabledAndAllowed. calls_auto. Qed.
#[export] Hint Resolve MethodEnabledAndAllowed_calls : always.

Lemma HandleRecoveryError_calls r fl body err :
  always (calls callsHandleError) (HandleRecoveryError r fl body err).
Proof. unfold HandleRecoveryError. calls_auto. Qed.
#[export] Hint Resolve HandleRecoveryError_calls : always.

Lemma HandleRecoveryErrorOn_calls r f body err :
  always (calls callsHandleError) (HandleRecoveryErrorOn r f body err).
Proof.
  unfold HandleRecoveryErrorOn. apply always_bind.
  - apply HandleRecoveryError_calls.
  - intros [g e]. apply always_ret.
Qed.
#[export] Hint Resolve HandleRecoveryErrorOn_calls : always.

Lemma redirectToNewFlow_calls r f :
  always (calls callsRetry) (redirectToNewFlow r f).
Proof. unfold redirectToNewFlow. calls_auto. Qed.
#[export] Hint Resolve redirectToNewFlow_calls : always.

Lemma retryRecoveryFlowWithMessage_calls r ft m :
  always (calls callsRetry) (retryRecoveryFlowWithMessage r ft m).
Proof. unfold retryRecoveryFlowWithMessage. calls_auto. Qed.
#[export] Hint Resolve retryRecoveryFlowWithMessage_calls : always.

Lemma retryRecoveryFlowWithError_calls r ft e :
  always (calls callsRetry) (retryRecoveryFlowWithError r ft e).
Proof. unfold retryRecoveryFlowWithError. calls_auto. Qed.
#[export] Hint Resolve retryRecoveryFlowWithError_calls : always.

Lemma retryWith_calls r f e : always (calls callsRetry) (retryWith r f e).
Proof. unfold retryWith. calls_auto. Qed.
#[export] Hint Resolve retryWith_calls : always.

Lemma recoveryHandleFormSubmission_calls r f body :
  always (calls callsFormSubmission) (recoveryHandleFormSubmission r f body).
Proof. unfold recoveryHandleFormSubmission. calls_auto. Qed.
#[export] Hint Resolve recoveryHandleFormSubmission_calls : always.

Lemma dispatchOnState_calls r fl body :
  always (calls callsDispatch) (dispatchOnState r fl body).
Proof. unfold dispatchOnState. calls_auto. Qed.
#[export] Hint Resolve dispatchOnState_calls : always.

Lemma findAddress_calls addrs ra : always (calls callsMark) (findAddress addrs ra).
Proof. unfold findAddress. calls_auto. Qed.
#[export] Hint Resolve findAddress_calls : always.

Lemma markRecoveryAddressVerified_calls r f id ra :
  always (calls callsMark) (markRecoveryAddressVerified r f id ra).
Proof. unfold markRecoveryAddressVerified. calls_auto. Qed.
#[export] Hint Resolve markRecoveryAddressVerified_calls : always.

Lemma recoveryIssueSession_calls r f id :
  always (calls callsIssueSession) (recoveryIssueSession r f id).
Proof. unfold recoveryIssueSession. calls_auto. Qed.
#[export] Hint Resolve recoveryIssueSession_calls : always.

Lemma recoveryUseCode_calls r body f :
  always (calls callsUseCode) (recoveryUseCode r body f).
Proof. unfold recoveryUseCode. calls_auto. Qed.
#[export] Hint Resolve recoveryUseCode_calls : always.

(** ** The paths of [Recover] *)

Lemma Recover_cases r f t res :
  behaves (Recover r f) t res ->
  (isCodeFlow f = false /\ t = [] /\ res = Some (f, Some ErrStrategyNotResponsible))
  \/ isCodeFlow f = true /\ exists d t1,
     t = (DecodeRecovery r, APayload d) :: t1 /\
     match d with
     | inl err => t1 = [] /\ res = Some (f, Some err)
     | inr body =>
       exists tc csrf t2,
       t1 = tc ++ t2 /\ behaves (csrfGate r f body) tc (Some csrf) /\
       match csrf with
       | Some err =>
           exists e,
           behaves (retryRecoveryFlowWithError r flow.TypeBrowser err) t2 (Some e)
           /\ res = Some (f, Some e)
       | None =>
         if submitsCode f body then
           exists tg gate t3,
           t2 = tg ++ t3 /\
           behaves (MethodEnabledAndAllowed flow.RecoveryFlow RecoveryStrategyID
                      RecoveryStrategyID) tg (Some gate) /\
           match gate with
           | Some err => t3 = [] /\ res = Some (resetFlow f, Some err)
           | None => behaves (recoveryUseCode r body (resetFlow f)) t3 res
           end
         else
           exists sess t3,
           t2 = (FetchFromRequest r, ASession sess) :: t3 /\
           match sess with
           | inr _ =>
               exists json,
               t3 = [(IsJSONRequest r, ABool json);
                     (if json
                      then RespondWithJSONErrorOnAuthenticated r ErrAlreadyLoggedIn
                      else RedirectOnAuthenticated r, AUnit)]
               /\ res = Some (resetFlow f, Some ErrCompletedByStrategy)
           | inl _ =>
             exists tg gate t4,
             t3 = tg ++ t4 /\
             behaves (MethodEnabledAndAllowed flow.RecoveryFlow RecoveryStrategyID
                        (Method body)) tg (Some gate) /\
             match gate with
             | Some err => t4 = [] /\ res = Some (resetFlow f, Some err)
             | None =>
               exists id fetched t5,
               t4 = (ParseUUID (Flow body), AUUID id)
                    :: (GetRecoveryFlow id, AFlow fetched) :: t5 /\
               match fetched with
               | inl err => t5 = [] /\ res = Some (resetFlow f, Some err)
               | inr fl =>
                 exists valid t6,
                 t5 = (FlowValid fl, AError valid) :: t6 /\
                 match valid with
                 | Some err =>
                     exists token,
                     t6 = [(GenerateCSRFToken r, AString token)]
                     /\ res = Some (resetFlow f, Some err)
                 | None =>
                     exists e,
                     behaves (dispatchOnState r fl body) t6 (Some e)
                     /\ res = Some (resetFlow f, e)
                 end
               end
             end
           end
       end
     end.
Proof.
  unfold Recover. intros H.
  destruct (isCodeFlow f) eqn:CF; cbn [negb] in H.
  2:{ left. destruct H as [-> ->]. auto. }
  right. split; [reflexivity|].
  cbn [bind call] in H. destruct H as (d & t1 & -> & H).
  exists d, t1. split; [reflexivity|].
  destruct d as [err | body]; [exact H|].
  fold (csrfGate r f body) in H. fold (resetFlow f) in H.
  apply behaves_bind_returns in H; [| apply csrfGate_returns].
  destruct H as (tc & csrf & t2 & -> & Hc & H).
  exists tc, csrf, t2. split; [reflexivity|]. split; [exact Hc|].
  destruct csrf as [err|].
  { apply behaves_bind_returns in H; [| apply retryRecoveryFlowWithError_returns].
    destruct H as (ta & e & tb & -> & He & [-> ->]).
    exists e. rewrite app_nil_r. auto. }
  cbv zeta in H.
  change (negb (String.eqb (recovery.State (resetFlow f)) flow.StateChooseMethod)
          && Nat.eqb (String.length (Email body)) 0) with (submitsCode f body) in H.
  destruct (submitsCode f body).
  { apply behaves_bind_returns in H; [| apply MethodEnabledAndAllowed_returns].
    destruct H as (tg & gate & t3 & -> & Hg & H).
    exists tg, gate, t3. split; [reflexivity|]. split; [exact Hg|].
    destruct gate; exact H. }
  cbn [bind call] in H. destruct H as (sess & t3 & -> & H).
  exists sess, t3. split; [reflexivity|].
  destruct sess as [serr | s].
  2:{ cbn [bind call] in H. destruct H as (json & t4 & -> & H).
      exists json. destruct json; cbn [bind call] in H;
        destruct H as ([] & t5 & -> & [-> ->]); auto. }
  apply behaves_bind_returns in H; [| apply MethodEnabledAndAllowed_returns].
  destruct H as (tg & gate & t4 & -> & Hg & H).
  exists tg, gate, t4. split; [reflexivity|]. split; [exact Hg|].
  destruct gate as [err|]; [exact H|].
  cbn [bind call] in H. destruct H as (id & t5 & -> & fetched & t6 & -> & H).
  exists id, fetched, t6. split; [reflexivity|].
  destruct fetched as [err | fl]; [exact H|].
  cbn [bind call] in H. destruct H as (valid & t7 & -> & H).
  exists valid, t7. split; [reflexivity|].
  destruct valid as [err|].
  { cbn [bind call HandleRecoveryError] in H.
    destruct H as (token & t8 & -> & [-> ->]). exists token. auto. }
  apply behaves_bind_returns in H; [| apply dispatchOnState_returns].
  destruct H as (ta & e & tb & -> & He & [-> ->]).
  exists e. rewrite app_nil_r. auto.
Qed.

(* ===================================================================== *)
(** ** Address or code *)

Lemma csrfGate_calls r f body : always (calls callsCsrfGate) (csrfGate r f body).
Proof. unfold csrfGate. calls_auto. Qed.
#[export] Hint Resolve csrfGate_calls : always.

(** From the calls a stretch of a run may make to a property of its events. *)
Lemma Forall_calls (Q : Op -> bool) (P : Event -> Prop) (l : Trace) :
  (forall o a, Q o = true -> P (o, a)) -> Forall (calls Q) l -> Forall P l.
Proof.
  intros HQ H. eapply Forall_impl; [exact H|]. intros [o a] Ho. apply HQ, Ho.
Qed.

Lemma In_calls (Q : Op -> bool) (l : Trace) o a :
  Forall (calls Q) l -> In (o, a) l -> Q o = true.
Proof.
  intros H Hin. rewrite Forall_forall in H.
  apply list_elem_of_In in Hin. exact (H _ Hin).
Qed.

Lemma length_zero s : Nat.eqb (String.length s) 0 = true <-> s = "".
Proof. destruct s; simpl; split; intros; congruence. Qed.

Lemma submitsCode_true f body :
  submitsCode f body = true <->
  recovery.State f <> flow.StateChooseMethod /\ Email body = "".
Proof.
  unfold submitsCode. rewrite andb_true_iff, negb_true_iff, length_zero.
  split; intros [H1 H2]; split; auto.
  - apply String.eqb_neq, H1.
  - apply String.eqb_neq, H1.
Qed.

(** Reading an [always] fact on a run at hand. *)
Lemma always_elim {A} (P : Event -> Prop) (p : Prog A) t r :
  behaves p t r -> always P p -> Forall P t.
Proof. intros H Hp. exact (Hp t r H). Qed.

Ltac seen L H :=
  let F := fresh "F" in
  pose proof H as F; eapply always_elim in F; [| apply L].

(** Only [recoveryUseCode] asks the code store, once, for the submitted code. *)
Lemma recoveryUseCode_uses r body f :
  always (usesOnly f body) (recoveryUseCode r body f).
Proof.
  unfold recoveryUseCode. apply always_vis; [intros x; unfold usesOnly; simpl; auto|].
  intros c.
  assert (W : forall (Q : Op -> bool) (p : Prog (recovery.Flow * option Err)),
             (forall o, Q o = true -> isUseRecoveryCode o = false) ->
             always (calls Q) p -> always (usesOnly f body) p).
  { intros Q p HQ Hp. eapply always_weaken; [|exact Hp].
    intros [o a] Ho. specialize (HQ o Ho). unfold usesOnly.
    destruct o; simpl in *; auto; discriminate. }
  destruct c as [[] | code];
    try (apply (W callsRetry); [intros []; simpl; congruence | apply retryWith_calls]).
  - apply always_vis; [intros x; exact I|]. intros [e|].
    + apply (W callsRetry); [intros []; simpl; congruence | apply retryWith_calls].
    + apply always_ret.
  - apply always_vis; [intros x; exact I|]. intros [e | recovered].
    + apply (W callsHandleError); [intros []; simpl; congruence
                                   | apply HandleRecoveryErrorOn_calls].
    + apply always_bind.
      * destruct (CodeType code); [apply always_ret|].
        eapply always_weaken; [|apply markRecoveryAddressVerified_calls].
        intros [[] ?] Ho; unfold usesOnly; simpl in *; auto; discriminate.
      * intros [g [e|]].
        -- apply (W callsHandleError); [intros []; simpl; congruence
                                        | apply HandleRecoveryErrorOn_calls].
        -- apply (W callsIssueSession); [intros []; simpl; congruence
                                         | apply recoveryIssueSession_calls].
Qed.

(** Taking a run apart, event by event and stretch by stretch. *)
Ltac in_trace H :=
  repeat match type of H with
  | In _ (_ :: _) => destruct H as [H|H]; [try discriminate H|]
  | In _ (_ ++ _) => apply in_app_or in H; destruct H as [H|H]
  | In _ [] => destruct H
  end;
  try (eapply In_calls in H; [|eassumption]; discriminate H).

Ltac forall_trace :=
  repeat first
    [ apply Forall_nil
    | reflexivity
    | apply Forall_cons_2
    | apply Forall_app_2
    | eapply Forall_calls; [|eassumption];
      let o := fresh in intros o ?; destruct o; simpl; intros; discriminate || reflexivity || exact I ].


Lemma step1_run :
  run Mem.impl (Recover Sample.emailRequest Sample.F1) Sample.w0 = Sample.step1.
Proof. vm_compute. reflexivity. Qed.


(* ===================================================================== *)
(** ** The anti-forgery gate of [Recover] *)

Lemma stepRejected_run :
  run Mem.impl (Recover Sample.forgedRequest Sample.F1sent) Sample.w1
  = Sample.stepRejected.
Proof. vm_compute. reflexivity. Qed.

Lemma stepForged_run :
  run Mem.impl (Recover Sample.forgedRequest Sample.F1skip) Sample.w1skip
  = Sample.stepForged.
Proof. vm_compute. reflexivity. Qed.

(** C7, as amended.  A submission to a flow that is not of type API and was
    not created with [DangerousSkipCSRFCheck], whose token is refused by
    every verification against the generated token, is rejected at the gate:
    the run is the decoding, the gate (which reads the enforcement setting,
    generates the token, verifies, asks for the reason) and then the retry
    with a new browser flow.  No call of the run changes a stored flow, code,
    identity or session, and the flow handed in comes back as it was. *)
Theorem Recover_csrf_rejected r f t res body :
  behaves (Recover r f) t res ->
  startsWith t (DecodeRecovery r, APayload (inr body)) ->
  recovery.DangerousSkipCSRFCheck f = false ->
  recovery.Type_ f <> flow.TypeAPI ->
  (forall token, ~ In (VerifyToken token (CSRFToken body), ABool true) t) ->
  exists disable token reason tr e,
    t = [(DecodeRecovery r, APayload (inr body));
         (DisableAPIFlowEnforcement, ABool disable);
         (GenerateCSRFToken r, AString token);
         (VerifyToken token (CSRFToken body), ABool false);
         (CSRFErrorReason r, AErr reason)] ++ tr
    /\ behaves (retryRecoveryFlowWithError r flow.TypeBrowser reason) tr (Some e)
    /\ res = Some (f, Some e)
    /\ Forall (callsNo mutates) t.
Proof.
  intros H S Skip Ty Bad. apply Recover_cases in H.
  destruct H as [(_ & -> & _) | (_ & d & t1 & -> & H)]; [discriminate S|].
  injection S as ->.
  destruct H as (tc & csrf & t2 & -> & Hc & H).
  unfold csrfGate in Hc. rewrite Skip in Hc.
  cbn [bind call] in Hc. destruct Hc as (disable & tc' & -> & Hc).
  unfold EnsureCSRF in Hc. apply String.eqb_neq in Ty. rewrite Ty in Hc.
  cbn [bind call] in Hc.
  destruct Hc as (token & tc2 & -> & ok & tc3 & -> & Hc).
  destruct ok.
  { exfalso. apply (Bad token). cbn. do 3 right. left. reflexivity. }
  cbn [bind call negb] in Hc. destruct Hc as (reason & tc4 & -> & [-> [= ->]]).
  destruct H as (e & He & ->).
  exists disable, token, reason, t2, e.
  split; [reflexivity|]. split; [exact He|]. split; [reflexivity|].
  seen retryRecoveryFlowWithError_calls He.
  unfold callsNo. cbn. forall_trace.
Qed.

(** In the scenario, the code submitted to the flow in state EmailSent with a
    token the browser was never given. *)
Lemma Recover_csrf_rejected_witness :
  behaves (Recover Sample.forgedRequest Sample.F1sent)
    (snd Sample.stepRejected) (fst (fst Sample.stepRejected))
  /\ startsWith (snd Sample.stepRejected)
       (DecodeRecovery Sample.forgedRequest, APayload (inr (Form Sample.forgedRequest)))
  /\ recovery.DangerousSkipCSRFCheck Sample.F1sent = false
  /\ recovery.Type_ Sample.F1sent <> flow.TypeAPI
  /\ (forall token,
        ~ In (VerifyToken token (CSRFToken (Form Sample.forgedRequest)), ABool true)
            (snd Sample.stepRejected))
  /\ Forall (callsNo mutates) (snd Sample.stepRejected).
Proof.
  assert (H : behaves (Recover Sample.forgedRequest Sample.F1sent)
                (snd Sample.stepRejected) (fst (fst Sample.stepRejected)))
    by exact (run_behaves_eq _ _ _ _ stepRejected_run).
  assert (S : startsWith (snd Sample.stepRejected)
       (DecodeRecovery Sample.forgedRequest, APayload (inr (Form Sample.forgedRequest))))
    by reflexivity.
  assert (K : recovery.DangerousSkipCSRFCheck Sample.F1sent = false) by reflexivity.
  assert (T : recovery.Type_ Sample.F1sent <> flow.TypeAPI) by discriminate.
  assert (B : forall token,
        ~ In (VerifyToken token (CSRFToken (Form Sample.forgedRequest)), ABool true)
            (snd Sample.stepRejected)).
  { intros token Hin. cbn in Hin.
    repeat (destruct Hin as [Hin|Hin]; [discriminate Hin|]). exact Hin. }
  repeat (split; [assumption|]).
  destruct (Recover_csrf_rejected _ _ _ _ _ H S K T B)
    as (? & ? & ? & ? & ? & _ & _ & _ & F).
  exact F.
Defined.

(** C7, as stated, fails: a browser flow created with
    [DangerousSkipCSRFCheck] takes the code although the token submitted is
    not the generated one; the stored flow goes from EmailSent to
    PassedChallenge and no new flow is made. *)
Lemma Recover_csrf_skipped :
  recovery.Type_ Sample.F1skip = flow.TypeBrowser
  /\ Mem.flows Sample.w1skip !! 1%N = Some Sample.F1skip
  /\ recovery.State Sample.F1skip = flow.StateEmailSent
  /\ fst (Mem.impl (GenerateCSRFToken Sample.forgedRequest) Sample.w1skip) = "tok"
  /\ fst (Mem.impl (VerifyToken "tok" (CSRFToken (Form Sample.forgedRequest)))
            Sample.w1skip) = false
  /\ run Mem.impl (Recover Sample.forgedRequest Sample.F1skip) Sample.w1skip
     = Sample.stepForged
  /\ recovery.State (Sample.stored (Sample.world Sample.stepForged))
     = flow.StatePassedChallenge
  /\ Forall (callsNo isNewFlow) (snd Sample.stepForged).
Proof.
  split; [reflexivity|]. split; [vm_compute; reflexivity|].
  split; [reflexivity|]. split; [reflexivity|]. split; [reflexivity|].
  split; [exact stepForged_run|]. split; [vm_compute; reflexivity|].
  unfold callsNo. cbn. repeat constructor.
Qed.

(* ===================================================================== *)
(** ** Handlers keep to the flow they hold *)

Lemma spec_ret {A} P (R : A -> Prop) a : R a -> spec P R (Ret a).
Proof. intros HR t r [-> ->]. split; [constructor | intros ? [= <-]; exact HR]. Qed.

Lemma spec_panic {A} P (R : A -> Prop) m : spec P R (Panic m).
Proof. intros t r [-> ->]. split; [constructor | discriminate]. Qed.

Lemma spec_vis {A} P (R : A -> Prop) o (k : result o -> Prog A) :
  (forall x, P (o, answer o x)) -> (forall x, spec P R (k x)) ->
  spec P R (Vis o k).
Proof.
  intros HP Hk t r (x & t' & -> & H). destruct (Hk x t' r H) as [F HR].
  split; [constructor; [apply HP | exact F] | exact HR].
Qed.

Lemma spec_bind {A B} P (R1 : A -> Prop) (R : B -> Prop) (p : Prog A)
    (k : A -> Prog B) :
  spec P R1 p -> (forall a, R1 a -> spec P R (k a)) -> spec P R (bind p k).
Proof.
  intros Hp Hk t r H. apply behaves_bind_inv in H.
  destruct H as [(t1 & a & t2 & -> & H1 & H2) | [H1 ->]].
  - destruct (Hp _ _ H1) as [F1 HR1].
    destruct (Hk a (HR1 a eq_refl) _ _ H2) as [F2 HR].
    split; [apply Forall_app; auto | exact HR].
  - destruct (Hp _ _ H1) as [F1 _]. split; [exact F1 | discriminate].
Qed.

Lemma spec_always {A} P (R : A -> Prop) (p : Prog A) :
  always P p -> (forall t a, behaves p t (Some a) -> R a) -> spec P R p.
Proof.
  intros Hp HR t r H. split; [exact (Hp t r H)|].
  intros a ->. exact (HR t a H).
Qed.

Lemma spec_events {A} P (R : A -> Prop) (p : Prog A) : spec P R p -> always P p.
Proof. intros Hp t r H. exact (proj1 (Hp t r H)). Qed.

Lemma spec_result {A} P (R : A -> Prop) (p : Prog A) t a :
  spec P R p -> behaves p t (Some a) -> R a.
Proof. intros Hp H. exact (proj2 (Hp t _ H) a eq_refl). Qed.

(** The calls of a handler that never names a flow concern every flow. *)
Lemma calls_about (Q : Op -> bool) id ty allowed {A} (p : Prog A) :
  (forall o, Q o = true ->
     match o with
     | NewFlow _ _ _ _ | UseRecoveryCode _ _ | DeleteRecoveryCodesOfFlow _
     | SendRecoveryCode _ _ _ | UpdateRecoveryFlow _ => False
     | _ => True
     end) ->
  always (calls Q) p -> always (about id ty allowed) p.
Proof.
  intros HQ Hp. eapply always_weaken; [|exact Hp].
  intros [o a] Ho. specialize (HQ o Ho). unfold about.
  destruct o; simpl in *; auto; contradiction.
Qed.

Section About.

Variables (id : UUID) (ty : flow.FlowType) (allowed : flow.State -> Prop).

Let P := about id ty allowed.
Let R := returnsAbout id ty allowed.

Lemma redirectToNewFlow_about r f : always P (redirectToNewFlow r f).
Proof.
  unfold redirectToNewFlow. apply always_vis; [intros x; exact I|].
  intros [|]; (apply always_vis; [intros x; exact I|]; intros base;
               apply always_vis; [intros x; exact I | intros x; apply always_ret]).
Qed.

Lemma HandleRecoveryErrorOn_about r f body err :
  tracks id ty allowed f -> spec P R (HandleRecoveryErrorOn r f body err).
Proof.
  intros T. unfold HandleRecoveryErrorOn, HandleRecoveryError.
  cbn [bind call]. apply spec_vis; [intros x; exact I|]. intros x.
  apply spec_ret. exact T.
Qed.

Lemma retryRecoveryFlowWithMessage_about r m :
  always P (retryRecoveryFlowWithMessage r ty m).
Proof.
  unfold retryRecoveryFlowWithMessage.
  apply always_vis; [intros x; exact I|]. intros lifespan.
  apply always_vis; [intros x; exact I|]. intros token.
  apply always_vis; [intros x; exact eq_refl|]. intros [err | g].
  - apply always_ret.
  - apply always_vis; [intros x; exact I|]. intros [err|].
    + apply always_ret.
    + apply always_bind; [| intros; apply always_ret].
      apply redirectToNewFlow_about.
Qed.

Lemma retryRecoveryFlowWithError_about r e :
  always P (retryRecoveryFlowWithError r ty e).
Proof.
  assert (G : always P
    (let* lifespan := call SelfServiceFlowRecoveryRequestLifespan in
     let* token := call (RegenerateToken r) in
     let* nf := call (NewFlow lifespan token r ty) in
     match nf with
     | inl err => Ret err
     | inr f =>
         let* p := call (ParseError (recovery.UI f) node.CodeGroup e) in
         match p with
         | inl err => Ret err
         | inr ui =>
             let f := recovery.withUI f ui in
             let* c := call (CreateRecoveryFlow f) in
             match c with
             | Some err => Ret err
             | None => let* _ := redirectToNewFlow r f in Ret ErrCompletedByStrategy
             end
         end
     end)).
  { apply always_vis; [intros x; exact I|]. intros lifespan.
    apply always_vis; [intros x; exact I|]. intros token.
    apply always_vis; [intros x; exact eq_refl|]. intros [err | g].
    - apply always_ret.
    - apply always_vis; [intros x; exact I|]. intros [err | ui].
      + apply always_ret.
      + apply always_vis; [intros x; exact I|]. intros [err|].
        * apply always_ret.
        * apply always_bind; [| intros; apply always_ret].
          apply redirectToNewFlow_about. }
  unfold retryRecoveryFlowWithError.
  destruct e; try exact G. apply retryRecoveryFlowWithMessage_about.
Qed.

Lemma retryWith_about r f e :
  tracks id ty allowed f -> spec P R (retryWith r f e).
Proof.
  intros T. unfold retryWith.
  eapply spec_bind with (R1 := fun _ => True).
  - apply spec_always; [| auto]. rewrite (proj1 (proj2 T)).
    apply retryRecoveryFlowWithError_about.
  - intros a _. apply spec_ret. exact T.
Qed.

Lemma markRecoveryAddressVerified_about r f i ra :
  tracks id ty allowed f -> spec P R (markRecoveryAddressVerified r f i ra).
Proof.
  intros T. unfold markRecoveryAddressVerified.
  eapply spec_bind with (R1 := fun _ => True).
  - apply spec_always; [| auto]. eapply calls_about; [| apply findAddress_calls].
    intros [] Hq; simpl in *; auto; discriminate Hq.
  - intros [va|] _; [| apply spec_ret; exact T].
    destruct (negb (identity.va_Verified va)); [| apply spec_ret; exact T].
    cbn [bind call]. apply spec_vis; [intros x; exact I|]. intros now.
    apply spec_vis; [intros x; exact I|]. intros [err|].
    + apply HandleRecoveryErrorOn_about, T.
    + apply spec_ret, T.
Qed.

(** One step of a syntax-directed proof of [spec]. *)
Ltac about_fact :=
  unfold P, R, returnsAbout, about, tracks in *; simpl in *;
  first [exact I | tauto | intuition congruence].

Ltac about_step :=
  lazymatch goal with
  | |- spec _ _ (Ret _) => apply spec_ret; about_fact
  | |- spec _ _ (Panic _) => apply spec_panic
  | |- spec ?P' ?R' (Vis ?o ?k) =>
      apply (spec_vis P' R' o k); [intros ?; about_fact | intros ?]
  | |- spec _ _ (retryWith _ _ _) => apply retryWith_about; about_fact
  | |- spec _ _ (HandleRecoveryErrorOn _ _ _ _) =>
      apply HandleRecoveryErrorOn_about; about_fact
  | |- spec _ _ (match ?x with _ => _ end) => destruct x eqn:?
  | |- spec _ _ (bind (match ?x with _ => _ end) _) => destruct x eqn:?
  | |- spec _ _ (bind _ _) => progress cbn [bind call]
  end.

Lemma recoveryIssueSession_about r f i :
  recovery.ID f = id -> recovery.Type_ f = ty ->
  allowed flow.StatePassedChallenge ->
  spec P R (recoveryIssueSession r f i).
Proof.
  intros Hid Hty Hpc. unfold recoveryIssueSession.
  repeat about_step.
Qed.

Ltac about_step' :=
  lazymatch goal with
  | |- spec _ _ (bind (markRecoveryAddressVerified _ _ _ _) _) =>
      eapply spec_bind;
      [apply markRecoveryAddressVerified_about; about_fact | intros [? [?|]] ?]
  | |- spec _ _ (bind (EnsureCSRF _ _ _ _) _) =>
      eapply spec_bind with (R1 := fun _ => True);
      [apply spec_always; [| auto];
       eapply calls_about; [| apply EnsureCSRF_calls];
       (let Hq := fresh in intros [] Hq; simpl in *; auto; discriminate Hq)
      | intros ? _]
  | |- spec _ _ (recoveryIssueSession _ _ _) =>
      apply recoveryIssueSession_about; about_fact
  | |- _ => about_step
  end.

Lemma recoveryUseCode_about r body f :
  tracks id ty allowed f -> allowed flow.StatePassedChallenge ->
  spec P R (recoveryUseCode r body f).
Proof.
  intros T Hpc. unfold recoveryUseCode. repeat about_step'.
Qed.

Lemma recoveryHandleFormSubmission_about r f body :
  tracks id ty allowed f -> allowed flow.StateEmailSent ->
  spec P R (recoveryHandleFormSubmission r f body).
Proof.
  intros T Hes. unfold recoveryHandleFormSubmission. repeat about_step'.
Qed.

End About.

Lemma dispatchOnState_about r fl body :
  always (about (recovery.ID fl) (recovery.Type_ fl)
            (fun s => s = recovery.State fl \/ s = flow.StateEmailSent))
    (dispatchOnState r fl body).
Proof.
  unfold dispatchOnState.
  destruct (String.eqb (recovery.State fl) flow.StateChooseMethod
            || String.eqb (recovery.State fl) flow.StateEmailSent).
  - apply always_bind; [| intros [g e]; apply always_ret].
    eapply spec_events. apply recoveryHandleFormSubmission_about.
    + unfold tracks. auto.
    + auto.
  - destruct (String.eqb (recovery.State fl) flow.StatePassedChallenge);
      (apply always_bind; [| intros; apply always_ret]);
      apply retryRecoveryFlowWithMessage_about.
Qed.


(* ===================================================================== *)
(** ** Retrying with a new flow *)

Lemma retried_run :
  run Mem.impl
    (retryRecoveryFlowWithError Sample.forgedRequest flow.TypeBrowser
       (ExpiredError 5%Z)) Sample.w1
  = Sample.retried.
Proof. vm_compute. reflexivity. Qed.

Lemma stepOrigin_run :
  run Mem.impl (Recover Sample.originRequest Sample.F1api) Sample.w0api
  = Sample.stepOrigin.
Proof. vm_compute. reflexivity. Qed.

Lemma redirectToNewFlow_redirects r g t :
  behaves (redirectToNewFlow r g) t (Some tt) -> redirectsTo r g t.
Proof.
  unfold redirectToNewFlow. cbn [bind call]. intros (json & t1 & -> & H).
  exists json. destruct json; cbn [bind call] in H;
    destruct H as (base & t2 & -> & [] & t3 & -> & [-> _]);
    exists base; reflexivity.
Qed.

Lemma persistsNew_intro r g t e :
  behaves
    (let* c := call (CreateRecoveryFlow g) in
     match c with
     | Some err => Ret err
     | None => let* _ := redirectToNewFlow r g in Ret ErrCompletedByStrategy
     end) t (Some e) ->
  persistsNew r g t e.
Proof.
  cbn [bind call]. intros (u & rest & -> & H). exists u, rest.
  split; [reflexivity|]. destruct u as [err|].
  - destruct H as [-> [= ->]]. auto.
  - apply behaves_bind_returns in H; [| apply redirectToNewFlow_returns].
    destruct H as (t1 & [] & t2 & -> & H1 & [-> [= ->]]).
    rewrite app_nil_r. split; [apply redirectToNewFlow_redirects, H1 | reflexivity].
Qed.

Lemma retryRecoveryFlowWithMessage_shape r ft m t e :
  behaves (retryRecoveryFlowWithMessage r ft m) t (Some e) ->
  startsNew r ft t e
    (fun g rest =>
       persistsNew r (recovery.withUI g (container.MessagesAdd (recovery.UI g) m))
         rest e).
Proof.
  unfold retryRecoveryFlowWithMessage. cbn [bind call].
  intros (lifespan & t1 & -> & token & t2 & -> & nf & t3 & -> & H).
  exists lifespan, token, nf, t3. split; [reflexivity|].
  destruct nf as [err | g].
  - destruct H as [-> [= ->]]. auto.
  - apply persistsNew_intro, H.
Qed.

Lemma about_newFlows (Q : flow.FlowType -> Prop) id ty allowed (l : Trace) :
  Q ty -> Forall (about id ty allowed) l -> Forall (newFlowsOnly Q) l.
Proof.
  intros HQ H. eapply Forall_impl; [exact H|].
  intros [o a]. unfold about, newFlowsOnly. destruct o; simpl; auto.
  intros ->. exact HQ.
Qed.

Lemma calls_newFlows (Q : flow.FlowType -> Prop) (C : Op -> bool) (l : Trace) :
  (forall o, C o = true -> isNewFlow o = false) ->
  Forall (calls C) l -> Forall (newFlowsOnly Q) l.
Proof.
  intros HC H. eapply Forall_impl; [exact H|].
  intros [o a] Ho. specialize (HC o Ho). unfold newFlowsOnly.
  destruct o; simpl in *; auto; discriminate.
Qed.




(* ===================================================================== *)
(** ** The state of a flow only advances *)

Lemma step2_run :
  run Mem.impl (Recover Sample.codeRequest Sample.F1sent) Sample.w1 = Sample.step2.
Proof. vm_compute. reflexivity. Qed.

Lemma step3_run :
  run Mem.impl (Recover Sample.codeAgainRequest Sample.F1passed) Sample.w2
  = Sample.step3.
Proof. vm_compute. reflexivity. Qed.

Lemma advance_rank s s' : advance s s' -> rank s <= rank s'.
Proof.
  intros [s0 | | s0 N]; unfold rank.
  - lia.
  - simpl. lia.
  - simpl. destruct (String.eqb s0 flow.StatePassedChallenge); [lia|].
    destruct (String.eqb s0 flow.StateEmailSent); lia.
Qed.

Lemma about_updates (Q : recovery.Flow -> Prop) id ty allowed (l : Trace) :
  (forall g, tracks id ty allowed g -> Q g) ->
  Forall (about id ty allowed) l -> Forall (updatesOnly Q) l.
Proof.
  intros HQ H. eapply Forall_impl; [exact H|].
  intros [o a]. unfold about, updatesOnly. destruct o; simpl; auto.
Qed.

Lemma calls_updates (Q : recovery.Flow -> Prop) (C : Op -> bool) (l : Trace) :
  (forall o, C o = true -> mutates o = false) ->
  Forall (calls C) l -> Forall (updatesOnly Q) l.
Proof.
  intros HC H. eapply Forall_impl; [exact H|].
  intros [o a] Ho. specialize (HC o Ho). unfold updatesOnly.
  destruct o; simpl in *; auto; discriminate.
Qed.

Lemma calls_no (C D : Op -> bool) (l : Trace) :
  (forall o, C o = true -> D o = false) ->
  Forall (calls C) l -> Forall (callsNo D) l.
Proof.
  intros HC H. eapply Forall_impl; [exact H|]. intros [o a] Ho. exact (HC o Ho).
Qed.

Lemma recoveryUseCode_advances r body f :
  recovery.State f <> flow.StateChooseMethod ->
  spec (updatesOnly (advancesFrom f))
    (fun x => recovery.ID (fst x) = recovery.ID f
              /\ advance (recovery.State f) (recovery.State (fst x)))
    (recoveryUseCode r body f).
Proof.
  intros N t res H.
  assert (K : forall g,
    tracks (recovery.ID f) (recovery.Type_ f)
      (fun s => s = recovery.State f \/ s = flow.StatePassedChallenge) g ->
    advancesFrom f g).
  { intros g (Hid & _ & Hs). split; [exact Hid|].
    destruct Hs as [Hs | Hs]; rewrite Hs; constructor. exact N. }
  destruct (recoveryUseCode_about (recovery.ID f) (recovery.Type_ f)
              (fun s => s = recovery.State f \/ s = flow.StatePassedChallenge)
              r body f) with (t := t) (r := res) as [F HR]; auto.
  { unfold tracks. auto. }
  split.
  - eapply about_updates; [exact K | exact F].
  - intros a ->. exact (K _ (HR a eq_refl)).
Qed.

Lemma dispatchOnState_advances r fl body :
  always (updatesOnly (advancesFrom fl)) (dispatchOnState r fl body).
Proof.
  intros t res H. unfold dispatchOnState in H.
  destruct (String.eqb (recovery.State fl) flow.StateChooseMethod
            || String.eqb (recovery.State fl) flow.StateEmailSent) eqn:B.
  - apply behaves_bind_returns in H; [| apply recoveryHandleFormSubmission_returns].
    destruct H as (t1 & [g e] & t2 & -> & H1 & [-> _]). rewrite app_nil_r.
    assert (T : tracks (recovery.ID fl) (recovery.Type_ fl)
                  (fun s => s = recovery.State fl \/ s = flow.StateEmailSent) fl)
      by (unfold tracks; auto).
    eapply about_updates;
      [| exact (proj1 (recoveryHandleFormSubmission_about (recovery.ID fl)
                  (recovery.Type_ fl)
                  (fun s => s = recovery.State fl \/ s = flow.StateEmailSent)
                  r fl body T (or_intror eq_refl) _ _ H1))].
    intros g' (Hid & _ & Hs). split; [exact Hid|].
    destruct Hs as [Hs | Hs]; rewrite Hs; [constructor|]. apply orb_true_iff in B.
    destruct B as [B | B]; apply String.eqb_eq in B; rewrite B; constructor.
  - eapply calls_updates with (C := callsRetry).
    { intros [] Hq; simpl in *; auto; discriminate Hq. }
    destruct (String.eqb (recovery.State fl) flow.StatePassedChallenge);
      apply behaves_bind_returns in H;
      try apply retryRecoveryFlowWithMessage_returns;
      destruct H as (t1 & e & t2 & -> & H1 & [-> _]); rewrite app_nil_r;
      exact (retryRecoveryFlowWithMessage_calls _ _ _ _ _ H1).
Qed.

(** C2, as amended.  In every run of [Recover]: the flow handed back keeps
    its identifier and its state either stays or goes to PassedChallenge from
    a state other than ChooseMethod; every flow handed to
    [UpdateRecoveryFlow] is the flow held or the flow fetched, its state
    reached by one step of ChooseMethod -> EmailSent -> PassedChallenge or
    by none; and a submission that gets as far as a valid fetched flow in
    state PassedChallenge (a submission with an address) changes nothing
    that is stored and ends in a retry with the message "retry success" and
    a new flow of the fetched flow's type. *)
Theorem Recover_state_advances r f t res :
  behaves (Recover r f) t res ->
  (forall g e, res = Some (g, e) ->
     recovery.ID g = recovery.ID f
     /\ advance (recovery.State f) (recovery.State g))
  /\ Forall (updatesOnly
               (fun g => advancesFrom f g
                         \/ exists id fl,
                              In (GetRecoveryFlow id, AFlow (inr fl)) t
                              /\ advancesFrom fl g)) t
  /\ (forall fl, In (FlowValid fl, AError None) t ->
        recovery.State fl = flow.StatePassedChallenge ->
        Forall (callsNo mutates) t
        /\ exists pre post e,
             t = pre ++ post
             /\ behaves (retryRecoveryFlowWithMessage r (recovery.Type_ fl)
                           text.NewErrorValidationRecoveryRetrySuccess)
                  post (Some e)
             /\ res = Some (resetFlow f, Some e)).
Proof.
  intros H. apply Recover_cases in H.
  destruct H as [(_ & -> & ->) | (_ & d & t1 & -> & H)].
  { split; [intros g e [= <- <-]; split; [reflexivity | constructor]|].
    split; [constructor | intros fl []]. }
  destruct d as [err | body].
  { destruct H as [-> ->].
    split; [intros g e [= <- <-]; split; [reflexivity | constructor]|].
    split; [repeat constructor | intros fl Hin; in_trace Hin]. }
  destruct H as (tc & csrf & t2 & -> & Hc & H).
  seen csrfGate_calls Hc.
  assert (NoMut : forall o, callsCsrfGate o = true -> mutates o = false)
    by (intros [] Hq; simpl in *; auto; discriminate Hq).
  assert (NoMutG : forall o, callsGate o = true -> mutates o = false)
    by (intros [] Hq; simpl in *; auto; discriminate Hq).
  assert (NoMutR : forall o, callsRetry o = true -> mutates o = false)
    by (intros [] Hq; simpl in *; auto; discriminate Hq).
  destruct csrf as [err|].
  { destruct H as (e & He & ->). seen retryRecoveryFlowWithError_calls He.
    split; [intros g e' [= <- <-]; split; [reflexivity | constructor]|].
    split; [| intros fl Hin; in_trace Hin].
    apply Forall_cons_2; [exact I|]. apply Forall_app_2.
    - eapply calls_updates; [exact NoMut | assumption].
    - eapply calls_updates; [exact NoMutR | assumption]. }
  destruct (submitsCode f body) eqn:SC.
  { apply submitsCode_true in SC. destruct SC as [St Em].
    destruct H as (tg & gate & t3 & -> & Hg & H).
    seen MethodEnabledAndAllowed_calls Hg.
    destruct gate as [err|].
    - destruct H as [-> ->].
      split; [intros g e [= <- <-]; split; [reflexivity | constructor]|].
      split; [| intros fl Hin; in_trace Hin].
      apply Forall_cons_2; [exact I|]. apply Forall_app_2.
      + eapply calls_updates; [exact NoMut | assumption].
      + rewrite app_nil_r. eapply calls_updates; [exact NoMutG | assumption].
    - seen recoveryUseCode_calls H.
      destruct (recoveryUseCode_advances r body (resetFlow f) St _ _ H) as [FU HR].
      split; [intros g e ->; exact (HR _ eq_refl)|].
      split; [| intros fl Hin; in_trace Hin].
      apply Forall_cons_2; [exact I|]. apply Forall_app_2.
      + eapply calls_updates; [exact NoMut | assumption].
      + apply Forall_app_2.
        * eapply calls_updates; [exact NoMutG | assumption].
        * eapply Forall_impl; [exact FU|]. intros [o a]. unfold updatesOnly.
          destruct o; simpl; auto. }
  destruct H as (sess & t3 & -> & H).
  destruct sess as [serr | s].
  2:{ destruct H as (json & -> & ->).
      split; [intros g e [= <- <-]; split; [reflexivity | constructor]|].
      split; [| intros fl Hin; in_trace Hin; destruct json; discriminate].
      apply Forall_cons_2; [exact I|]. apply Forall_app_2.
      - eapply calls_updates; [exact NoMut | assumption].
      - repeat constructor. destruct json; exact I. }
  destruct H as (tg & gate & t4 & -> & Hg & H).
  seen MethodEnabledAndAllowed_calls Hg.
  assert (Pre : forall Q l,
    Forall (updatesOnly Q) l ->
    Forall (updatesOnly Q)
      ((DecodeRecovery r, APayload (inr body))
       :: tc ++ (FetchFromRequest r, ASession (inl serr)) :: tg ++ l)).
  { intros Q l Hl. apply Forall_cons_2; [exact I|]. apply Forall_app_2.
    - eapply calls_updates; [exact NoMut | assumption].
    - apply Forall_cons_2; [exact I|]. apply Forall_app_2; [| exact Hl].
      eapply calls_updates; [exact NoMutG | assumption]. }
  destruct gate as [err|].
  { destruct H as [-> ->].
    split; [intros g e [= <- <-]; split; [reflexivity | constructor]|].
    split; [apply Pre; constructor | intros fl Hin; in_trace Hin]. }
  destruct H as (id & fetched & t5 & -> & H).
  destruct fetched as [err | fl0].
  { destruct H as [-> ->].
    split; [intros g e [= <- <-]; split; [reflexivity | constructor]|].
    split; [apply Pre; repeat constructor | intros fl Hin; in_trace Hin]. }
  destruct H as (valid & t6 & -> & H).
  destruct valid as [err|].
  { destruct H as (token & -> & ->).
    split; [intros g e [= <- <-]; split; [reflexivity | constructor]|].
    split; [apply Pre; repeat constructor | intros fl Hin; in_trace Hin]. }
  destruct H as (e & He & ->). seen dispatchOnState_calls He.
  split; [intros g e' [= <- <-]; split; [reflexivity | constructor]|].
  split.
  { apply Pre. do 3 (apply Forall_cons_2; [exact I|]).
    eapply Forall_impl; [exact (dispatchOnState_advances r fl0 body _ _ He)|].
    intros [o a]. unfold updatesOnly. destruct o; simpl; auto.
    intros Ha. right. exists id, fl0. split; [| exact Ha].
    apply in_cons. apply in_or_app. right. apply in_cons.
    apply in_or_app. right. right. left. reflexivity. }
  intros fl Hin St. in_trace Hin. injection Hin as <-.
  unfold dispatchOnState in He.
  assert (B : String.eqb (recovery.State fl0) flow.StateChooseMethod
              || String.eqb (recovery.State fl0) flow.StateEmailSent = false).
  { rewrite St. reflexivity. }
  rewrite B in He. rewrite St in He. cbn [String.eqb] in He.
  change (String.eqb flow.StatePassedChallenge flow.StatePassedChallenge)
    with true in He. cbv iota in He.
  apply behaves_bind_returns in He; [| apply retryRecoveryFlowWithMessage_returns].
  destruct He as (post & e' & tb & -> & Hp & [-> [= ->]]).
  rewrite app_nil_r.
  seen retryRecoveryFlowWithMessage_calls Hp.
  split.
  - apply Forall_cons_2; [reflexivity|]. apply Forall_app_2.
    { eapply calls_no; [exact NoMut | assumption]. }
    apply Forall_cons_2; [reflexivity|]. apply Forall_app_2.
    { eapply calls_no; [exact NoMutG | assumption]. }
    do 3 (apply Forall_cons_2; [reflexivity|]).
    eapply calls_no; [exact NoMutR | assumption].
  - exists ((DecodeRecovery r, APayload (inr body)) :: tc
          ++ (FetchFromRequest r, ASession (inl serr)) :: tg
          ++ [(ParseUUID (Flow body), AUUID id);
              (GetRecoveryFlow id, AFlow (inr fl0));
              (FlowValid fl0, AError None)]), post, e'.
    split; [| split; [exact Hp | reflexivity]].
    cbn. repeat (rewrite <- app_assoc; cbn). reflexivity.
Qed.

(** In the scenario, the code accepted: the flow goes from EmailSent to
    PassedChallenge. *)
Lemma Recover_state_advances_witness :
  behaves (Recover Sample.codeRequest Sample.F1sent)
    (snd Sample.step2) (fst (fst Sample.step2))
  /\ (forall g e, fst (fst Sample.step2) = Some (g, e) ->
        recovery.ID g = recovery.ID Sample.F1sent
        /\ advance (recovery.State Sample.F1sent) (recovery.State g))
  /\ recovery.State Sample.F1sent = flow.StateEmailSent
  /\ recovery.State (Sample.stored Sample.w2) = flow.StatePassedChallenge.
Proof.
  assert (H : behaves (Recover Sample.codeRequest Sample.F1sent)
                (snd Sample.step2) (fst (fst Sample.step2)))
    by exact (run_behaves_eq _ _ _ _ step2_run).
  split; [exact H|].
  split; [exact (proj1 (Recover_state_advances _ _ _ _ H))|].
  split; [reflexivity | vm_compute; reflexivity].
Defined.

(** C2, as stated, fails: the flow is in state PassedChallenge and the code
    is submitted once more, without address.  The code store does not find
    a live code, the handler replaces the messages of this very flow and has
    the persister store it; no new flow is made. *)
Lemma Recover_passed_flow_mutated :
  recovery.State Sample.F1passed = flow.StatePassedChallenge
  /\ Mem.flows Sample.w2 !! 1%N = Some Sample.F1passed
  /\ run Mem.impl (Recover Sample.codeAgainRequest Sample.F1passed) Sample.w2
     = Sample.step3
  /\ In (UpdateRecoveryFlow (refusedFlow (resetFlow Sample.F1passed)), AError None)
       (snd Sample.step3)
  /\ Mem.flows Sample.w3 !! 1%N = Some (refusedFlow (resetFlow Sample.F1passed))
  /\ refusedFlow (resetFlow Sample.F1passed) <> Sample.F1passed
  /\ Forall (callsNo isNewFlow) (snd Sample.step3).
Proof.
  split; [reflexivity|]. split; [vm_compute; reflexivity|].
  split; [exact step3_run|].
  split; [vm_compute; do 6 right; left; reflexivity|].
  split; [vm_compute; reflexivity|].
  split; [vm_compute; discriminate|].
  unfold callsNo. cbn. repeat constructor.
Qed.

(* ===================================================================== *)
(** ** An address nobody has *)

Lemma sentKnown_run :
  run Mem.impl
    (recoveryHandleFormSubmission Sample.emailRequest Sample.F1
       (Form Sample.emailRequest)) Sample.w0
  = Sample.sentKnown.
Proof. vm_compute. reflexivity. Qed.

Lemma sentUnknown_run :
  run Mem.impl
    (recoveryHandleFormSubmission Sample.emailRequest Sample.F1
       (Form Sample.emailRequest)) (Mem.withIdentities Sample.w0 [])
  = Sample.sentUnknown.
Proof. vm_compute. reflexivity. Qed.

(** The runs of the anti-forgery check that let the submission pass. *)
Lemma EnsureCSRF_passed r ft d actual t :
  behaves (EnsureCSRF r ft d actual) t (Some None) ->
  (String.eqb ft flow.TypeAPI = true /\ t = [])
  \/ (String.eqb ft flow.TypeAPI = false /\ exists token,
        t = [(GenerateCSRFToken r, AString token);
             (VerifyToken token actual, ABool true)]).
Proof.
  unfold EnsureCSRF. intros H.
  destruct (String.eqb ft flow.TypeAPI).
  - left. split; [reflexivity|]. destruct d; [destruct H as [-> _]; reflexivity|].
    destruct (negb (String.eqb (Header_Origin r) ""));
      [destruct H as [_ [=]]|].
    destruct (hasCookie r); destruct H as [-> H]; [discriminate H | reflexivity].
  - right. split; [reflexivity|]. cbn [bind call] in H.
    destruct H as (token & t1 & -> & ok & t2 & -> & H). exists token.
    destruct ok; cbn [negb bind call] in H.
    + destruct H as [-> _]. reflexivity.
    + destruct H as (e & t3 & -> & _ & [=]).
Qed.

Lemma HandleRecoveryErrorOn_run r f body err t res :
  behaves (HandleRecoveryErrorOn r f body err) t res ->
  exists token,
    t = [(GenerateCSRFToken r, AString token)]
    /\ forall res', behaves (HandleRecoveryErrorOn r f body err) t res' -> res' = res.
Proof.
  unfold HandleRecoveryErrorOn, HandleRecoveryError. cbn [bind call].
  intros (token & t1 & -> & [-> ->]). exists token. split; [reflexivity|].
  intros res' (token' & t1' & E & [-> ->]). injection E as ->. reflexivity.
Qed.

(** The run of [recoveryHandleFormSubmission] around the call of the
    notifier, when the notifier reports success or an unknown address. *)
Lemma recoveryHandleFormSubmission_sent r f body t res s :
  behaves (recoveryHandleFormSubmission r f body) t res ->
  In (SendRecoveryCode f identity.VerifiableAddressTypeEmail (Email body), AError s) t ->
  s = None \/ s = Some ErrUnknownAddress ->
  exists d tc pub token u rest,
    t = (DisableAPIFlowEnforcement, ABool d) :: tc
        ++ (DeleteRecoveryCodesOfFlow (recovery.ID f), AError None)
        :: (SendRecoveryCode f identity.VerifiableAddressTypeEmail (Email body), AError s)
        :: (SelfPublicURL, AString pub)
        :: (GenerateCSRFToken r, AString token)
        :: (UpdateRecoveryFlow (emailSentFlow f body pub token), AError u)
        :: rest
    /\ behaves (EnsureCSRF r (recovery.Type_ f) d (CSRFToken body)) tc (Some None)
    /\ match u with
       | None => rest = [] /\ res = Some (emailSentFlow f body pub token, None)
       | Some err =>
           behaves (HandleRecoveryErrorOn r (emailSentFlow f body pub token)
                      (Some body) err) rest res
       end.
Proof.
  unfold recoveryHandleFormSubmission. intros H Hin Hs.
  destruct (Nat.eqb (String.length (Email body)) 0).
  { seen HandleRecoveryErrorOn_calls H. in_trace Hin. }
  cbn [bind call] in H. destruct H as (d & t1 & -> & H).
  apply behaves_bind_returns in H; [| apply EnsureCSRF_returns].
  destruct H as (tc & csrf & t2 & -> & Hc & H).
  seen EnsureCSRF_calls Hc.
  destruct csrf as [err|].
  { seen HandleRecoveryErrorOn_calls H. in_trace Hin. }
  cbn [bind call] in H. destruct H as (dl & t3 & -> & H).
  destruct dl as [err|].
  { seen HandleRecoveryErrorOn_calls H. in_trace Hin. }
  cbn [bind call] in H. destruct H as (s' & t4 & -> & H).
  assert (Hcase : s' = None \/ s' = Some ErrUnknownAddress
          \/ (s' <> None /\ s' <> Some ErrUnknownAddress)).
  { destruct s' as [[]|]; auto; right; right; split; discriminate. }
  destruct Hcase as [-> | [-> | [N1 N2]]].
  - cbn [bind call] in H.
    destruct H as (pub & t5 & -> & token & t6 & -> & u & t7 & -> & H).
    assert (s = None) as ->.
    { in_trace Hin; try (destruct Hs as [-> | ->]; reflexivity).
      - injection Hin as <-. reflexivity.
      - destruct u as [err|]; [| destruct H as [-> _]; destruct Hin].
        seen HandleRecoveryErrorOn_calls H. in_trace Hin. }
    exists d, tc, pub, token, u, t7. split; [reflexivity|]. split; [exact Hc|].
    destruct u; exact H.
  - cbn [bind call] in H.
    destruct H as (pub & t5 & -> & token & t6 & -> & u & t7 & -> & H).
    assert (s = Some ErrUnknownAddress) as ->.
    { in_trace Hin; try (destruct Hs as [-> | ->]; reflexivity).
      - injection Hin as <-. reflexivity.
      - destruct u as [err|]; [| destruct H as [-> _]; destruct Hin].
        seen HandleRecoveryErrorOn_calls H. in_trace Hin. }
    exists d, tc, pub, token, u, t7. split; [reflexivity|]. split; [exact Hc|].
    destruct u; exact H.
  - exfalso. destruct s' as [e|]; [| congruence].
    assert (He : behaves (HandleRecoveryErrorOn r f (Some body) e) t4 res)
      by (destruct e; try exact H; congruence).
    seen HandleRecoveryErrorOn_calls He. in_trace Hin.
    injection Hin as <-. destruct Hs; congruence.
Qed.

Lemma sameAnswers_skip e1 e2 (l1 l2 : Trace) :
  sameAnswersButSend (e1 :: l1) (e2 :: l2) -> sameAnswersButSend l1 l2.
Proof. intros S i o a1 a2 H1 H2. exact (S (Datatypes.S i) o a1 a2 H1 H2). Qed.

(** Two runs that agree after the notifier's answer end alike. *)
Lemma sent_runs_agree r f body pub1 tok1 u1 rest1 res1 pub2 tok2 u2 rest2 res2 :
  sameAnswersButSend
    ((SelfPublicURL, AString pub1)
     :: (GenerateCSRFToken r, AString tok1)
     :: (UpdateRecoveryFlow (emailSentFlow f body pub1 tok1), AError u1) :: rest1)
    ((SelfPublicURL, AString pub2)
     :: (GenerateCSRFToken r, AString tok2)
     :: (UpdateRecoveryFlow (emailSentFlow f body pub2 tok2), AError u2) :: rest2) ->
  match u1 with
  | None => rest1 = [] /\ res1 = Some (emailSentFlow f body pub1 tok1, None)
  | Some err =>
      behaves (HandleRecoveryErrorOn r (emailSentFlow f body pub1 tok1)
                 (Some body) err) rest1 res1
  end ->
  match u2 with
  | None => rest2 = [] /\ res2 = Some (emailSentFlow f body pub2 tok2, None)
  | Some err =>
      behaves (HandleRecoveryErrorOn r (emailSentFlow f body pub2 tok2)
                 (Some body) err) rest2 res2
  end ->
  res1 = res2 /\ pub1 = pub2 /\ tok1 = tok2 /\ u1 = u2
  /\ map fst rest1 = map fst rest2.
Proof.
  intros S K1 K2.
  assert (pub1 = pub2) as <-.
  { specialize (S 0 _ _ _ eq_refl eq_refl eq_refl). congruence. }
  assert (tok1 = tok2) as <-.
  { specialize (S 1 _ _ _ eq_refl eq_refl eq_refl). congruence. }
  assert (u1 = u2) as <-.
  { specialize (S 2 _ _ _ eq_refl eq_refl eq_refl). congruence. }
  destruct u1 as [err|].
  - destruct (HandleRecoveryErrorOn_run _ _ _ _ _ _ K1) as (ta & -> & Ua).
    destruct (HandleRecoveryErrorOn_run _ _ _ _ _ _ K2) as (tb & -> & Ub).
    assert (ta = tb) as <-.
    { specialize (S 3 _ _ _ eq_refl eq_refl eq_refl). congruence. }
    rewrite (Ua _ K2). auto.
  - destruct K1 as [-> ->]. destruct K2 as [-> ->]. auto.
Qed.

(** C5.  Take two runs of [recoveryHandleFormSubmission] on the same
    submission, one in which the notifier sends the code (the address is
    bound to an identity), one in which it reports [ErrUnknownAddress], the
    other collaborators answering alike.  The two runs make the same calls
    and end alike.  The run with the unknown address hands the persister the
    flow in state EmailSent with the single message "recovery email sent",
    and returns it without error once the persister has accepted it. *)
Theorem recoveryHandleFormSubmission_unknown_address r f body t1 res1 t2 res2 :
  behaves (recoveryHandleFormSubmission r f body) t1 res1 ->
  behaves (recoveryHandleFormSubmission r f body) t2 res2 ->
  In (SendRecoveryCode f identity.VerifiableAddressTypeEmail (Email body),
      AError None) t1 ->
  In (SendRecoveryCode f identity.VerifiableAddressTypeEmail (Email body),
      AError (Some ErrUnknownAddress)) t2 ->
  sameAnswersButSend t1 t2 ->
  res1 = res2
  /\ map fst t1 = map fst t2
  /\ exists pub token u,
       In (UpdateRecoveryFlow (emailSentFlow f body pub token), AError u) t2
       /\ recovery.State (emailSentFlow f body pub token) = flow.StateEmailSent
       /\ container.Messages (recovery.UI (emailSentFlow f body pub token))
          = [text.NewRecoveryEmailWithCodeSent]
       /\ (u = None -> res2 = Some (emailSentFlow f body pub token, None)).
Proof.
  intros H1 H2 In1 In2 Same.
  destruct (recoveryHandleFormSubmission_sent _ _ _ _ _ _ H1 In1 (or_introl eq_refl))
    as (d1 & tc1 & pub1 & tok1 & u1 & rest1 & -> & Hc1 & K1).
  destruct (recoveryHandleFormSubmission_sent _ _ _ _ _ _ H2 In2 (or_intror eq_refl))
    as (d2 & tc2 & pub2 & tok2 & u2 & rest2 & -> & Hc2 & K2).
  clear H1 H2 In1 In2.
  assert (d1 = d2) as <-.
  { specialize (Same 0 _ _ _ eq_refl eq_refl eq_refl). congruence. }
  assert (Out :
    recovery.State (emailSentFlow f body pub2 tok2) = flow.StateEmailSent
    /\ container.Messages (recovery.UI (emailSentFlow f body pub2 tok2))
       = [text.NewRecoveryEmailWithCodeSent]
    /\ (u2 = None -> res2 = Some (emailSentFlow f body pub2 tok2, None))).
  { split; [reflexivity|]. split; [reflexivity|]. intros ->. exact (proj2 K2). }
  apply EnsureCSRF_passed in Hc1, Hc2.
  destruct Hc1 as [[A1 ->] | [A1 (ta & ->)]];
    destruct Hc2 as [[A2 ->] | [A2 (tb & ->)]]; try congruence.
  - pose proof Same as S. do 3 apply sameAnswers_skip in S.
    destruct (sent_runs_agree _ _ _ _ _ _ _ _ _ _ _ _ _ S K1 K2)
      as (R & <- & <- & <- & M).
    split; [exact R|]. split; [cbn; rewrite M; reflexivity|].
    exists pub1, tok1, u1. split; [| exact Out].
    cbn. do 5 right. left. reflexivity.
  - assert (ta = tb) as <-.
    { specialize (Same 1 _ _ _ eq_refl eq_refl eq_refl). congruence. }
    pose proof Same as S. do 5 apply sameAnswers_skip in S.
    destruct (sent_runs_agree _ _ _ _ _ _ _ _ _ _ _ _ _ S K1 K2)
      as (R & <- & <- & <- & M).
    split; [exact R|]. split; [cbn; rewrite M; reflexivity|].
    exists pub1, tok1, u1. split; [| exact Out].
    cbn. do 7 right. left. reflexivity.
Qed.

(** In the scenario: the address of the identity, and the same submission
    when no identity has the address. *)
Lemma recoveryHandleFormSubmission_unknown_address_witness :
  behaves (recoveryHandleFormSubmission Sample.emailRequest Sample.F1
             (Form Sample.emailRequest))
    (snd Sample.sentKnown) (fst (fst Sample.sentKnown))
  /\ behaves (recoveryHandleFormSubmission Sample.emailRequest Sample.F1
                (Form Sample.emailRequest))
       (snd Sample.sentUnknown) (fst (fst Sample.sentUnknown))
  /\ In (SendRecoveryCode Sample.F1 identity.VerifiableAddressTypeEmail
           (Email (Form Sample.emailRequest)), AError None) (snd Sample.sentKnown)
  /\ In (SendRecoveryCode Sample.F1 identity.VerifiableAddressTypeEmail
           (Email (Form Sample.emailRequest)), AError (Some ErrUnknownAddress))
       (snd Sample.sentUnknown)
  /\ sameAnswersButSend (snd Sample.sentKnown) (snd Sample.sentUnknown)
  /\ fst (fst Sample.sentKnown) = fst (fst Sample.sentUnknown).
Proof.
  assert (H1 : behaves (recoveryHandleFormSubmission Sample.emailRequest Sample.F1
             (Form Sample.emailRequest))
    (snd Sample.sentKnown) (fst (fst Sample.sentKnown)))
    by exact (run_behaves_eq _ _ _ _ sentKnown_run).
  assert (H2 : behaves (recoveryHandleFormSubmission Sample.emailRequest Sample.F1
                (Form Sample.emailRequest))
       (snd Sample.sentUnknown) (fst (fst Sample.sentUnknown)))
    by exact (run_behaves_eq _ _ _ _ sentUnknown_run).
  assert (I1 : In (SendRecoveryCode Sample.F1 identity.VerifiableAddressTypeEmail
           (Email (Form Sample.emailRequest)), AError None) (snd Sample.sentKnown))
    by (cbn; do 4 right; left; reflexivity).
  assert (I2 : In (SendRecoveryCode Sample.F1 identity.VerifiableAddressTypeEmail
           (Email (Form Sample.emailRequest)), AError (Some ErrUnknownAddress))
       (snd Sample.sentUnknown))
    by (cbn; do 4 right; left; reflexivity).
  assert (S : sameAnswersButSend (snd Sample.sentKnown) (snd Sample.sentUnknown)).
  { intros i o a1 a2 E1 E2 N.
    do 9 (destruct i as [|i];
          [cbn in E1, E2;
           first [discriminate E1
                 | injection E1 as <- <-; injection E2 as <-;
                   first [discriminate N | reflexivity]] |]).
    discriminate E1. }
  repeat (split; [assumption|]).
  exact (proj1 (recoveryHandleFormSubmission_unknown_address _ _ _ _ _ _ _
                  H1 H2 I1 I2 S)).
Defined.

(* ===================================================================== *)
(** ** A code that is accepted *)

Lemma accepted_run :
  run Mem.impl
    (recoveryUseCode Sample.codeRequest (Form Sample.codeRequest) Sample.F1sent)
    Sample.w1
  = Sample.accepted.
Proof. vm_compute. reflexivity. Qed.

Lemma recoveryIssueSession_run r f id t res :
  behaves (recoveryIssueSession r f id) t res ->
  exists token u rest,
    t = (RegenerateToken r, AString token)
        :: (UpdateRecoveryFlow (passedFlow f token id), AError u) :: rest
    /\ (u = None -> issuesSession r f id rest).
Proof.
  unfold recoveryIssueSession. cbn [bind call].
  intros (token & t1 & -> & u & t2 & -> & H).
  exists token, u, t2. split; [reflexivity|]. intros ->.
  cbn [bind call] in H. destruct H as (now & t3 & -> & s & t4 & -> & H).
  exists now, s, t4. split; [reflexivity|]. intros sess ->.
  cbn [recovery.Type_ recovery.withRecoveredIdentityID recovery.SetCSRFToken
       recovery.withState recovery.withUI] in H.
  split.
  - intros Ty. rewrite Ty in H.
    change (String.eqb flow.TypeBrowser flow.TypeBrowser) with true in H.
    cbn [bind call] in H. destruct H as (u & t5 & -> & _). eauto.
  - intros Ty. rewrite Ty in H.
    change (String.eqb flow.TypeAPI flow.TypeBrowser) with false in H.
    change (String.eqb flow.TypeAPI flow.TypeAPI) with true in H.
    cbn [bind call] in H. destruct H as (u & t5 & -> & _). eauto.
Qed.

Lemma markRecoveryAddressVerified_run r f code recovered t res :
  behaves
    (match CodeType code with
     | RecoveryCodeTypeSelfService =>
         markRecoveryAddressVerified r f recovered (RecoveryAddress code)
     | RecoveryCodeTypeAdmin => Ret (f, None)
     end) t res ->
  (CodeType code = RecoveryCodeTypeSelfService /\ RecoveryAddress code = None
   /\ identity.VerifiableAddresses recovered <> [] /\ t = [] /\ res = None)
  \/ exists tm u th g,
       t = tm ++ th /\ verifies code recovered tm u /\ res = Some (g, u)
       /\ match u with
          | Some err => behaves (HandleRecoveryErrorOn r f None err) th (Some (g, u))
          | None => th = [] /\ g = f
          end.
Proof.
  unfold verifies, pickedAddress. intros H.
  destruct (CodeType code).
  { right. destruct H as [-> ->]. exists [], None, [], f.
    destruct (RecoveryAddress code); auto 10. }
  unfold markRecoveryAddressVerified, findAddress in H.
  destruct (identity.VerifiableAddresses recovered) as [| va0 vas] eqn:Addrs.
  { right. cbn [bind] in H. destruct H as [-> ->]. exists [], None, [], f.
    destruct (RecoveryAddress code); cbn; auto 10. }
  destruct (RecoveryAddress code) as [ra|].
  2:{ left. destruct H as [-> ->]. repeat split; auto; discriminate. }
  right. cbn [bind] in H.
  destruct (List.find _ (va0 :: vas)) as [va|].
  2:{ destruct H as [-> ->]. exists [], None, [], f. auto 10. }
  destruct (identity.va_Verified va).
  { destruct H as [-> ->]. exists [], None, [], f. auto 10. }
  cbn [negb bind call] in H. destruct H as (now & t1 & -> & u & t2 & -> & H).
  destruct u as [err|].
  - pose proof H as H'.
    apply HandleRecoveryErrorOn_run in H'. destruct H' as (tok & -> & _).
    unfold HandleRecoveryErrorOn, HandleRecoveryError in H. cbn [bind call] in H.
    destruct H as (tok' & t3 & E & [-> ->]).
    eexists [(Now, ATime now); (UpdateVerifiableAddress _, AError (Some err))],
            (Some err), [(GenerateCSRFToken r, AString tok)], _.
    split; [reflexivity|]. split; [eauto|]. split; [reflexivity|].
    injection E as <-.
    unfold HandleRecoveryErrorOn, HandleRecoveryError. cbn [bind call].
    eexists _, _. split; [reflexivity|]. split; reflexivity.
  - destruct H as [-> ->].
    exists [(Now, ATime now); (UpdateVerifiableAddress (markVerified va now), AError None)],
           None, [], f.
    split; [reflexivity|]. split; [eauto|]. auto.
Qed.

(** C6.  In every run of [recoveryUseCode] in which the code store accepts
    the code: the identity bound to the code is looked up next.  Once it is
    found, the address is marked as [verifies] says: exactly for a
    self-service code, the first address of the identity whose value is that
    of the code's recovery address, if it is not yet verified, with the time
    read.  When that leaves no error, the anti-forgery token is regenerated
    and the flow is handed to the persister in state PassedChallenge, its
    messages cleared, with the identity's identifier as
    [RecoveredIdentityID]; once the persister has accepted it, a session is
    made for the identity at assurance level 1 with credential type
    "recovery code" and handed on for issuance; no address is touched after
    the marking.  (A self-service code without recovery address, on an
    identity that has addresses, makes the handler panic.) *)
Theorem recoveryUseCode_accepted r body f t res code :
  behaves (recoveryUseCode r body f) t res ->
  startsWith t (UseRecoveryCode (recovery.ID f) (Code body), ACode (inr code)) ->
  exists a rest,
    t = (UseRecoveryCode (recovery.ID f) (Code body), ACode (inr code))
        :: (GetIdentity (IdentityID code), AIdentity a) :: rest
    /\ forall recovered, a = inr recovered ->
       (CodeType code = RecoveryCodeTypeSelfService /\ RecoveryAddress code = None
        /\ identity.VerifiableAddresses recovered <> [] /\ rest = [] /\ res = None)
       \/ exists tm u rest',
            rest = tm ++ rest'
            /\ verifies code recovered tm u
            /\ Forall (callsNo isUpdateVerifiableAddress) rest'
            /\ (u = None ->
                exists token u' rest'',
                  rest' = (RegenerateToken r, AString token)
                          :: (UpdateRecoveryFlow (passedFlow f token recovered),
                              AError u') :: rest''
                  /\ recovery.ID (passedFlow f token recovered) = recovery.ID f
                  /\ recovery.State (passedFlow f token recovered)
                     = flow.StatePassedChallenge
                  /\ recovery.RecoveredIdentityID (passedFlow f token recovered)
                     = Some (identity.ID recovered)
                  /\ (u' = None -> issuesSession r f recovered rest'')).
Proof.
  intros H S. unfold recoveryUseCode in H. cbn [bind call] in H.
  destruct H as (c & t1 & -> & H). injection S as ->.
  cbn [bind call] in H. destruct H as (a & t2 & -> & H).
  exists a, t2. split; [reflexivity|]. intros recovered ->.
  apply behaves_bind_inv in H.
  destruct H as [(tm0 & [g u] & t3 & -> & Hm & H) | [Hm ->]].
  - apply markRecoveryAddressVerified_run in Hm.
    destruct Hm as [(_ & _ & _ & _ & [=]) | (tm & u' & th & g' & -> & V & [= -> ->] & K)].
    right. exists tm, u', (th ++ t3). split; [rewrite app_assoc; reflexivity|].
    split; [exact V|].
    destruct u' as [err|].
    + split; [| discriminate].
      seen HandleRecoveryErrorOn_calls K. seen HandleRecoveryErrorOn_calls H.
      apply Forall_app_2; (eapply calls_no; [| eassumption]);
        intros [] Hq; simpl in *; auto; discriminate Hq.
    + destruct K as [-> ->]. cbn [app].
      split.
      { seen recoveryIssueSession_calls H. eapply calls_no; [| eassumption].
        intros [] Hq; simpl in *; auto; discriminate Hq. }
      intros _. apply recoveryIssueSession_run in H.
      destruct H as (token & u2 & rest'' & -> & HI).
      exists token, u2, rest''. repeat split; auto.
  - apply markRecoveryAddressVerified_run in Hm.
    destruct Hm as [(A & B & C & -> & _) | (tm & u' & th & g' & _ & _ & [=] & _)].
    left. auto.
Qed.

(** In the scenario, the code accepted for the identity whose address is not
    verified yet. *)
Lemma recoveryUseCode_accepted_witness :
  behaves (recoveryUseCode Sample.codeRequest (Form Sample.codeRequest) Sample.F1sent)
    (snd Sample.accepted) (fst (fst Sample.accepted))
  /\ (exists code,
        startsWith (snd Sample.accepted)
          (UseRecoveryCode (recovery.ID Sample.F1sent) (Code (Form Sample.codeRequest)),
           ACode (inr code))
        /\ exists a rest,
             snd Sample.accepted
             = (UseRecoveryCode (recovery.ID Sample.F1sent)
                  (Code (Form Sample.codeRequest)), ACode (inr code))
               :: (GetIdentity (IdentityID code), AIdentity a) :: rest).
Proof.
  assert (H : behaves
    (recoveryUseCode Sample.codeRequest (Form Sample.codeRequest) Sample.F1sent)
    (snd Sample.accepted) (fst (fst Sample.accepted)))
    by exact (run_behaves_eq _ _ _ _ accepted_run).
  split; [exact H|].
  eexists. assert (S : startsWith (snd Sample.accepted)
    (UseRecoveryCode (recovery.ID Sample.F1sent) (Code (Form Sample.codeRequest)),
     ACode (inr _))) by reflexivity.
  split; [exact S|].
  destruct (recoveryUseCode_accepted _ _ _ _ _ _ H S) as (a & rest & E & _).
  exists a, rest. exact E.
Defined.

(* ===================================================================== *)
(** ** The code store: a code is used once *)

Lemma UseCode_found st flowID submitted now c st1 :
  CodeStore.UseCode st flowID submitted now = (inr c, st1) ->
  exists pre c0 post,
    st = pre ++ c0 :: post
    /\ st1 = pre ++ CodeStore.markUsed c0 now :: post
    /\ c = CodeStore.markUsed c0 now
    /\ CodeStore.matches flowID submitted c0 = true
    /\ CodeStore.live now c0 = true
    /\ Forall (fun d => CodeStore.matches flowID submitted d = false) pre.
Proof.
  revert st1. induction st as [| d st IH]; simpl; intros st1 H; [discriminate H|].
  destruct (CodeStore.matches flowID submitted d) eqn:M.
  - destruct (CodeStore.live now d) eqn:L; [| discriminate H].
    injection H as <- <-. exists [], d, st. repeat split; auto.
  - destruct (CodeStore.UseCode st flowID submitted now) as [res rest] eqn:E.
    injection H as -> <-.
    destruct (IH _ eq_refl) as (pre & c0 & post & -> & -> & -> & M0 & L0 & F).
    exists (d :: pre), c0, post. repeat split; auto.
Qed.

Lemma UseCode_used st flowID submitted now pre c0 post :
  CodeStore.matches flowID submitted c0 = true ->
  UsedAt c0 <> None ->
  Forall (fun d => CodeStore.matches flowID submitted d = false) pre ->
  st = pre ++ c0 :: post ->
  CodeStore.UseCode st flowID submitted now = (inl ErrCodeNotFound, st).
Proof.
  intros M U F ->. induction F as [| d pre Hd F IH]; simpl.
  - rewrite M. unfold CodeStore.live. destruct (UsedAt c0); [reflexivity | congruence].
  - rewrite Hd, IH. reflexivity.
Qed.

Lemma matches_markUsed flowID submitted c now :
  CodeStore.matches flowID submitted (CodeStore.markUsed c now)
  = CodeStore.matches flowID submitted c.
Proof. reflexivity. Qed.

Lemma DeleteCodesOfFlow_none st flowID :
  Forall (fun d => N.eqb (FlowID d) flowID = false)
    (CodeStore.DeleteCodesOfFlow st flowID).
Proof.
  unfold CodeStore.DeleteCodesOfFlow. apply Forall_forall. intros d Hd.
  apply list_elem_of_In, filter_In in Hd. destruct Hd as [_ Hd].
  apply negb_true_iff in Hd. exact Hd.
Qed.

(** C1.  A successful [UseCode] consumes a stored code of the flow with the
    submitted value that was unused and not expired, stamps it with the time
    of use, and leaves a store in which the same value submitted for the same
    flow is answered [ErrCodeNotFound], at any time; codes that were already
    used stay in the store as they are.  A code just issued for a flow, used
    before it expires, is consumed by the first call. *)
Theorem UseCode_single_use st flowID submitted now c st1 :
  CodeStore.UseCode st flowID submitted now = (inr c, st1) ->
  UsedAt c = Some now
  /\ (exists c0, In c0 st /\ UsedAt c0 = None /\ (now < code_ExpiresAt c0)%Z
                 /\ FlowID c0 = flowID /\ code_Value c0 = submitted
                 /\ c = CodeStore.markUsed c0 now)
  /\ (forall now',
        CodeStore.UseCode st1 flowID submitted now' = (inl ErrCodeNotFound, st1))
  /\ (forall d, In d st -> UsedAt d <> None -> In d st1)
  /\ (forall st0 id expiresAt identityID address codeType now0,
        (now0 < expiresAt)%Z ->
        exists st2,
          CodeStore.UseCode
            (snd (CodeStore.IssueCode st0 id submitted expiresAt flowID identityID
                    address codeType)) flowID submitted now0
          = (inr (CodeStore.markUsed
                    (fst (CodeStore.IssueCode st0 id submitted expiresAt flowID
                            identityID address codeType)) now0), st2)
          /\ forall now',
               CodeStore.UseCode st2 flowID submitted now'
               = (inl ErrCodeNotFound, st2)).
Proof.
  intros H. apply UseCode_found in H.
  destruct H as (pre & c0 & post & -> & -> & -> & M & L & F).
  assert (U : UsedAt c0 = None /\ (now < code_ExpiresAt c0)%Z).
  { unfold CodeStore.live in L. destruct (UsedAt c0); [discriminate L|].
    split; [reflexivity | apply Z.ltb_lt, L]. }
  assert (MM : FlowID c0 = flowID /\ code_Value c0 = submitted).
  { unfold CodeStore.matches in M. apply andb_true_iff in M.
    destruct M as [M1 M2]. split; [apply N.eqb_eq, M1 | apply String.eqb_eq, M2]. }
  split; [reflexivity|].
  split.
  { exists c0. repeat split; try tauto. apply in_or_app. right. left. reflexivity. }
  split.
  { intros now'. eapply UseCode_used with (c0 := CodeStore.markUsed c0 now);
      [rewrite matches_markUsed; exact M | discriminate | exact F | reflexivity]. }
  split.
  { intros d Hd Ud. apply in_app_or in Hd. apply in_or_app.
    destruct Hd as [Hd | [<- | Hd]]; [left; exact Hd | | right; right; exact Hd].
    destruct U as [U _]. congruence. }
  intros st0 id expiresAt identityID address codeType now0 Hlive.
  unfold CodeStore.IssueCode. cbn [fst snd].
  set (c1 := {| code_ID := id; code_Value := submitted; UsedAt := None;
                IdentityID := identityID; CodeType := codeType;
                code_ExpiresAt := expiresAt; FlowID := flowID;
                RecoveryAddress := Some address |}).
  assert (Mc : CodeStore.matches flowID submitted c1 = true).
  { unfold CodeStore.matches, c1. cbn. rewrite N.eqb_refl, String.eqb_refl. reflexivity. }
  assert (Fd : Forall (fun d => CodeStore.matches flowID submitted d = false)
                 (CodeStore.DeleteCodesOfFlow st0 flowID)).
  { eapply Forall_impl; [apply DeleteCodesOfFlow_none|].
    intros d Hd. unfold CodeStore.matches. rewrite Hd. reflexivity. }
  exists (CodeStore.DeleteCodesOfFlow st0 flowID ++ [CodeStore.markUsed c1 now0]).
  split.
  - induction Fd as [| d l Hd Fd IH]; simpl.
    + rewrite Mc. unfold CodeStore.live. cbn [UsedAt c1 code_ExpiresAt].
      apply Z.ltb_lt in Hlive. rewrite Hlive. reflexivity.
    + rewrite Hd, IH. reflexivity.
  - intros now'. eapply UseCode_used with (c0 := CodeStore.markUsed c1 now0);
      [rewrite matches_markUsed; exact Mc | discriminate | exact Fd | reflexivity].
Qed.

(** In the scenario: the code of flow 1, used at the time of the second
    submission. *)
Lemma UseCode_single_use_witness :
  (exists c st1,
     CodeStore.UseCode (Mem.codes Sample.w1) 1%N "123456" 10%Z = (inr c, st1)
     /\ UsedAt c = Some 10%Z
     /\ forall now',
          CodeStore.UseCode st1 1%N "123456" now' = (inl ErrCodeNotFound, st1)).
Proof.
  eexists _, _.
  assert (H : CodeStore.UseCode (Mem.codes Sample.w1) 1%N "123456" 10%Z
              = (inr _, _)) by (vm_compute; reflexivity).
  split; [exact H|].
  destruct (UseCode_single_use _ _ _ _ _ _ H) as (U & _ & N & _).
  split; [exact U | exact N].
Defined.

(* ===================================================================== *)
(** ** A new code invalidates the codes before it *)

Lemma resent_run :
  run Mem.impl
    (recoveryHandleFormSubmission Sample.resendRequest Sample.F1sent
       (Form Sample.resendRequest)) Sample.w1
  = Sample.resent.
Proof. vm_compute. reflexivity. Qed.

Lemma run_bind {W A B} (I : Impl W) (p : Prog A) (k : A -> Prog B) w :
  run I (bind p k) w
  = let '(r, w1, t1) := run I p w in
    match r with
    | Some a => let '(r2, w2, t2) := run I (k a) w1 in (r2, w2, t1 ++ t2)
    | None => (None, w1, t1)
    end.
Proof.
  revert w. induction p as [a | m | o k' IH]; simpl; intros w.
  - destruct (run I (k a) w) as [[r2 w2] t2]. reflexivity.
  - reflexivity.
  - destruct (I o w) as [x w1]. rewrite IH.
    destruct (run I (k' x) w1) as [[r w2] t1].
    destruct r as [a|]; [| reflexivity].
    destruct (run I (k a) w2) as [[r2 w3] t2]. reflexivity.
Qed.

(** The anti-forgery check reads the store and leaves it as it is. *)
Lemma Mem_EnsureCSRF_world r ft d actual w :
  snd (fst (run Mem.impl (EnsureCSRF r ft d actual) w)) = w.
Proof.
  unfold EnsureCSRF.
  destruct (String.eqb ft flow.TypeAPI).
  - destruct d; [reflexivity|].
    destruct (negb (String.eqb (Header_Origin r) "")); [reflexivity|].
    destruct (hasCookie r); reflexivity.
  - cbn. destruct (String.eqb (Mem.csrf w) actual); reflexivity.
Qed.


Lemma Mem_form_codes w r f body g w' t :
  run Mem.impl (recoveryHandleFormSubmission r f body) w = (Some (g, None), w', t) ->
  Mem.codes w' = codesAfterSend w f body.
Proof.
  unfold recoveryHandleFormSubmission, codesAfterSend. intros H.
  destruct (Nat.eqb (String.length (Email body)) 0).
  { cbn in H. discriminate H. }
  cbn [bind call run Mem.impl] in H. rewrite run_bind in H.
  pose proof (Mem_EnsureCSRF_world r (recovery.Type_ f)
                (Mem.cfg_DisableAPIFlowEnforcement (Mem.cfg w)) (CSRFToken body) w) as Fr.
  destruct (run Mem.impl (EnsureCSRF r (recovery.Type_ f)
              (Mem.cfg_DisableAPIFlowEnforcement (Mem.cfg w)) (CSRFToken body)) w)
    as [[rc wc] tc].
  cbn [fst snd] in Fr. subst wc.
  destruct rc as [[err|]|]; [cbn in H; discriminate H | | discriminate H].
  cbn [bind call run Mem.impl] in H.
  unfold Mem.sendRecoveryCode in H. cbn [Mem.identities Mem.withCodes] in H.
  destruct (Mem.lookupAddress (Email body) (Mem.identities w)) as [[i ra]|].
  - cbn in H.
    match type of H with
    | context [Mem.flows ?w0 !! ?k] => destruct (Mem.flows w0 !! k)
    end; cbn in H; [| discriminate H].
    injection H as _ <- _. reflexivity.
  - cbn in H.
    match type of H with
    | context [Mem.flows ?w0 !! ?k] => destruct (Mem.flows w0 !! k)
    end; cbn in H; [| discriminate H].
    injection H as _ <- _. reflexivity.
Qed.

Lemma HandleRecoveryErrorOn_error r f body err t g :
  ~ behaves (HandleRecoveryErrorOn r f body err) t (Some (g, None)).
Proof.
  unfold HandleRecoveryErrorOn, HandleRecoveryError. cbn [bind call].
  intros (tok & t1 & _ & _ & [=]).
Qed.

(** The run of [recoveryHandleFormSubmission] that ends without error. *)
Lemma recoveryHandleFormSubmission_ok r f body t g :
  behaves (recoveryHandleFormSubmission r f body) t (Some (g, None)) ->
  Email body <> ""
  /\ exists d tc s pub token,
       t = (DisableAPIFlowEnforcement, ABool d) :: tc
           ++ [(DeleteRecoveryCodesOfFlow (recovery.ID f), AError None);
               (SendRecoveryCode f identity.VerifiableAddressTypeEmail (Email body),
                AError s);
               (SelfPublicURL, AString pub);
               (GenerateCSRFToken r, AString token);
               (UpdateRecoveryFlow (emailSentFlow f body pub token), AError None)]
       /\ behaves (EnsureCSRF r (recovery.Type_ f) d (CSRFToken body)) tc (Some None)
       /\ (s = None \/ s = Some ErrUnknownAddress)
       /\ g = emailSentFlow f body pub token.
Proof.
  unfold recoveryHandleFormSubmission. intros H.
  destruct (Nat.eqb (String.length (Email body)) 0) eqn:E.
  { destruct (HandleRecoveryErrorOn_error _ _ _ _ _ _ H). }
  split. { intros Em. rewrite Em in E. discriminate E. }
  cbn [bind call] in H. destruct H as (d & t1 & -> & H).
  apply behaves_bind_returns in H; [| apply EnsureCSRF_returns].
  destruct H as (tc & csrf & t2 & -> & Hc & H).
  destruct csrf as [err|]; [destruct (HandleRecoveryErrorOn_error _ _ _ _ _ _ H)|].
  cbn [bind call] in H. destruct H as (dl & t3 & -> & H).
  destruct dl as [err|]; [destruct (HandleRecoveryErrorOn_error _ _ _ _ _ _ H)|].
  cbn [bind call] in H. destruct H as (s & t4 & -> & H).
  assert (K : (s = None \/ s = Some ErrUnknownAddress) /\
    behaves
      (let* pub := call SelfPublicURL in
       let* token := call (GenerateCSRFToken r) in
       let* u := call (UpdateRecoveryFlow (emailSentFlow f body pub token)) in
       match u with
       | Some err =>
           HandleRecoveryErrorOn r (emailSentFlow f body pub token) (Some body) err
       | None => Ret (emailSentFlow f body pub token, None)
       end) t4 (Some (g, None))).
  { destruct s as [e|]; [| split; [auto | exact H]].
    destruct e; try (destruct (HandleRecoveryErrorOn_error _ _ _ _ _ _ H)).
    split; [auto | exact H]. }
  destruct K as [Hs K]. cbn [bind call] in K.
  destruct K as (pub & t5 & -> & token & t6 & -> & u & t7 & -> & K).
  destruct u as [err|]; [destruct (HandleRecoveryErrorOn_error _ _ _ _ _ _ K)|].
  destruct K as [-> [= ->]].
  exists d, tc, s, pub, token. repeat split; auto.
Qed.

Lemma codesOfFlow_Delete st flowID :
  CodeStore.codesOfFlow (CodeStore.DeleteCodesOfFlow st flowID) flowID = [].
Proof.
  unfold CodeStore.codesOfFlow, CodeStore.DeleteCodesOfFlow.
  induction st as [| c st IH]; simpl; [reflexivity|].
  destruct (N.eqb (FlowID c) flowID) eqn:E; simpl; [exact IH|].
  rewrite E. exact IH.
Qed.

Lemma In_Delete st flowID c :
  In c (CodeStore.DeleteCodesOfFlow st flowID) <-> In c st /\ FlowID c <> flowID.
Proof.
  unfold CodeStore.DeleteCodesOfFlow. rewrite filter_In, negb_true_iff, N.eqb_neq.
  reflexivity.
Qed.

Lemma UseCode_error st flowID submitted now e :
  fst (CodeStore.UseCode st flowID submitted now) = inl e -> e = ErrCodeNotFound.
Proof.
  induction st as [| x l IH]; simpl.
  - congruence.
  - destruct (CodeStore.matches flowID submitted x).
    + destruct (CodeStore.live now x); simpl; congruence.
    + destruct (CodeStore.UseCode l flowID submitted now) as [res rest].
      simpl in *. exact IH.
Qed.

(** C4.  In the in-memory realisation, after an address step of
    [recoveryHandleFormSubmission] that ends without error: the handler has
    asked the code store to delete the codes of the flow right before it
    asked the notifier to send a code; the store then holds at most one code
    for the flow; every code it holds for the flow is unused and was not in
    the store before; no code that was in the store for the flow is left;
    and submitting the secret of such a code is answered [ErrCodeNotFound],
    unless the code just issued happens to carry the same secret, in which
    case it is the new code that is consumed. *)
Theorem resend_invalidates_prior_codes w r f body g w' t :
  run Mem.impl (recoveryHandleFormSubmission r f body) w = (Some (g, None), w', t) ->
  (forall c, In c (Mem.codes w) -> (code_ID c < Mem.nextID w)%N) ->
  (exists pre s post,
     t = pre ++ (DeleteRecoveryCodesOfFlow (recovery.ID f), AError None)
             :: (SendRecoveryCode f identity.VerifiableAddressTypeEmail (Email body),
                 AError s) :: post)
  /\ List.length (CodeStore.codesOfFlow (Mem.codes w') (recovery.ID f)) <= 1
  /\ (forall c, In c (Mem.codes w') -> FlowID c = recovery.ID f ->
        code_ID c = Mem.nextID w /\ UsedAt c = None /\ ~ In c (Mem.codes w))
  /\ (forall old, In old (Mem.codes w) -> FlowID old = recovery.ID f ->
        ~ In old (Mem.codes w')
        /\ forall now,
             match fst (CodeStore.UseCode (Mem.codes w') (recovery.ID f)
                          (code_Value old) now) with
             | inl e => e = ErrCodeNotFound
             | inr c => code_ID c = Mem.nextID w /\ code_ID c <> code_ID old
             end).
Proof.
  intros H WF.
  pose proof (Mem_form_codes _ _ _ _ _ _ _ H) as C.
  apply run_behaves_eq in H. cbn [fst snd] in H.
  apply recoveryHandleFormSubmission_ok in H.
  destruct H as (_ & d & tc & s & pub & token & -> & _ & _ & _).
  assert (New : forall c, In c (Mem.codes w') -> FlowID c = recovery.ID f ->
            code_ID c = Mem.nextID w /\ UsedAt c = None /\ ~ In c (Mem.codes w)).
  { intros c Hc Fc. rewrite C in Hc. unfold codesAfterSend in Hc.
    destruct (Mem.lookupAddress (Email body) (Mem.identities w)) as [[i ra]|].
    - cbn [snd CodeStore.IssueCode] in Hc. apply in_app_or in Hc.
      destruct Hc as [Hc | [<- | []]].
      + apply In_Delete in Hc. destruct Hc as [_ Hc]. contradiction.
      + cbn. split; [reflexivity|]. split; [reflexivity|].
        intros Hin. specialize (WF _ Hin). cbn in WF. lia.
    - apply In_Delete in Hc. destruct Hc as [_ Hc]. contradiction. }
  split.
  { exists ((DisableAPIFlowEnforcement, ABool d) :: tc), s. eexists.
    cbn. reflexivity. }
  split.
  { rewrite C. unfold codesAfterSend.
    destruct (Mem.lookupAddress (Email body) (Mem.identities w)) as [[i ra]|].
    - cbn [snd CodeStore.IssueCode]. unfold CodeStore.codesOfFlow.
      rewrite List.filter_app. fold (CodeStore.codesOfFlow
        (CodeStore.DeleteCodesOfFlow
           (CodeStore.DeleteCodesOfFlow (Mem.codes w) (recovery.ID f))
           (recovery.ID f)) (recovery.ID f)).
      rewrite codesOfFlow_Delete. cbn. rewrite N.eqb_refl. cbn. lia.
    - rewrite codesOfFlow_Delete. cbn. lia. }
  split; [exact New|].
  intros old Hold Fold.
  assert (Gone : ~ In old (Mem.codes w')).
  { intros Hin. destruct (New _ Hin Fold) as (_ & _ & N). exact (N Hold). }
  split; [exact Gone|]. intros now.
  destruct (CodeStore.UseCode (Mem.codes w') (recovery.ID f) (code_Value old) now)
    as [[e | c] st] eqn:U; cbn [fst].
  - apply (UseCode_error (Mem.codes w') (recovery.ID f) (code_Value old) now).
    rewrite U. reflexivity.
  - destruct (UseCode_found _ _ _ _ _ _ U)
      as (pre & c0 & post & Est & _ & -> & Mc0 & _ & _).
    assert (Hc0 : In c0 (Mem.codes w')).
    { rewrite Est. apply in_or_app. right. left. reflexivity. }
    assert (Fc0 : FlowID c0 = recovery.ID f).
    { unfold CodeStore.matches in Mc0. apply andb_true_iff in Mc0.
      apply N.eqb_eq, Mc0. }
    destruct (New _ Hc0 Fc0) as (Id & _ & _). cbn [code_ID CodeStore.markUsed].
    split; [exact Id|]. rewrite Id. specialize (WF _ Hold). lia.
Qed.

(** In the scenario: a second submission of the address on the flow in
    state EmailSent, whose first code is still in the store. *)
Lemma resend_invalidates_prior_codes_witness :
  run Mem.impl
    (recoveryHandleFormSubmission Sample.resendRequest Sample.F1sent
       (Form Sample.resendRequest)) Sample.w1
  = (Some (Sample.stored (snd (fst Sample.resent)), None),
     snd (fst Sample.resent), snd Sample.resent)
  /\ (forall c, In c (Mem.codes Sample.w1) -> (code_ID c < Mem.nextID Sample.w1)%N)
  /\ Mem.codes Sample.w1 <> []
  /\ forall old, In old (Mem.codes Sample.w1) -> FlowID old = 1%N ->
       ~ In old (Mem.codes (snd (fst Sample.resent))).
Proof.
  assert (H : run Mem.impl
    (recoveryHandleFormSubmission Sample.resendRequest Sample.F1sent
       (Form Sample.resendRequest)) Sample.w1
  = (Some (Sample.stored (snd (fst Sample.resent)), None),
     snd (fst Sample.resent), snd Sample.resent)) by (vm_compute; reflexivity).
  assert (WF : forall c, In c (Mem.codes Sample.w1) ->
                 (code_ID c < Mem.nextID Sample.w1)%N).
  { intros c [<- | []]. vm_compute. reflexivity. }
  split; [exact H|]. split; [exact WF|]. split; [discriminate|].
  intros old Hold Fold.
  destruct (resend_invalidates_prior_codes _ _ _ _ _ _ _ H WF) as (_ & _ & _ & K).
  exact (proj1 (K old Hold Fold)).
Defined.

(* ===================================================================== *)
(** ** Credential types and assurance levels *)

Lemma parseAmong_ok ts input t :
  identity.parseAmong ts input = (t, true) -> t = input /\ In input ts.
Proof.
  induction ts as [| t0 ts IH]; simpl; [discriminate|].
  unfold identity.CredentialsType_String.
  destruct (String.eqb t0 input) eqn:E.
  - apply String.eqb_eq in E. intros [= <-]. auto.
  - intros H. destruct (IH H). auto.
Qed.

Lemma parseAmong_in ts input :
  In input ts -> identity.parseAmong ts input = (input, true).
Proof.
  induction ts as [| t0 ts IH]; simpl; [intros []|].
  unfold identity.CredentialsType_String.
  destruct (String.eqb t0 input) eqn:E.
  - apply String.eqb_eq in E. subst. reflexivity.
  - apply String.eqb_neq in E. intros [H | H]; [contradiction | auto].
Qed.

Lemma parseAmong_not ts input t :
  identity.parseAmong ts input = (t, false) -> t = "" /\ ~ In input ts.
Proof.
  induction ts as [| t0 ts IH]; simpl.
  - intros [= <-]. auto.
  - unfold identity.CredentialsType_String.
    destruct (String.eqb t0 input) eqn:E; [discriminate|].
    apply String.eqb_neq in E. intros H. destruct (IH H) as [-> N].
    split; [reflexivity|]. intros [? | ?]; auto.
Qed.

(** X1.  [ParseCredentialsType] and [String] are inverse to each other on the
    eight credential types: a string parses exactly when it spells one of them,
    the type parsed then spells the string given, and a string that does not
    parse yields the empty type.  Every type listed in [AllCredentialTypes]
    parses. *)
Theorem ParseCredentialsType_round_trip input :
  (snd (identity.ParseCredentialsType input) = true <->
   In input
     [identity.CredentialsTypePassword; identity.CredentialsTypeOIDC;
      identity.CredentialsTypeTOTP; identity.CredentialsTypeLookup;
      identity.CredentialsTypeWebAuthn; identity.CredentialsTypeCodeAuth;
      identity.CredentialsTypeRecoveryLink; identity.CredentialsTypeRecoveryCode])
  /\ (forall t, identity.ParseCredentialsType input = (t, true) ->
        identity.CredentialsType_String t = input
        /\ identity.ParseCredentialsType (identity.CredentialsType_String t) = (t, true))
  /\ (forall t, identity.ParseCredentialsType input = (t, false) -> t = "")
  /\ (In input identity.AllCredentialTypes ->
      identity.ParseCredentialsType input = (input, true)).
Proof.
  unfold identity.ParseCredentialsType. split; [split|split; [|split]].
  - destruct (identity.parseAmong _ input) as [t b] eqn:E. simpl. intros ->.
    apply parseAmong_ok in E. tauto.
  - intros H. rewrite (parseAmong_in _ _ H). reflexivity.
  - intros t H. pose proof (parseAmong_ok _ _ _ H) as [-> Hin].
    split; [reflexivity|]. exact H.
  - intros t H. apply parseAmong_not in H. tauto.
  - intros H. apply parseAmong_in. unfold identity.AllCredentialTypes in H.
    simpl in *. intuition.
Qed.

Lemma validAAL_eqb aal :
  String.eqb aal identity.NoAuthenticatorAssuranceLevel
  || String.eqb aal identity.AuthenticatorAssuranceLevel1
  || String.eqb aal identity.AuthenticatorAssuranceLevel2 = true <-> validAAL aal.
Proof.
  unfold validAAL. rewrite !orb_true_iff, !String.eqb_eq. tauto.
Qed.

(** X2.  An assurance level survives the way through its nullable form exactly
    when it is one of "aal0", "aal1", "aal2": for these [ToAAL] gives the level
    back, for any other string the nullable form is the zero value and [ToAAL]
    reports no level. *)
Theorem ToAAL_New aal :
  (validAAL aal ->
   identity.ToAAL (identity.NewNullableAuthenticatorAssuranceLevel aal) = (aal, true))
  /\ (~ validAAL aal ->
      identity.NewNullableAuthenticatorAssuranceLevel aal
        = {| identity.String_ := ""; identity.Valid := false |}
      /\ identity.ToAAL (identity.NewNullableAuthenticatorAssuranceLevel aal)
         = ("", false)).
Proof.
  unfold identity.NewNullableAuthenticatorAssuranceLevel. split.
  - intros V. rewrite (proj2 (validAAL_eqb aal) V).
    destruct V as [-> | [-> | ->]]; reflexivity.
  - intros V.
    destruct (_ || _) eqn:E; [apply validAAL_eqb in E; contradiction|].
    split; reflexivity.
Qed.

Lemma ToAAL_New_witness :
  (validAAL "aal1" /\
   identity.ToAAL (identity.NewNullableAuthenticatorAssuranceLevel "aal1")
     = ("aal1", true))
  /\ (~ validAAL "aal3" /\
      identity.ToAAL (identity.NewNullableAuthenticatorAssuranceLevel "aal3")
        = ("", false)).
Proof.
  assert (V : validAAL "aal1") by (right; left; reflexivity).
  assert (N : ~ validAAL "aal3") by (intros [H | [H | H]]; discriminate H).
  split.
  - split; [exact V | exact (proj1 (ToAAL_New "aal1") V)].
  - split; [exact N | exact (proj2 (proj2 (ToAAL_New "aal3") N))].
Defined.

(** X3.  Whatever [ToAAL] reads out of a nullable level is a level that
    [NewNullableAuthenticatorAssuranceLevel] stores back as the same nullable
    value; it reads nothing out of a value that is not valid, whatever its
    string. *)
Theorem New_ToAAL n aal :
  identity.ToAAL n = (aal, true) ->
  validAAL aal /\ identity.NewNullableAuthenticatorAssuranceLevel aal = n.
Proof.
  unfold identity.ToAAL. destruct n as [s v]. simpl.
  destruct v; simpl; [| discriminate].
  destruct (String.eqb s identity.NoAuthenticatorAssuranceLevel) eqn:E0.
  { apply String.eqb_eq in E0. subst. intros [= <-]. split; [left|]; reflexivity. }
  destruct (String.eqb s identity.AuthenticatorAssuranceLevel1) eqn:E1.
  { apply String.eqb_eq in E1. subst. intros [= <-].
    split; [right; left|]; reflexivity. }
  destruct (String.eqb s identity.AuthenticatorAssuranceLevel2) eqn:E2.
  { apply String.eqb_eq in E2. subst. intros [= <-].
    split; [right; right|]; reflexivity. }
  discriminate.
Qed.

Lemma New_ToAAL_witness :
  identity.ToAAL {| identity.String_ := "aal2"; identity.Valid := true |}
    = ("aal2", true)
  /\ identity.NewNullableAuthenticatorAssuranceLevel "aal2"
     = {| identity.String_ := "aal2"; identity.Valid := true |}.
Proof.
  split; [reflexivity|].
  exact (proj2 (New_ToAAL {| identity.String_ := "aal2"; identity.Valid := true |}
                  "aal2" eq_refl)).
Defined.

(* ===================================================================== *)
(** ** Equality of credential maps *)

Lemma DeepEqual_eq x y : identity.DeepEqual x y = true <-> x = y.
Proof.
  destruct x as [l|], y as [l'|]; simpl; try (split; congruence).
  rewrite bool_decide_eq_true. split; congruence.
Qed.

Lemma sameCredentials_eqb x y :
  String.eqb (identity.Config y) (identity.Config x)
  && identity.DeepEqual (identity.Identifiers y) (identity.Identifiers x) = true
  <-> sameCredentials x y.
Proof.
  unfold sameCredentials. rewrite andb_true_iff, String.eqb_eq, DeepEqual_eq.
  split; intros [-> ->]; auto.
Qed.

(** The loop of [CredentialsEqual]: every entry of [b] has its like in [a]. *)
Lemma CredentialsEqual_loop (a b : gmap string identity.Credentials) :
  forallb
    (fun '(k, expect) =>
       match a !! k with
       | None => false
       | Some actual =>
           String.eqb (identity.Config expect) (identity.Config actual)
           && identity.DeepEqual (identity.Identifiers expect)
                (identity.Identifiers actual)
       end)
    (map_to_list b) = true
  <-> forall k y, b !! k = Some y -> exists x, a !! k = Some x /\ sameCredentials x y.
Proof.
  rewrite forallb_forall. split.
  - intros H k y Hk.
    specialize (H (k, y)). simpl in H.
    destruct (a !! k) as [x|] eqn:E.
    + exists x. split; [reflexivity|]. apply sameCredentials_eqb, H.
      apply list_elem_of_In, elem_of_map_to_list, Hk.
    + discriminate H. apply list_elem_of_In, elem_of_map_to_list, Hk.
  - intros H [k y] Hin.
    apply list_elem_of_In, elem_of_map_to_list in Hin.
    destruct (H k y Hin) as (x & -> & S). apply sameCredentials_eqb, S.
Qed.

Lemma agree_dom a b : agree a b -> dom a = dom b.
Proof.
  intros H. apply set_eq. intros k. rewrite !elem_of_dom.
  specialize (H k). destruct (a !! k), (b !! k); try contradiction;
    split; intros [? ?]; eauto; discriminate.
Qed.

Lemma CredentialsEqual_agree a b : identity.CredentialsEqual a b = true <-> agree a b.
Proof.
  unfold identity.CredentialsEqual. split.
  - destruct (Nat.eqb (size a) (size b)) eqn:Sz; simpl; [| discriminate].
    apply Nat.eqb_eq in Sz. intros H.
    assert (L : forall k y, b !! k = Some y ->
                 exists x, a !! k = Some x /\ sameCredentials x y).
    { destruct (Nat.eqb (size a) 0 && Nat.eqb (size b) 0) eqn:Z.
      - apply andb_true_iff in Z. destruct Z as [_ Z]. apply Nat.eqb_eq in Z.
        apply map_size_empty_iff in Z. subst b. intros k y Hk.
        rewrite lookup_empty in Hk. discriminate Hk.
      - apply CredentialsEqual_loop, H. }
    assert (D : dom b = dom a).
    { apply set_subseteq_size_eq.
      - intros k. rewrite !elem_of_dom. intros [y Hy].
        destruct (L k y Hy) as (x & Hx & _). eauto.
      - rewrite !size_dom. lia. }
    intros k. destruct (b !! k) as [y|] eqn:Hb.
    + destruct (L k y Hb) as (x & -> & S). exact S.
    + assert (N : a !! k = None).
      { apply not_elem_of_dom. rewrite <- D. apply not_elem_of_dom, Hb. }
      rewrite N. exact I.
  - intros H. pose proof (agree_dom a b H) as D.
    assert (Sz : size a = size b) by (rewrite <- !size_dom, D; reflexivity).
    rewrite Sz, Nat.eqb_refl. simpl.
    destruct (Nat.eqb (size b) 0 && Nat.eqb (size b) 0); [reflexivity|].
    apply CredentialsEqual_loop. intros k y Hk. specialize (H k).
    rewrite Hk in H. destruct (a !! k) as [x|]; [eauto | contradiction].
Qed.

(** X4.  [CredentialsEqual] holds exactly when the two maps have credentials
    under the same types and, under each type, the same configuration and the
    same identifiers (a nil list of identifiers being told from an empty one).
    That the loop ranges over the second map only loses nothing: the sizes are
    compared first. *)
Theorem CredentialsEqual_pointwise a b :
  identity.CredentialsEqual a b = true <->
  dom a = dom b
  /\ forall k x y, a !! k = Some x -> b !! k = Some y ->
       identity.Config x = identity.Config y
       /\ identity.Identifiers x = identity.Identifiers y.
Proof.
  rewrite CredentialsEqual_agree. split.
  - intros H. split; [apply agree_dom, H|].
    intros k x y Hx Hy. specialize (H k). rewrite Hx, Hy in H. exact H.
  - intros [D H] k.
    destruct (a !! k) as [x|] eqn:Hx, (b !! k) as [y|] eqn:Hy; auto.
    + exact (H k x y Hx Hy).
    + apply not_elem_of_dom in Hy. rewrite <- D in Hy.
      apply Hy, elem_of_dom. eauto.
    + apply not_elem_of_dom in Hx. rewrite D in Hx.
      apply Hx, elem_of_dom. eauto.
Qed.

(** X5.  [CredentialsEqual] is an equivalence on credential maps: it holds of a
    map and itself, does not depend on the order of its arguments, and carries
    over from two pairs to the pair of the ends. *)
Theorem CredentialsEqual_equivalence a b c :
  identity.CredentialsEqual a a = true
  /\ identity.CredentialsEqual a b = identity.CredentialsEqual b a
  /\ (identity.CredentialsEqual a b = true ->
      identity.CredentialsEqual b c = true ->
      identity.CredentialsEqual a c = true).
Proof.
  assert (S : forall u v, agree u v -> agree v u).
  { intros u v H k. specialize (H k). unfold sameCredentials in *.
    destruct (u !! k), (v !! k); intuition congruence. }
  split; [| split].
  - apply CredentialsEqual_agree. intros k. unfold sameCredentials.
    destruct (a !! k); auto.
  - destruct (identity.CredentialsEqual a b) eqn:E1,
             (identity.CredentialsEqual b a) eqn:E2; auto.
    + apply CredentialsEqual_agree, S, CredentialsEqual_agree in E1. congruence.
    + apply CredentialsEqual_agree, S, CredentialsEqual_agree in E2. congruence.
  - rewrite !CredentialsEqual_agree. intros H1 H2 k.
    specialize (H1 k). specialize (H2 k). unfold sameCredentials in *.
    destruct (a !! k), (b !! k), (c !! k); intuition congruence.
Qed.

(** X6.  What [CredentialsEqual] does not look at: credentials that differ in
    version, type, row identifiers or dates only count as equal. *)
Theorem CredentialsEqual_ignores (touch : identity.Credentials -> identity.Credentials) a :
  (forall x, identity.Config (touch x) = identity.Config x
             /\ identity.Identifiers (touch x) = identity.Identifiers x) ->
  identity.CredentialsEqual a (touch <$> a) = true.
Proof.
  intros T. apply CredentialsEqual_agree. intros k. rewrite lookup_fmap.
  destruct (a !! k) as [x|]; simpl; [| exact I].
  destruct (T x) as [T1 T2]. split; congruence.
Qed.

Lemma CredentialsEqual_ignores_witness :
  (forall x,
     identity.Config (Sample.bumpVersion x) = identity.Config x
     /\ identity.Identifiers (Sample.bumpVersion x) = identity.Identifiers x)
  /\ identity.CredentialsEqual Sample.credentials1
       (Sample.bumpVersion <$> Sample.credentials1) = true.
Proof.
  assert (T : forall x,
     identity.Config (Sample.bumpVersion x) = identity.Config x
     /\ identity.Identifiers (Sample.bumpVersion x) = identity.Identifiers x)
    by (intros x; split; reflexivity).
  split; [exact T|].
  exact (CredentialsEqual_ignores Sample.bumpVersion Sample.credentials1 T).
Defined.

(* ===================================================================== *)
(** ** The hooks after login and registration by code *)

Lemma verifyAddress_runs address vas t res :
  hook.runs (hook.verifyAddress address vas) t res <-> marksOnly address vas t res.
Proof.
  unfold marksOnly, firstUnverified.
  induction vas as [| va vas IH]; simpl.
  - split; intros [-> ->]; auto.
  - destruct (negb (identity.va_Verified va)
              && String.eqb address (identity.va_Value va)); [| exact IH].
    simpl. split.
    + intros (u & t' & -> & -> & ->). reflexivity.
    + intros ->. exists res, []. auto.
Qed.

Lemma firstUnverified_some address vas va :
  firstUnverified address vas = Some va ->
  In va vas /\ identity.va_Verified va = false /\ identity.va_Value va = address.
Proof.
  unfold firstUnverified. intros H. apply find_some in H. destruct H as [Hin H].
  apply andb_true_iff in H. destruct H as [H1 H2].
  apply negb_true_iff in H1. apply String.eqb_eq in H2. auto.
Qed.

Lemma firstUnverified_none address vas :
  firstUnverified address vas = None ->
  forall va, In va vas -> identity.va_Value va = address ->
             identity.va_Verified va = true.
Proof.
  unfold firstUnverified. intros H va Hin Hv.
  pose proof (find_none _ _ H va Hin) as N. simpl in N.
  rewrite Hv, String.eqb_refl, andb_true_r in N.
  apply negb_false_iff in N. exact N.
Qed.

(** X7.  The login hook.  For a flow whose active method is not "code" it makes
    no call and reports no error.  Otherwise it asks the login code persister
    for the code used by the flow; a failure there is the hook's error and no
    address is touched.  With the code at hand it makes at most one call of the
    identity pool: for the first address of the session's identity that is not
    verified and carries the code's address, handed over verified, with status
    "completed" and its other fields (the time of verification among them) as
    they were; the pool's answer is the hook's.  When every address that carries
    the code's address is verified already, no call is made. *)
Theorem ExecuteLoginPostHook_marks f s t res :
  hook.runs (hook.ExecuteLoginPostHook f s) t res ->
  (login.Active f <> identity.CredentialsTypeCodeAuth /\ t = [] /\ res = None)
  \/ (login.Active f = identity.CredentialsTypeCodeAuth /\
      exists c rest,
        t = (hook.GetUsedLoginCode (login.ID f), hook.RLogin c) :: rest /\
        match c with
        | inl err => rest = [] /\ res = Some err
        | inr loginCode =>
            let vas := identity.VerifiableAddresses (session.Identity s) in
            let address := hook.login_Address loginCode in
            marksOnly address vas rest res
            /\ (forall a u, In (hook.UpdateVerifiableAddress a, u) rest ->
                  exists va, In va vas
                    /\ identity.va_Verified va = false
                    /\ identity.va_Value va = address
                    /\ a = hook.completed va
                    /\ identity.va_VerifiedAt a = identity.va_VerifiedAt va)
            /\ ((forall va, In va vas -> identity.va_Value va = address ->
                            identity.va_Verified va = true) ->
                rest = [] /\ res = None)
        end).
Proof.
  unfold hook.ExecuteLoginPostHook.
  destruct (String.eqb (login.Active f) identity.CredentialsTypeCodeAuth) eqn:E; simpl.
  2:{ apply String.eqb_neq in E. intros [-> ->]. left. auto. }
  apply String.eqb_eq in E. intros (c & rest & -> & H). right.
  split; [exact E|]. exists c, rest. split; [reflexivity|].
  destruct c as [err | loginCode]; [exact H|].
  apply verifyAddress_runs in H. cbv zeta. split; [exact H|].
  unfold marksOnly in *.
  destruct (firstUnverified _ _) as [va|] eqn:F.
  - apply firstUnverified_some in F. destruct F as (Hin & Hv & Ha). subst rest.
    split.
    + intros a u [[= <- <-] | []]. exists va. auto 10.
    + intros All. rewrite (All va Hin Ha) in Hv. discriminate Hv.
  - destruct H as [-> ->]. split; [intros a u []| auto].
Qed.

(** In the scenario: the code was sent to the identity's only address, not
    yet verified; the hook hands this address to the pool. *)
Lemma ExecuteLoginPostHook_marks_witness :
  hook.runs (hook.ExecuteLoginPostHook Sample.loginFlow Sample.loginSession)
    Sample.loginRun None
  /\ ((login.Active Sample.loginFlow <> identity.CredentialsTypeCodeAuth
       /\ Sample.loginRun = [] /\ @None Err = None)
      \/ (login.Active Sample.loginFlow = identity.CredentialsTypeCodeAuth /\
          exists c rest,
            Sample.loginRun
            = (hook.GetUsedLoginCode (login.ID Sample.loginFlow), hook.RLogin c) :: rest)).
Proof.
  assert (H : hook.runs (hook.ExecuteLoginPostHook Sample.loginFlow Sample.loginSession)
                Sample.loginRun None).
  { cbn. eexists _, _. split; [reflexivity|]. cbn.
    eexists _, _. split; [reflexivity|]. split; reflexivity. }
  split; [exact H|].
  destruct (ExecuteLoginPostHook_marks _ _ _ _ H) as [L | (A & c & rest & E & _)].
  - left. exact L.
  - right. split; [exact A|]. exists c, rest. exact E.
Defined.

(** X8.  The hook after registration does the same with the registration code
    persister: no call for a flow whose active method is not "code", the
    persister's failure handed back, and otherwise at most one call of the
    identity pool, for the first address not yet verified that carries the
    code's address. *)
Theorem ExecutePostRegistrationPostPersistHook_marks a s t res :
  hook.runs (hook.ExecutePostRegistrationPostPersistHook a s) t res ->
  (registration.Active a <> identity.CredentialsTypeCodeAuth /\ t = [] /\ res = None)
  \/ (registration.Active a = identity.CredentialsTypeCodeAuth /\
      exists c rest,
        t = (hook.GetUsedRegistrationCode (registration.ID a), hook.RRegistration c)
            :: rest /\
        match c with
        | inl err => rest = [] /\ res = Some err
        | inr code =>
            let vas := identity.VerifiableAddresses (session.Identity s) in
            let address := hook.registration_Address code in
            marksOnly address vas rest res
            /\ (forall va u,
                  In (hook.UpdateVerifiableAddress va, u) rest ->
                  identity.va_Verified va = true
                  /\ identity.va_Status va = identity.VerifiableAddressStatusCompleted
                  /\ identity.va_Value va = address
                  /\ exists old, In old vas /\ identity.va_Verified old = false
                                 /\ identity.va_ID old = identity.va_ID va)
        end).
Proof.
  unfold hook.ExecutePostRegistrationPostPersistHook.
  destruct (String.eqb (registration.Active a) identity.CredentialsTypeCodeAuth) eqn:E;
    simpl.
  2:{ apply String.eqb_neq in E. intros [-> ->]. left. auto. }
  apply String.eqb_eq in E. intros (c & rest & -> & H). right.
  split; [exact E|]. exists c, rest. split; [reflexivity|].
  destruct c as [err | code]; [exact H|].
  apply verifyAddress_runs in H. cbv zeta. split; [exact H|].
  unfold marksOnly in H.
  destruct (firstUnverified _ _) as [old|] eqn:F.
  - apply firstUnverified_some in F. destruct F as (Hin & Hv & Ha). subst rest.
    intros va u [[= <- <-] | []]. simpl. repeat split; auto. exists old. auto.
  - destruct H as [-> ->]. intros va u [].
Qed.

Lemma ExecutePostRegistrationPostPersistHook_marks_witness :
  hook.runs
    (hook.ExecutePostRegistrationPostPersistHook Sample.registrationFlow
       Sample.loginSession)
    Sample.registrationRun None
  /\ ((registration.Active Sample.registrationFlow <> identity.CredentialsTypeCodeAuth
       /\ Sample.registrationRun = [] /\ @None Err = None)
      \/ (registration.Active Sample.registrationFlow = identity.CredentialsTypeCodeAuth /\
          exists c rest,
            Sample.registrationRun
            = (hook.GetUsedRegistrationCode (registration.ID Sample.registrationFlow),
               hook.RRegistration c) :: rest)).
Proof.
  assert (H : hook.runs
                (hook.ExecutePostRegistrationPostPersistHook Sample.registrationFlow
                   Sample.loginSession)
                Sample.registrationRun None).
  { cbn. eexists _, _. split; [reflexivity|]. cbn.
    eexists _, _. split; [reflexivity|]. split; reflexivity. }
  split; [exact H|].
  destruct (ExecutePostRegistrationPostPersistHook_marks _ _ _ _ H)
    as [L | (A & c & rest & E & _)].
  - left. exact L.
  - right. split; [exact A|]. exists c, rest. exact E.
Defined.

(* ===================================================================== *)
(** ** The anti-forgery gate, by type of flow *)

Lemma hasCookie_false r : hasCookie r = false <-> onlyCloudflareCookies r.
Proof.
  unfold hasCookie, onlyCloudflareCookies.
  induction (Cookies r) as [| c cs IH]; simpl.
  - split; [intros _; constructor | reflexivity].
  - rewrite orb_false_iff, negb_false_iff, IH. split.
    + intros [H1 H2]. constructor; assumption.
    + intros H. apply Forall_cons in H. exact H.
Qed.

(** X9.  [EnsureCSRF] on a flow of type API makes no call: the token submitted
    is never looked at.  With the enforcement disabled every request passes.
    Otherwise a request passes exactly when it carries no Origin header and no
    cookie other than Cloudflare's ("__cf..."); an Origin header is reported
    first, a cookie next. *)
Theorem EnsureCSRF_api r d actual t res :
  behaves (EnsureCSRF r flow.TypeAPI d actual) t res ->
  t = []
  /\ (res = Some None <->
      d = true \/ (Header_Origin r = "" /\ onlyCloudflareCookies r))
  /\ (d = false -> Header_Origin r <> "" ->
      res = Some (Some ErrOriginHeaderNeedsBrowserFlow))
  /\ (d = false -> Header_Origin r = "" -> ~ onlyCloudflareCookies r ->
      res = Some (Some ErrCookieHeaderNeedsBrowserFlow)).
Proof.
  unfold EnsureCSRF.
  change (String.eqb flow.TypeAPI flow.TypeAPI) with true. cbv iota.
  destruct d.
  { intros [-> ->]. split; [reflexivity|]. split; [split; auto|].
    split; intros; discriminate. }
  destruct (String.eqb (Header_Origin r) "") eqn:O; cbn [negb].
  - apply String.eqb_eq in O.
    destruct (hasCookie r) eqn:C; intros [-> ->]; (split; [reflexivity|]).
    + assert (N : ~ onlyCloudflareCookies r).
      { intros K. apply hasCookie_false in K. congruence. }
      split; [split; [discriminate | intros [? | [_ ?]]; [discriminate | contradiction]]|].
      split; [contradiction | reflexivity].
    + apply hasCookie_false in C.
      split; [split; auto|]. split; [contradiction | intros; contradiction].
  - apply String.eqb_neq in O. intros [-> ->]. split; [reflexivity|].
    split; [split; [discriminate | intros [? | [? _]]; [discriminate | contradiction]]|].
    split; [reflexivity | intros; contradiction].
Qed.

Lemma EnsureCSRF_api_witness :
  behaves (EnsureCSRF Sample.originRequest flow.TypeAPI false "") []
    (Some (Some ErrOriginHeaderNeedsBrowserFlow))
  /\ (Some (Some ErrOriginHeaderNeedsBrowserFlow) = Some None <->
      false = true
      \/ (Header_Origin Sample.originRequest = ""
          /\ onlyCloudflareCookies Sample.originRequest)).
Proof.
  assert (H : behaves (EnsureCSRF Sample.originRequest flow.TypeAPI false "") []
                (Some (Some ErrOriginHeaderNeedsBrowserFlow)))
    by (split; reflexivity).
  split; [exact H|].
  exact (proj1 (proj2 (EnsureCSRF_api Sample.originRequest false "" [] _ H))).
Defined.

(** X10.  [EnsureCSRF] on a flow of any other type (a browser flow, or a type it
    does not know) always generates the token of the request and verifies the
    submitted one against it; neither the enforcement setting nor the headers of
    the request are looked at.  It passes exactly when the verification
    succeeds; when it fails, the error is the reason asked of [CSRFErrorReason]. *)
Theorem EnsureCSRF_token r ft d actual t res :
  ft <> flow.TypeAPI ->
  behaves (EnsureCSRF r ft d actual) t res ->
  exists token,
    (t = [(GenerateCSRFToken r, AString token);
          (VerifyToken token actual, ABool true)]
     /\ res = Some None)
    \/ exists reason,
         t = [(GenerateCSRFToken r, AString token);
              (VerifyToken token actual, ABool false);
              (CSRFErrorReason r, AErr reason)]
         /\ res = Some (Some reason).
Proof.
  intros Ty. unfold EnsureCSRF. apply String.eqb_neq in Ty. rewrite Ty.
  cbn [bind call]. intros (token & t1 & -> & ok & t2 & -> & H).
  exists token. destruct ok; cbn [negb bind call] in H.
  - destruct H as [-> ->]. left. auto.
  - destruct H as (reason & t3 & -> & -> & ->). right. exists reason. auto.
Qed.

Lemma EnsureCSRF_token_witness :
  flow.TypeBrowser <> flow.TypeAPI
  /\ behaves (EnsureCSRF Sample.forgedRequest flow.TypeBrowser true "forged")
       [(GenerateCSRFToken Sample.forgedRequest, AString "tok");
        (VerifyToken "tok" "forged", ABool false);
        (CSRFErrorReason Sample.forgedRequest, AErr (OtherError "refused"))]
       (Some (Some (OtherError "refused")))
  /\ exists token,
       ([(GenerateCSRFToken Sample.forgedRequest, AString "tok");
         (VerifyToken "tok" "forged", ABool false);
         (CSRFErrorReason Sample.forgedRequest, AErr (OtherError "refused"))]
        = [(GenerateCSRFToken Sample.forgedRequest, AString token);
           (VerifyToken token "forged", ABool true)]
        /\ Some (Some (OtherError "refused")) = Some None)
       \/ exists reason,
            [(GenerateCSRFToken Sample.forgedRequest, AString "tok");
             (VerifyToken "tok" "forged", ABool false);
             (CSRFErrorReason Sample.forgedRequest, AErr (OtherError "refused"))]
            = [(GenerateCSRFToken Sample.forgedRequest, AString token);
               (VerifyToken token "forged", ABool false);
               (CSRFErrorReason Sample.forgedRequest, AErr reason)]
            /\ Some (Some (OtherError "refused")) = Some (Some reason).
Proof.
  assert (Ty : flow.TypeBrowser <> flow.TypeAPI) by discriminate.
  assert (H : behaves (EnsureCSRF Sample.forgedRequest flow.TypeBrowser true "forged")
       [(GenerateCSRFToken Sample.forgedRequest, AString "tok");
        (VerifyToken "tok" "forged", ABool false);
        (CSRFErrorReason Sample.forgedRequest, AErr (OtherError "refused"))]
       (Some (Some (OtherError "refused")))).
  { unfold EnsureCSRF. cbn.
    do 3 (eexists _, _; split; [reflexivity|]). split; reflexivity. }
  split; [exact Ty|]. split; [exact H|].
  exact (EnsureCSRF_token _ _ _ _ _ _ Ty H).
Defined.

(* ===================================================================== *)
(** ** [Recover]: the ways out before a flow is touched *)

(** X11.  [Recover] makes no call at all exactly when the flow's active method
    is not "code"; it then answers [ErrStrategyNotResponsible] and hands the
    flow back untouched.  On a code flow the first call decodes the request, and
    when the decoding fails its error is handed back after this single call, the
    flow again untouched. *)
Theorem Recover_not_responsible r f t res :
  behaves (Recover r f) t res ->
  (t = [] <-> isCodeFlow f = false)
  /\ (isCodeFlow f = false -> res = Some (f, Some ErrStrategyNotResponsible))
  /\ (isCodeFlow f = true ->
      exists d rest, t = (DecodeRecovery r, APayload d) :: rest
        /\ forall err, d = inl err -> rest = [] /\ res = Some (f, Some err)).
Proof.
  intros H. apply Recover_cases in H.
  destruct H as [(CF & -> & ->) | (CF & d & t1 & -> & H)].
  - split; [tauto|]. split; [auto | congruence].
  - split; [split; [discriminate | congruence]|]. split; [congruence|].
    intros _. exists d, t1. split; [reflexivity|]. intros err ->. exact H.
Qed.

Lemma Recover_not_responsible_witness :
  behaves (Recover Sample.emailRequest Sample.F1link) []
    (Some (Sample.F1link, Some ErrStrategyNotResponsible))
  /\ (@nil Event = [] <-> isCodeFlow Sample.F1link = false).
Proof.
  assert (H : behaves (Recover Sample.emailRequest Sample.F1link) []
                (Some (Sample.F1link, Some ErrStrategyNotResponsible)))
    by (split; reflexivity).
  split; [exact H|].
  exact (proj1 (Recover_not_responsible _ _ _ _ H)).
Defined.

(** X12.  A client that is signed in cannot ask for a recovery code.  In every
    run of [Recover] in which the session manager finds a session for the
    request, the run ends right there: the client is told so (an error for a
    JSON client, a redirect otherwise), [Recover] answers
    [ErrCompletedByStrategy], and nothing stored is changed, no code is sent and
    no flow is created. *)
Theorem Recover_authenticated r f t res s :
  behaves (Recover r f) t res ->
  In (FetchFromRequest r, ASession (inr s)) t ->
  (exists pre json,
     t = pre ++ [(FetchFromRequest r, ASession (inr s));
                 (IsJSONRequest r, ABool json);
                 (if json then RespondWithJSONErrorOnAuthenticated r ErrAlreadyLoggedIn
                  else RedirectOnAuthenticated r, AUnit)])
  /\ res = Some (resetFlow f, Some ErrCompletedByStrategy)
  /\ Forall (callsNo mutates) t
  /\ Forall (callsNo isNewFlow) t.
Proof.
  intros H Hin. apply Recover_cases in H.
  destruct H as [(_ & -> & _) | (_ & d & t1 & -> & H)]; [destruct Hin|].
  destruct d as [err | body].
  { destruct H as [-> _]. in_trace Hin. }
  destruct H as (tc & csrf & t2 & -> & Hc & H).
  seen csrfGate_calls Hc.
  destruct csrf as [err|].
  { destruct H as (e & He & ->). seen retryRecoveryFlowWithError_calls He.
    in_trace Hin. }
  destruct (submitsCode f body).
  { destruct H as (tg & gate & t3 & -> & Hg & H).
    seen MethodEnabledAndAllowed_calls Hg.
    destruct gate as [err|].
    - destruct H as [-> _]. in_trace Hin.
    - seen recoveryUseCode_calls H. in_trace Hin. }
  destruct H as (sess & t3 & -> & H).
  destruct sess as [serr | s'].
  { destruct H as (tg & gate & t4 & -> & Hg & H).
    seen MethodEnabledAndAllowed_calls Hg.
    destruct gate as [err|].
    - destruct H as [-> _]. in_trace Hin.
    - destruct H as (id & fetched & t5 & -> & H).
      destruct fetched as [err | fl].
      + destruct H as [-> _]. in_trace Hin.
      + destruct H as (valid & t6 & -> & H).
        destruct valid as [err|].
        * destruct H as (token & -> & _). in_trace Hin.
        * destruct H as (e & He & _). seen dispatchOnState_calls He.
          in_trace Hin. }
  destruct H as (json & -> & ->).
  assert (s' = s) as ->.
  { in_trace Hin. injection Hin as ->. reflexivity. }
  split.
  { exists ((DecodeRecovery r, APayload (inr body)) :: tc), json.
    rewrite <- app_comm_cons. reflexivity. }
  split; [reflexivity|].
  split; unfold callsNo; cbn; forall_trace; destruct json; reflexivity.
Qed.

Lemma stepAuthed_run :
  run Mem.impl (Recover Sample.authedRequest Sample.F1passed) Sample.w2
  = Sample.stepAuthed.
Proof. vm_compute. reflexivity. Qed.

Ltac here := repeat first [left; reflexivity | right].

(** In the scenario: the client that holds the session issued by the
    recovery submits the address again. *)
Lemma Recover_authenticated_witness :
  behaves (Recover Sample.authedRequest Sample.F1passed)
    (snd Sample.stepAuthed) (fst (fst Sample.stepAuthed))
  /\ In (FetchFromRequest Sample.authedRequest, ASession (inr Sample.issuedSession))
       (snd Sample.stepAuthed)
  /\ fst (fst Sample.stepAuthed)
     = Some (resetFlow Sample.F1passed, Some ErrCompletedByStrategy)
  /\ Forall (callsNo mutates) (snd Sample.stepAuthed).
Proof.
  assert (H : behaves (Recover Sample.authedRequest Sample.F1passed)
                (snd Sample.stepAuthed) (fst (fst Sample.stepAuthed)))
    by exact (run_behaves_eq _ _ _ _ stepAuthed_run).
  assert (I : In (FetchFromRequest Sample.authedRequest,
                  ASession (inr Sample.issuedSession)) (snd Sample.stepAuthed))
    by (cbn; here).
  split; [exact H|]. split; [exact I|].
  destruct (Recover_authenticated _ _ _ _ _ H I) as (_ & R & M & _).
  split; [exact R | exact M].
Defined.

(* ===================================================================== *)
(** ** [Recover]: a flow that cannot be fetched or is not valid *)

(** X13.  When the flow named by the submission cannot be fetched, or the flow
    fetched is not valid (it expired, say), [Recover] hands the error back as it
    is.  No new flow is created, no response is written and nothing stored is
    changed: unlike a failure of the anti-forgery gate, this failure is left to
    the caller. *)
Theorem Recover_flow_unavailable r f t res err :
  behaves (Recover r f) t res ->
  (exists id, In (GetRecoveryFlow id, AFlow (inl err)) t)
  \/ (exists fl, In (FlowValid fl, AError (Some err)) t) ->
  res = Some (resetFlow f, Some err)
  /\ Forall (callsNo mutates) t
  /\ Forall (callsNo isNewFlow) t
  /\ Forall (callsNo responds) t.
Proof.
  intros H Hin. apply Recover_cases in H.
  destruct H as [(_ & -> & _) | (_ & d & t1 & -> & H)].
  { destruct Hin as [[? []] | [? []]]. }
  destruct d as [e0 | body].
  { destruct H as [-> _]. destruct Hin as [[? Hin] | [? Hin]]; in_trace Hin. }
  destruct H as (tc & csrf & t2 & -> & Hc & H).
  seen csrfGate_calls Hc.
  destruct csrf as [e0|].
  { destruct H as (e & He & ->). seen retryRecoveryFlowWithError_calls He.
    destruct Hin as [[? Hin] | [? Hin]]; in_trace Hin. }
  destruct (submitsCode f body).
  { destruct H as (tg & gate & t3 & -> & Hg & H).
    seen MethodEnabledAndAllowed_calls Hg.
    destruct gate as [e0|].
    - destruct H as [-> _]. destruct Hin as [[? Hin] | [? Hin]]; in_trace Hin.
    - seen recoveryUseCode_calls H.
      destruct Hin as [[? Hin] | [? Hin]]; in_trace Hin. }
  destruct H as (sess & t3 & -> & H).
  destruct sess as [serr | s'].
  2:{ destruct H as (json & -> & ->).
      destruct Hin as [[? Hin] | [? Hin]]; in_trace Hin;
        destruct json; discriminate Hin. }
  destruct H as (tg & gate & t4 & -> & Hg & H).
  seen MethodEnabledAndAllowed_calls Hg.
  destruct gate as [e0|].
  { destruct H as [-> _]. destruct Hin as [[? Hin] | [? Hin]]; in_trace Hin. }
  destruct H as (id & fetched & t5 & -> & H).
  destruct fetched as [e0 | fl].
  { destruct H as [-> ->].
    assert (e0 = err) as ->.
    { destruct Hin as [[? Hin] | [? Hin]]; in_trace Hin.
      injection Hin as _ ->. reflexivity. }
    split; [reflexivity|].
    repeat split; unfold callsNo; cbn; forall_trace. }
  destruct H as (valid & t6 & -> & H).
  destruct valid as [e0|].
  { destruct H as (token & -> & ->).
    assert (e0 = err) as ->.
    { destruct Hin as [[? Hin] | [? Hin]]; in_trace Hin.
      injection Hin as _ ->. reflexivity. }
    split; [reflexivity|].
    repeat split; unfold callsNo; cbn; forall_trace. }
  destruct H as (e & He & _). seen dispatchOnState_calls He.
  destruct Hin as [[? Hin] | [? Hin]]; in_trace Hin.
Qed.

Lemma stepStray_run :
  run Mem.impl (Recover Sample.strayRequest Sample.F1) Sample.w0 = Sample.stepStray.
Proof. vm_compute. reflexivity. Qed.

(** In the scenario: the submission names flow 9, which the store does not
    hold. *)
Lemma Recover_flow_unavailable_witness :
  behaves (Recover Sample.strayRequest Sample.F1)
    (snd Sample.stepStray) (fst (fst Sample.stepStray))
  /\ In (GetRecoveryFlow 9%N, AFlow (inl (OtherError "no such flow")))
       (snd Sample.stepStray)
  /\ fst (fst Sample.stepStray)
     = Some (resetFlow Sample.F1, Some (OtherError "no such flow"))
  /\ Forall (callsNo responds) (snd Sample.stepStray).
Proof.
  assert (H : behaves (Recover Sample.strayRequest Sample.F1)
                (snd Sample.stepStray) (fst (fst Sample.stepStray)))
    by exact (run_behaves_eq _ _ _ _ stepStray_run).
  assert (I : In (GetRecoveryFlow 9%N, AFlow (inl (OtherError "no such flow")))
                (snd Sample.stepStray))
    by (cbn; here).
  split; [exact H|]. split; [exact I|].
  destruct (Recover_flow_unavailable _ _ _ _ _ H (or_introl (ex_intro _ 9%N I)))
    as (R & _ & _ & W).
  split; [exact R | exact W].
Defined.

(* ===================================================================== *)
(** ** When a handler returns without error *)

Ltac yield_fact :=
  unfold anyEvent, failed in *; simpl in *;
  first [exact I | discriminate | congruence | tauto | intuition congruence].

Ltac yield_step :=
  lazymatch goal with
  | |- spec _ _ (Ret _) => apply spec_ret; yield_fact
  | |- spec _ _ (Panic _) => apply spec_panic
  | |- spec ?P' ?R' (Vis ?o ?k) =>
      apply (spec_vis P' R' o k); [intros ?; exact I | intros ?]
  | |- spec _ _ (match ?x with _ => _ end) => destruct x eqn:?
  | |- spec _ _ (bind (match ?x with _ => _ end) _) => destruct x eqn:?
  | |- spec _ _ (bind _ _) => progress cbn [bind call]
  end.

Lemma retryWith_failed r f e : spec anyEvent failed (retryWith r f e).
Proof.
  unfold retryWith. eapply spec_bind with (R1 := fun _ => True).
  - apply spec_always; [| auto]. intros t res _.
    apply Forall_forall. intros; exact I.
  - intros a _. apply spec_ret. discriminate.
Qed.

Lemma HandleRecoveryErrorOn_failed r f body err :
  spec anyEvent failed (HandleRecoveryErrorOn r f body err).
Proof.
  unfold HandleRecoveryErrorOn, HandleRecoveryError. repeat yield_step.
Qed.

Ltac yield_step' :=
  lazymatch goal with
  | |- spec _ _ (retryWith _ _ _) => apply retryWith_failed
  | |- spec _ _ (HandleRecoveryErrorOn _ _ _ _) => apply HandleRecoveryErrorOn_failed
  | |- _ => yield_step
  end.

Lemma recoveryIssueSession_failed r f id :
  spec anyEvent failed (recoveryIssueSession r f id).
Proof. unfold recoveryIssueSession. repeat yield_step'. Qed.

(** [recoveryUseCode] ends without error in one case only: the code was not
    found and the flow, with the message saying so, was persisted. *)
Lemma recoveryUseCode_ok r body f t g :
  behaves (recoveryUseCode r body f) t (Some (g, None)) ->
  t = [(UseRecoveryCode (recovery.ID f) (Code body), ACode (inl ErrCodeNotFound));
       (UpdateRecoveryFlow (refusedFlow f), AError None)]
  /\ g = refusedFlow f.
Proof.
  unfold recoveryUseCode. cbn [bind call]. intros (c & t1 & -> & H).
  assert (N : forall p t, spec anyEvent failed p -> ~ behaves p t (Some (g, None))).
  { intros p t' Hp Hb. apply (spec_result _ _ _ _ _ Hp Hb). reflexivity. }
  destruct c as [err | code].
  - assert (E : err = ErrCodeNotFound).
    { destruct err; try reflexivity;
        exfalso; exact (N _ _ (retryWith_failed _ _ _) H). }
    subst err. cbn [bind call] in H. destruct H as (u & t2 & -> & H).
    destruct u as [err|]; [exfalso; exact (N _ _ (retryWith_failed _ _ _) H)|].
    destruct H as [-> [= E]]. subst g. split; reflexivity.
  - exfalso. cbn [bind call] in H. destruct H as (i & t2 & -> & H).
    destruct i as [err | recovered];
      [exact (N _ _ (HandleRecoveryErrorOn_failed _ _ _ _) H)|].
    apply behaves_bind_inv in H.
    destruct H as [(ta & [f' u] & tb & -> & _ & H) | [_ [=]]].
    destruct u as [err|].
    + exact (N _ _ (HandleRecoveryErrorOn_failed _ _ _ _) H).
    + exact (N _ _ (recoveryIssueSession_failed _ _ _) H).
Qed.

(** [dispatchOnState] ends without error only through the address step. *)
Lemma dispatchOnState_ok r fl body t :
  behaves (dispatchOnState r fl body) t (Some None) ->
  exists g, behaves (recoveryHandleFormSubmission r fl body) t (Some (g, None)).
Proof.
  unfold dispatchOnState.
  destruct (String.eqb (recovery.State fl) flow.StateChooseMethod
            || String.eqb (recovery.State fl) flow.StateEmailSent).
  - intros H. apply behaves_bind_inv in H.
    destruct H as [(ta & [g e] & tb & -> & Ha & [-> [= ->]]) | [_ [=]]].
    exists g. rewrite app_nil_r. exact Ha.
  - destruct (String.eqb (recovery.State fl) flow.StatePassedChallenge);
      intros H; apply behaves_bind_inv in H;
      destruct H as [(ta & e & tb & -> & _ & [_ [=]]) | [_ [=]]].
Qed.

(** X14.  [Recover] answers without error in two cases only, and in both the
    last call of the run is an update of a stored flow that the persister
    accepted; no response is written and no flow is created.  Either the code
    submitted was not found: the flow handed back is the one persisted, with the
    message saying so.  Or an address was submitted: the flow persisted is the
    one fetched for the submission, now in state EmailSent, while the flow
    handed back is the one handed in, its messages reset. *)
Theorem Recover_nil r f t g :
  behaves (Recover r f) t (Some (g, None)) ->
  exists pre h,
    t = pre ++ [(UpdateRecoveryFlow h, AError None)]
    /\ Forall (callsNo responds) t
    /\ Forall (callsNo isNewFlow) t
    /\ ((g = h /\ h = refusedFlow (resetFlow f)
         /\ exists code,
              In (UseRecoveryCode (recovery.ID f) code, ACode (inl ErrCodeNotFound)) pre)
        \/ (g = resetFlow f /\ recovery.State h = flow.StateEmailSent
            /\ exists id fl,
                 In (GetRecoveryFlow id, AFlow (inr fl)) pre
                 /\ recovery.ID h = recovery.ID fl)).
Proof.
  intros H. apply Recover_cases in H.
  destruct H as [(_ & _ & [=]) | (_ & d & t1 & -> & H)].
  destruct d as [err | body]; [destruct H as [_ [=]]|].
  destruct H as (tc & csrf & t2 & -> & Hc & H).
  seen csrfGate_calls Hc.
  destruct csrf as [err|]; [destruct H as (e & _ & [=])|].
  destruct (submitsCode f body).
  { destruct H as (tg & gate & t3 & -> & Hg & H).
    seen MethodEnabledAndAllowed_calls Hg.
    destruct gate as [err|]; [destruct H as [_ [=]]|].
    apply recoveryUseCode_ok in H. destruct H as [-> ->].
    exists ((DecodeRecovery r, APayload (inr body)) :: tc ++ tg
            ++ [(UseRecoveryCode (recovery.ID (resetFlow f)) (Code body),
                 ACode (inl ErrCodeNotFound))]),
           (refusedFlow (resetFlow f)).
    split; [repeat (rewrite <- app_comm_cons || rewrite <- app_assoc); reflexivity|].
    split; [unfold callsNo; cbn; forall_trace|].
    split; [unfold callsNo; cbn; forall_trace|].
    left. split; [reflexivity|]. split; [reflexivity|].
    exists (Code body). right. apply in_or_app. right. apply in_or_app. right.
    left. reflexivity. }
  destruct H as (sess & t3 & -> & H).
  destruct sess as [serr | s']; [| destruct H as (json & _ & [=])].
  destruct H as (tg & gate & t4 & -> & Hg & H).
  seen MethodEnabledAndAllowed_calls Hg.
  destruct gate as [err|]; [destruct H as [_ [=]]|].
  destruct H as (id & fetched & t5 & -> & H).
  destruct fetched as [err | fl]; [destruct H as [_ [=]]|].
  destruct H as (valid & t6 & -> & H).
  destruct valid as [err|]; [destruct H as (token & _ & [=])|].
  destruct H as (e & He & [= -> <-]).
  apply dispatchOnState_ok in He. destruct He as (g' & He).
  apply recoveryHandleFormSubmission_ok in He.
  destruct He as (_ & dis & tc' & s & pub & token & -> & Hc' & _ & ->).
  seen EnsureCSRF_calls Hc'.
  exists ((DecodeRecovery r, APayload (inr body)) :: tc
          ++ (FetchFromRequest r, ASession (inl serr)) :: tg
          ++ (ParseUUID (Flow body), AUUID id)
          :: (GetRecoveryFlow id, AFlow (inr fl))
          :: (FlowValid fl, AError None)
          :: (DisableAPIFlowEnforcement, ABool dis) :: tc'
          ++ [(DeleteRecoveryCodesOfFlow (recovery.ID fl), AError None);
              (SendRecoveryCode fl identity.VerifiableAddressTypeEmail (Email body),
               AError s);
              (SelfPublicURL, AString pub);
              (GenerateCSRFToken r, AString token)]),
         (emailSentFlow fl body pub token).
  split.
  { repeat (rewrite <- app_comm_cons || rewrite <- app_assoc). reflexivity. }
  split; [unfold callsNo; cbn; forall_trace|].
  split; [unfold callsNo; cbn; forall_trace|].
  right. split; [reflexivity|]. split; [reflexivity|].
  exists id, fl. split; [| reflexivity].
  right. apply in_or_app. right. right. apply in_or_app. right.
  right. left. reflexivity.
Qed.

(** In the scenario: the submission of the address. *)
Lemma Recover_nil_witness :
  behaves (Recover Sample.emailRequest Sample.F1)
    (snd Sample.step1) (Some (resetFlow Sample.F1, None))
  /\ exists pre h,
       snd Sample.step1 = pre ++ [(UpdateRecoveryFlow h, AError None)]
       /\ Forall (callsNo responds) (snd Sample.step1).
Proof.
  assert (H : behaves (Recover Sample.emailRequest Sample.F1)
                (snd Sample.step1) (Some (resetFlow Sample.F1, None)))
    by exact (run_behaves_eq _ _ _ _ step1_run).
  split; [exact H|].
  destruct (Recover_nil _ _ _ _ H) as (pre & h & E & W & _).
  exists pre, h. split; [exact E | exact W].
Defined.

(* ===================================================================== *)
(** ** Issuing the session, by type of flow *)

Lemma retryWith_run r f e t res :
  behaves (retryWith r f e) t res ->
  Forall (calls callsRetry) t /\ exists e', res = Some (f, Some e').
Proof.
  intros H. split; [exact (retryWith_calls r f e t res H)|].
  unfold retryWith in H.
  apply behaves_bind_returns in H; [| apply retryRecoveryFlowWithError_returns].
  destruct H as (ta & e' & tb & _ & _ & [_ ->]). eauto.
Qed.

Lemma retryWith_handsOn f sess r g e :
  continues f sess g ->
  spec (handsOn f sess) (keepsToken f) (retryWith r g e).
Proof.
  intros C t res H. apply retryWith_run in H. destruct H as [F (e' & ->)].
  split.
  - eapply Forall_calls; [| exact F].
    intros o a Ho. unfold handsOn. destruct o; simpl in *; auto; discriminate.
  - intros a [= <-]. split; [discriminate|]. simpl.
    destruct C as [_ [C | [C _]]]; [auto | contradiction].
Qed.

Ltac type_facts :=
  unfold flow.IsAPI in *;
  repeat match goal with
  | H : String.eqb _ _ = true |- _ => apply String.eqb_eq in H
  | H : String.eqb _ _ = false |- _ => apply String.eqb_neq in H
  end;
  unfold flow.TypeAPI, flow.TypeBrowser in *.

Ltac hands_fact :=
  unfold handsOn, keepsToken, continues in *; simpl in *; type_facts;
  first [ exact I
        | solve [intuition congruence]
        | solve [repeat split; try congruence; try tauto;
                 eexists; rewrite <- app_assoc; reflexivity]
        | solve [split; [congruence | right; split; [congruence | reflexivity]]]
        | solve [split; [congruence | left; congruence]] ].

Ltac hands_step :=
  lazymatch goal with
  | |- spec _ _ (Ret _) => apply spec_ret; hands_fact
  | |- spec _ _ (Panic _) => apply spec_panic
  | |- spec ?P' ?R' (Vis ?o ?k) =>
      apply (spec_vis P' R' o k); [intros ?; hands_fact | intros ?]
  | |- spec _ _ (retryWith _ _ _) => apply retryWith_handsOn; hands_fact
  | |- spec _ _ (match ?x with _ => _ end) => destruct x eqn:?
  | |- spec _ _ (bind (match ?x with _ => _ end) _) => destruct x eqn:?
  | |- spec _ _ (bind _ _) => progress cbn [bind call]
  end.

(** X15.  [recoveryIssueSession] always ends with an error value, never with
    nil.  The session it hands on is the one [session.NewActiveSession] made in
    the run: with a cookie only for a browser flow, to the session persister
    only for an API flow.  Only the body of an API flow is written, and it then
    carries, after what the flow had to continue with, the token of that session
    and the settings flow; a flow of any other type comes back with nothing
    added, so the token never reaches the body of a browser flow. *)
Theorem recoveryIssueSession_by_type r f id t res :
  behaves (recoveryIssueSession r f id) t res ->
  (exists g e,
     res = Some (g, Some e)
     /\ (recovery.Type_ f <> flow.TypeAPI ->
         recovery.ContinueWith_ g = recovery.ContinueWith_ f))
  /\ Forall (sessionByType f t) t.
Proof.
  intros H.
  assert (NP : res <> None).
  { intros ->. exact (recoveryIssueSession_returns r f id t H). }
  revert H. unfold recoveryIssueSession. cbn [bind call].
  intros (token & t1 & -> & u & t2 & -> & H).
  assert (Q : forall (l : Trace), Forall (calls callsRetry) l ->
                Forall (sessionByType f (l ++ [])) l
                /\ forall pre, Forall (sessionByType f (pre ++ l)) l).
  { intros l F. split; [| intros pre];
      (eapply Forall_calls; [| exact F]); intros o a Ho;
      unfold sessionByType; destruct o; simpl in *; auto; discriminate. }
  destruct u as [err|].
  { apply retryWith_run in H. destruct H as [F (e' & ->)]. split.
    - eexists _, e'. split; [reflexivity|]. reflexivity.
    - repeat (apply Forall_cons_2; [exact I|]).
      exact (proj2 (Q _ F) [_; _]). }
  cbn [bind call] in H. destruct H as (now & t3 & -> & s & t4 & -> & H).
  destruct s as [err | sess].
  { apply retryWith_run in H. destruct H as [F (e' & ->)]. split.
    - eexists _, e'. split; [reflexivity|]. reflexivity.
    - repeat (apply Forall_cons_2; [exact I|]).
      exact (proj2 (Q _ F) [_; _; _; _]). }
  match type of H with
  | behaves ?p _ _ =>
      assert (S : spec (handsOn f sess) (keepsToken f) p) by (repeat hands_step)
  end.
  destruct (S _ _ H) as [F R]. split.
  - destruct res as [[g e]|].
    + destruct (R _ eq_refl) as [R1 R2]. simpl in *.
      destruct e as [e|]; [| congruence]. eauto.
    + contradiction.
  - assert (M : made ((RegenerateToken r, AString token)
                      :: (UpdateRecoveryFlow (passedFlow f token id), AError None)
                      :: (Now, ATime now)
                      :: (NewActiveSession r id now identity.CredentialsTypeRecoveryCode
                            identity.AuthenticatorAssuranceLevel1, ASession (inr sess))
                      :: t4) sess).
    { exists r, id, now, identity.CredentialsTypeRecoveryCode,
        identity.AuthenticatorAssuranceLevel1. do 3 right. left. reflexivity. }
    repeat (apply Forall_cons_2; [exact I|]).
    eapply Forall_impl; [exact F|]. intros [o a] Ho.
    unfold handsOn, sessionByType in *. destruct o; simpl in *; auto.
    + destruct Ho as [Ty ->]. split; [exact Ty | exact M].
    + destruct Ho as [Ty ->]. split; [exact Ty | exact M].
    + destruct Ho as [Ty (sf & E)]. split; [exact Ty|]. exists sess, sf.
      split; [exact M | exact E].
Qed.

Lemma issuedApi_run :
  run Mem.impl (recoveryIssueSession Sample.codeRequest Sample.F1api Sample.I1)
    Sample.w0api
  = Sample.issuedApi.
Proof. vm_compute. reflexivity. Qed.

(** In the scenario, on a flow of type API: the session goes to the session
    persister and the flow written carries its token. *)
Lemma recoveryIssueSession_by_type_witness :
  behaves (recoveryIssueSession Sample.codeRequest Sample.F1api Sample.I1)
    (snd Sample.issuedApi) (fst (fst Sample.issuedApi))
  /\ Forall (sessionByType Sample.F1api (snd Sample.issuedApi)) (snd Sample.issuedApi)
  /\ exists g s,
       In (WriterWrite Sample.codeRequest g, AUnit) (snd Sample.issuedApi)
       /\ In (UpsertSession s, AError None) (snd Sample.issuedApi)
       /\ hd_error (recovery.ContinueWith_ g)
          = Some (NewContinueWithSetToken (session.Token s)).
Proof.
  assert (H : behaves (recoveryIssueSession Sample.codeRequest Sample.F1api Sample.I1)
                (snd Sample.issuedApi) (fst (fst Sample.issuedApi)))
    by exact (run_behaves_eq _ _ _ _ issuedApi_run).
  split; [exact H|].
  split; [exact (proj2 (recoveryIssueSession_by_type _ _ _ _ _ H))|].
  cbn. eexists _, _. split; [here|]. split; [here | reflexivity].
Defined.

(* ===================================================================== *)
(** ** What [Recover] leaves as it is *)

Ltac frame_fact :=
  unfold framed, inFrame, sameFrame, untouched, anyEvent in *; simpl in *;
  first [ exact I
        | solve [intuition congruence]
        | solve [split; [intuition congruence | right; split; [reflexivity | discriminate]]] ].

Ltac frame_step :=
  lazymatch goal with
  | |- spec _ _ (Ret _) => apply spec_ret; frame_fact
  | |- spec _ _ (Panic _) => apply spec_panic
  | |- spec ?P' ?R' (Vis ?o ?k) =>
      apply (spec_vis P' R' o k); [intros ?; exact I | intros ?]
  | |- spec _ _ (match ?x with _ => _ end) => destruct x eqn:?
  | |- spec _ _ (bind (match ?x with _ => _ end) _) => destruct x eqn:?
  | |- spec _ _ (bind _ _) => progress cbn [bind call]
  end.

Lemma retryWith_framed f r g e : inFrame f g -> spec anyEvent (framed f) (retryWith r g e).
Proof.
  intros T t res H. apply retryWith_run in H. destruct H as [_ (e' & ->)].
  split; [apply Forall_forall; intros; exact I|]. intros a [= <-]. exact T.
Qed.

Lemma HandleRecoveryErrorOn_framed f r g body err :
  inFrame f g -> spec anyEvent (framed f) (HandleRecoveryErrorOn r g body err).
Proof.
  intros T. unfold HandleRecoveryErrorOn, HandleRecoveryError. repeat frame_step.
Qed.

Ltac frame_step' :=
  lazymatch goal with
  | |- spec _ _ (retryWith _ _ _) => apply retryWith_framed; frame_fact
  | |- spec _ _ (HandleRecoveryErrorOn _ _ _ _) =>
      apply HandleRecoveryErrorOn_framed; frame_fact
  | |- _ => frame_step
  end.

Lemma markRecoveryAddressVerified_framed f r g i ra :
  inFrame f g -> spec anyEvent (framed f) (markRecoveryAddressVerified r g i ra).
Proof.
  intros T. unfold markRecoveryAddressVerified, findAddress.
  destruct (identity.VerifiableAddresses i); [cbn [bind]; repeat frame_step'|].
  destruct ra; cbn [bind]; repeat frame_step'.
Qed.

Lemma recoveryIssueSession_framed f r g i :
  inFrame f g -> spec anyEvent (framed f) (recoveryIssueSession r g i).
Proof. intros T. unfold recoveryIssueSession. repeat frame_step'. Qed.

Lemma recoveryUseCode_framed f r body g :
  inFrame f g -> spec anyEvent (framed f) (recoveryUseCode r body g).
Proof.
  intros T. unfold recoveryUseCode. cbn [bind call].
  apply spec_vis; [intros; exact I|]. intros [err | code].
  - destruct err; repeat frame_step'.
  - cbn [bind call]. apply spec_vis; [intros; exact I|]. intros [err | recovered].
    + apply HandleRecoveryErrorOn_framed, T.
    + eapply spec_bind with (R1 := framed f).
      * destruct (CodeType code); [apply spec_ret; exact T|].
        apply markRecoveryAddressVerified_framed, T.
      * intros [g' [err|]] T'.
        -- apply HandleRecoveryErrorOn_framed, T'.
        -- apply recoveryIssueSession_framed, T'.
Qed.

Lemma resetFlow_inFrame f : inFrame f (resetFlow f).
Proof. unfold resetFlow. frame_fact. Qed.

(** X16.  Whatever the run, the flow [Recover] hands back has the identifier,
    type, expiry, request URL, active method and anti-forgery switch of the flow
    handed in.  Its state, anti-forgery token, recovered identity and things to
    continue with are as they were as well, unless the flow was taken to
    PassedChallenge, where an identity is recorded as recovered. *)
Theorem Recover_frame r f t g e :
  behaves (Recover r f) t (Some (g, e)) ->
  sameFrame f g
  /\ (untouched f g
      \/ (recovery.State g = flow.StatePassedChallenge
          /\ exists id, recovery.RecoveredIdentityID g = Some id)).
Proof.
  intros H.
  assert (K : inFrame f g).
  { assert (T0 : inFrame f f) by frame_fact.
    pose proof (resetFlow_inFrame f) as T1.
    apply Recover_cases in H.
    destruct H as [(_ & _ & [= -> _]) | (_ & d & t1 & -> & H)]; [exact T0|].
    destruct d as [err | body]; [destruct H as [_ [= -> _]]; exact T0|].
    destruct H as (tc & csrf & t2 & -> & Hc & H).
    destruct csrf as [err|]; [destruct H as (e' & _ & [= -> _]); exact T0|].
    destruct (submitsCode f body).
    { destruct H as (tg & gate & t3 & -> & Hg & H).
      destruct gate as [err|]; [destruct H as [_ [= -> _]]; exact T1|].
      exact (spec_result _ _ _ _ _ (recoveryUseCode_framed f r body _ T1) H). }
    destruct H as (sess & t3 & -> & H).
    destruct sess as [serr | s']; [| destruct H as (json & _ & [= -> _]); exact T1].
    destruct H as (tg & gate & t4 & -> & Hg & H).
    destruct gate as [err|]; [destruct H as [_ [= -> _]]; exact T1|].
    destruct H as (id & fetched & t5 & -> & H).
    destruct fetched as [err | fl]; [destruct H as [_ [= -> _]]; exact T1|].
    destruct H as (valid & t6 & -> & H).
    destruct valid as [err|]; [destruct H as (token & _ & [= -> _]); exact T1|].
    destruct H as (e' & _ & [= -> _]). exact T1. }
  destruct K as [K1 [K2 | [K2 K3]]]; split; auto.
  right. split; [exact K2|].
  destruct (recovery.RecoveredIdentityID g) as [id|]; [eauto | contradiction].
Qed.

(** In the scenario: the code is accepted and the flow goes to
    PassedChallenge. *)
Lemma Recover_frame_witness :
  behaves (Recover Sample.codeRequest Sample.F1sent) (snd Sample.step2)
    (Some (Sample.F1passed, Some ErrCompletedByStrategy))
  /\ sameFrame Sample.F1sent Sample.F1passed
  /\ recovery.State Sample.F1passed = flow.StatePassedChallenge.
Proof.
  assert (H : behaves (Recover Sample.codeRequest Sample.F1sent) (snd Sample.step2)
                (Some (Sample.F1passed, Some ErrCompletedByStrategy)))
    by exact (run_behaves_eq _ _ _ _ step2_run).
  split; [exact H|].
  split; [exact (proj1 (Recover_frame _ _ _ _ _ H)) | reflexivity].
Defined.

(* ===================================================================== *)
(** ** One response at most *)

Lemma respondsLast_cons o a t e :
  responds o = false -> respondsLast t e -> respondsLast ((o, a) :: t) e.
Proof.
  intros Ho [F | (pre & ev & -> & F & Hev & ->)].
  - left. constructor; [exact Ho | exact F].
  - right. exists ((o, a) :: pre), ev. split; [reflexivity|].
    split; [constructor; [exact Ho | exact F] | auto].
Qed.

Lemma respondsLast_app pre t e :
  Forall (callsNo responds) pre -> respondsLast t e -> respondsLast (pre ++ t) e.
Proof.
  intros Fp [F | (pre' & ev & -> & F & Hev & ->)].
  - left. apply Forall_app. auto.
  - right. exists (pre ++ pre'), ev. split; [apply app_assoc|].
    split; [apply Forall_app; auto | auto].
Qed.

Lemma respondsOnce_ret {A} (err : A -> option Err) a : respondsOnce err (Ret a).
Proof. intros t b [-> _]. left. constructor. Qed.

Lemma respondsOnce_panic {A} (err : A -> option Err) m : respondsOnce err (Panic m).
Proof. intros t b [_ [=]]. Qed.

Lemma respondsOnce_vis {A} (err : A -> option Err) o (k : result o -> Prog A) :
  responds o = false -> (forall x, respondsOnce err (k x)) ->
  respondsOnce err (Vis o k).
Proof.
  intros Ho Hk t a (x & t' & -> & H). apply respondsLast_cons; [exact Ho|].
  exact (Hk x t' a H).
Qed.

Lemma respondsOnce_last {A} (err : A -> option Err) o (k : result o -> Prog A) :
  responds o = true ->
  (forall x, exists a, k x = Ret a /\ err a = Some ErrCompletedByStrategy) ->
  respondsOnce err (Vis o k).
Proof.
  intros Ho Hk t a (x & t' & -> & H). destruct (Hk x) as (b & E & Hb).
  rewrite E in H. destruct H as [-> [= ->]].
  right. exists [], (o, answer o x). split; [reflexivity|].
  split; [constructor | auto].
Qed.

Lemma respondsOnce_quiet {A} (err : A -> option Err) (p : Prog A) :
  always (callsNo responds) p -> respondsOnce err p.
Proof. intros Hp t a H. left. exact (Hp t _ H). Qed.

Lemma respondsOnce_bind {A B} (err : B -> option Err) (p : Prog A) (k : A -> Prog B) :
  always (callsNo responds) p -> (forall a, respondsOnce err (k a)) ->
  respondsOnce err (bind p k).
Proof.
  intros Hp Hk t b H. apply behaves_bind_inv in H.
  destruct H as [(t1 & a & t2 & -> & H1 & H2) | [_ [=]]].
  apply respondsLast_app; [exact (Hp _ _ H1) | exact (Hk a _ _ H2)].
Qed.

Lemma respondsOnce_tail {A B} (err1 : A -> option Err) (err : B -> option Err)
    (p : Prog A) (g : A -> B) :
  respondsOnce err1 p -> (forall a, err (g a) = err1 a) ->
  respondsOnce err (bind p (fun a => Ret (g a))).
Proof.
  intros Hp Hg t b H. apply behaves_bind_inv in H.
  destruct H as [(t1 & a & t2 & -> & H1 & [-> [= ->]]) | [_ [=]]].
  rewrite app_nil_r, Hg. exact (Hp _ _ H1).
Qed.

Lemma quiet_calls (Q : Op -> bool) {A} (p : Prog A) :
  (forall o, Q o = true -> responds o = false) ->
  always (calls Q) p -> always (callsNo responds) p.
Proof.
  intros HQ Hp t r H. eapply calls_no; [exact HQ | exact (Hp t r H)].
Qed.

Ltac once_step :=
  lazymatch goal with
  | |- respondsOnce _ (Ret _) => apply respondsOnce_ret
  | |- respondsOnce _ (Panic _) => apply respondsOnce_panic
  | |- respondsOnce _ (call _) => unfold call
  | |- respondsOnce ?e (Vis ?o ?k) =>
      first [ apply (respondsOnce_vis e o k); [reflexivity | intros ?]
            | apply (respondsOnce_last e o k);
              [reflexivity | intros ?; eexists; split; reflexivity] ]
  | |- respondsOnce _ (match ?x with _ => _ end) => destruct x eqn:?
  | |- respondsOnce _ (bind (match ?x with _ => _ end) _) => destruct x eqn:?
  | |- respondsOnce _ (bind _ _) => progress cbn [bind call]
  end.

Lemma redirectToNewFlow_once r f : respondsOnce completed (redirectToNewFlow r f).
Proof. unfold redirectToNewFlow. repeat once_step. Qed.

Lemma retryRecoveryFlowWithMessage_once r ft m :
  respondsOnce Some (retryRecoveryFlowWithMessage r ft m).
Proof.
  unfold retryRecoveryFlowWithMessage. cbn [bind call].
  do 4 once_step; [once_step|]. once_step. once_step; [once_step|].
  apply respondsOnce_tail with (err1 := completed);
    [apply redirectToNewFlow_once | reflexivity].
Qed.

Lemma retryRecoveryFlowWithError_once r ft e :
  respondsOnce Some (retryRecoveryFlowWithError r ft e).
Proof.
  assert (G : respondsOnce Some
    (let* lifespan := call SelfServiceFlowRecoveryRequestLifespan in
     let* token := call (RegenerateToken r) in
     let* nf := call (NewFlow lifespan token r ft) in
     match nf with
     | inl err => Ret err
     | inr f =>
         let* p := call (ParseError (recovery.UI f) node.CodeGroup e) in
         match p with
         | inl err => Ret err
         | inr ui =>
             let f := recovery.withUI f ui in
             let* c := call (CreateRecoveryFlow f) in
             match c with
             | Some err => Ret err
             | None => let* _ := redirectToNewFlow r f in Ret ErrCompletedByStrategy
             end
         end
     end)).
  { cbn [bind call]. do 4 once_step; [once_step|].
    do 2 once_step; [once_step|]. cbv zeta. do 2 once_step; [once_step|].
    apply respondsOnce_tail with (err1 := completed);
      [apply redirectToNewFlow_once | reflexivity]. }
  unfold retryRecoveryFlowWithError.
  destruct e; try exact G. apply retryRecoveryFlowWithMessage_once.
Qed.

Lemma retryWith_once r f e : respondsOnce errorOf (retryWith r f e).
Proof.
  unfold retryWith.
  apply respondsOnce_tail with (err1 := Some);
    [apply retryRecoveryFlowWithError_once | reflexivity].
Qed.

Lemma HandleRecoveryErrorOn_once r f body err :
  respondsOnce errorOf (HandleRecoveryErrorOn r f body err).
Proof.
  apply respondsOnce_quiet.
  eapply quiet_calls; [| apply HandleRecoveryErrorOn_calls].
  intros [] Ho; simpl in *; auto; discriminate.
Qed.

Ltac once_step' :=
  lazymatch goal with
  | |- respondsOnce _ (retryWith _ _ _) => apply retryWith_once
  | |- respondsOnce _ (HandleRecoveryErrorOn _ _ _ _) =>
      apply HandleRecoveryErrorOn_once
  | |- _ => once_step
  end.

Lemma recoveryIssueSession_once r f id :
  respondsOnce errorOf (recoveryIssueSession r f id).
Proof. unfold recoveryIssueSession. repeat once_step'. Qed.

Lemma recoveryUseCode_once r body f :
  respondsOnce errorOf (recoveryUseCode r body f).
Proof.
  unfold recoveryUseCode. cbn [bind call].
  once_step. destruct x as [err | code].
  - destruct err; repeat once_step'.
  - cbn [bind call]. once_step. destruct x as [err | recovered].
    + apply HandleRecoveryErrorOn_once.
    + apply respondsOnce_bind.
      * destruct (CodeType code); [apply always_ret|].
        eapply quiet_calls; [| apply markRecoveryAddressVerified_calls].
        intros [] Ho; simpl in *; auto; discriminate.
      * intros [g [err|]];
          [apply HandleRecoveryErrorOn_once | apply recoveryIssueSession_once].
Qed.

Lemma dispatchOnState_once r fl body :
  respondsOnce (fun e => e) (dispatchOnState r fl body).
Proof.
  unfold dispatchOnState.
  destruct (String.eqb (recovery.State fl) flow.StateChooseMethod
            || String.eqb (recovery.State fl) flow.StateEmailSent).
  - apply respondsOnce_bind.
    + eapply quiet_calls; [| apply recoveryHandleFormSubmission_calls].
      intros [] Ho; simpl in *; auto; discriminate.
    + intros [g e]. apply respondsOnce_ret.
  - destruct (String.eqb (recovery.State fl) flow.StatePassedChallenge);
      (apply respondsOnce_tail with (err1 := Some);
       [apply retryRecoveryFlowWithMessage_once | reflexivity]).
Qed.

(** X17.  [Recover] writes one response at most, and with its last call: every
    run that returns has either no call that writes a response, or exactly one,
    the last of the run, and [Recover] then answers [ErrCompletedByStrategy],
    which tells its caller that the response has been written. *)
Theorem Recover_responds_once r f t g e :
  behaves (Recover r f) t (Some (g, e)) ->
  Forall (callsNo responds) t
  \/ exists pre ev,
       t = pre ++ [ev]
       /\ Forall (callsNo responds) pre
       /\ responds (fst ev) = true
       /\ e = Some ErrCompletedByStrategy.
Proof.
  intros H. change (respondsLast t e).
  assert (Q : forall (C : Op -> bool) (l : Trace),
                (forall o, C o = true -> responds o = false) ->
                Forall (calls C) l -> Forall (callsNo responds) l).
  { intros C l HC F. exact (calls_no C responds l HC F). }
  apply Recover_cases in H.
  destruct H as [(_ & -> & _) | (_ & d & t1 & -> & H)]; [left; constructor|].
  apply respondsLast_cons; [reflexivity|].
  destruct d as [err | body]; [destruct H as [-> _]; left; constructor|].
  destruct H as (tc & csrf & t2 & -> & Hc & H).
  apply respondsLast_app.
  { apply (Q callsCsrfGate); [intros [] Ho; simpl in *; auto; discriminate|].
    exact (csrfGate_calls _ _ _ _ _ Hc). }
  destruct csrf as [err|].
  { destruct H as (e' & He & [= _ ->]).
    exact (retryRecoveryFlowWithError_once _ _ _ _ _ He). }
  destruct (submitsCode f body).
  { destruct H as (tg & gate & t3 & -> & Hg & H).
    apply respondsLast_app.
    { apply (Q callsGate); [intros [] Ho; simpl in *; auto; discriminate|].
      exact (MethodEnabledAndAllowed_calls _ _ _ _ _ Hg). }
    destruct gate as [err|]; [destruct H as [-> _]; left; constructor|].
    exact (recoveryUseCode_once _ _ _ _ _ H). }
  destruct H as (sess & t3 & -> & H).
  apply respondsLast_cons; [reflexivity|].
  destruct sess as [serr | s'].
  2:{ destruct H as (json & -> & [= _ ->]). right.
      eexists [_], _. split; [reflexivity|].
      split; [repeat constructor|]. split; [destruct json|]; reflexivity. }
  destruct H as (tg & gate & t4 & -> & Hg & H).
  apply respondsLast_app.
  { apply (Q callsGate); [intros [] Ho; simpl in *; auto; discriminate|].
    exact (MethodEnabledAndAllowed_calls _ _ _ _ _ Hg). }
  destruct gate as [err|]; [destruct H as [-> _]; left; constructor|].
  destruct H as (id & fetched & t5 & -> & H).
  do 2 (apply respondsLast_cons; [reflexivity|]).
  destruct fetched as [err | fl]; [destruct H as [-> _]; left; constructor|].
  destruct H as (valid & t6 & -> & H).
  apply respondsLast_cons; [reflexivity|].
  destruct valid as [err|];
    [destruct H as (token & -> & _); left; repeat constructor|].
  destruct H as (e' & He & [= _ ->]).
  exact (dispatchOnState_once _ _ _ _ _ He).
Qed.

(** In the scenario: the code is accepted; the last call of the run sends
    the browser on to the settings UI. *)
Lemma Recover_responds_once_witness :
  behaves (Recover Sample.codeRequest Sample.F1sent) (snd Sample.step2)
    (Some (Sample.F1passed, Some ErrCompletedByStrategy))
  /\ (Forall (callsNo responds) (snd Sample.step2)
      \/ exists pre ev,
           snd Sample.step2 = pre ++ [ev]
           /\ Forall (callsNo responds) pre
           /\ responds (fst ev) = true
           /\ Some ErrCompletedByStrategy = Some ErrCompletedByStrategy).
Proof.
  assert (H : behaves (Recover Sample.codeRequest Sample.F1sent) (snd Sample.step2)
                (Some (Sample.F1passed, Some ErrCompletedByStrategy)))
    by exact (run_behaves_eq _ _ _ _ step2_run).
  split; [exact H|].
  exact (Recover_responds_once _ _ _ _ _ H).
Defined.

(* ===================================================================== *)
(** ** When a code is sent *)

(** X18.  [recoveryHandleFormSubmission] calls the code sender at most once, for
    the flow at hand and the address submitted, which is not empty, by e-mail;
    and only after the anti-forgery check let the submission pass and the codes
    issued before for the flow were deleted without error.  When the sender
    fails with an error other than "unknown address", that error is handed back:
    the flow is not persisted and keeps its state, although the codes issued
    before are gone. *)
Theorem recoveryHandleFormSubmission_sends r f body t res g via to s :
  behaves (recoveryHandleFormSubmission r f body) t res ->
  In (SendRecoveryCode g via to, AError s) t ->
  (g = f /\ via = identity.VerifiableAddressTypeEmail
   /\ to = Email body /\ Email body <> "")
  /\ exists d tc rest,
       t = (DisableAPIFlowEnforcement, ABool d) :: tc
           ++ (DeleteRecoveryCodesOfFlow (recovery.ID f), AError None)
           :: (SendRecoveryCode g via to, AError s) :: rest
       /\ behaves (EnsureCSRF r (recovery.Type_ f) d (CSRFToken body)) tc (Some None)
       /\ Forall (callsNo isSendRecoveryCode) (tc ++ rest)
       /\ (s <> None -> s <> Some ErrUnknownAddress ->
           Forall (callsNo mutates) rest
           /\ exists g', res = Some (g', s)
                /\ recovery.State g' = recovery.State f
                /\ recovery.ID g' = recovery.ID f).
Proof.
  unfold recoveryHandleFormSubmission. intros H Hin.
  destruct (Nat.eqb (String.length (Email body)) 0) eqn:Em.
  { seen HandleRecoveryErrorOn_calls H. in_trace Hin. }
  assert (NE : Email body <> "").
  { intros E. rewrite E in Em. discriminate Em. }
  cbn [bind call] in H. destruct H as (d & t1 & -> & H).
  apply behaves_bind_returns in H; [| apply EnsureCSRF_returns].
  destruct H as (tc & csrf & t2 & -> & Hc & H).
  seen EnsureCSRF_calls Hc.
  destruct csrf as [err|].
  { seen HandleRecoveryErrorOn_calls H. in_trace Hin. }
  cbn [bind call] in H. destruct H as (dl & t3 & -> & H).
  destruct dl as [err|].
  { seen HandleRecoveryErrorOn_calls H. in_trace Hin. }
  cbn [bind call] in H. destruct H as (s' & t4 & -> & H).
  assert (Q : forall l, Forall (calls callsHandleError) l ->
                Forall (callsNo isSendRecoveryCode) l /\ Forall (callsNo mutates) l).
  { intros l Fl. split; (eapply calls_no; [| exact Fl]);
      intros [] Ho; simpl in *; auto; discriminate. }
  assert (Hcase : (s' = None \/ s' = Some ErrUnknownAddress)
                  \/ exists e, s' = Some e /\ e <> ErrUnknownAddress).
  { destruct s' as [e|]; [| auto].
    destruct e; auto; right; eexists; (split; [reflexivity | discriminate]). }
  destruct Hcase as [Hs | (e & -> & Ne)].
  - assert (K : behaves
      (let* pub := call SelfPublicURL in
       let* token := call (GenerateCSRFToken r) in
       let* u := call (UpdateRecoveryFlow (emailSentFlow f body pub token)) in
       match u with
       | Some err =>
           HandleRecoveryErrorOn r (emailSentFlow f body pub token) (Some body) err
       | None => Ret (emailSentFlow f body pub token, None)
       end) t4 res) by (destruct Hs as [-> | ->]; exact H).
    clear H. cbn [bind call] in K.
    destruct K as (pub & t5 & -> & token & t6 & -> & u & t7 & -> & K).
    assert (F7 : Forall (calls callsHandleError) t7).
    { destruct u as [err|]; [exact (HandleRecoveryErrorOn_calls _ _ _ _ _ _ K)|].
      destruct K as [-> _]. constructor. }
    destruct (Q _ F7) as [Q1 _].
    assert (E : (SendRecoveryCode f identity.VerifiableAddressTypeEmail (Email body),
                 AError s')
                = (SendRecoveryCode g via to, AError s)).
    { in_trace Hin. exact Hin. }
    injection E as <- <- <- <-.
    split; [auto|].
    exists d, tc, ((SelfPublicURL, AString pub) :: (GenerateCSRFToken r, AString token)
                   :: (UpdateRecoveryFlow (emailSentFlow f body pub token), AError u)
                   :: t7).
    split; [reflexivity|]. split; [exact Hc|]. split.
    + apply Forall_app. split.
      * eapply calls_no; [| exact F]. intros [] Ho; simpl in *; auto; discriminate.
      * repeat (apply Forall_cons_2; [reflexivity|]). exact Q1.
    + intros N1 N2. destruct Hs; contradiction.
  - assert (K : behaves (HandleRecoveryErrorOn r f (Some body) e) t4 res)
      by (destruct e; try exact H; congruence).
    clear H. pose proof (HandleRecoveryErrorOn_calls _ _ _ _ _ _ K) as F4.
    destruct (Q _ F4) as [Q1 Q2].
    assert (E : (SendRecoveryCode f identity.VerifiableAddressTypeEmail (Email body),
                 AError (Some e))
                = (SendRecoveryCode g via to, AError s)).
    { in_trace Hin. exact Hin. }
    injection E as <- <- <- <-.
    split; [auto|]. exists d, tc, t4.
    split; [reflexivity|]. split; [exact Hc|]. split.
    + apply Forall_app. split; [| exact Q1].
      eapply calls_no; [| exact F]. intros [] Ho; simpl in *; auto; discriminate.
    + intros _ _. split; [exact Q2|].
      unfold HandleRecoveryErrorOn, HandleRecoveryError in K. cbn [bind call] in K.
      destruct K as (tok & t5 & -> & [-> ->]). eexists. split; [reflexivity|].
      split; reflexivity.
Qed.

(** In the scenario: the submission of the address of the identity. *)
Lemma recoveryHandleFormSubmission_sends_witness :
  behaves
    (recoveryHandleFormSubmission Sample.emailRequest Sample.F1
       (Form Sample.emailRequest))
    (snd Sample.sentKnown) (fst (fst Sample.sentKnown))
  /\ In (SendRecoveryCode Sample.F1 "email" "a@x.com", AError None)
       (snd Sample.sentKnown)
  /\ exists d tc rest,
       snd Sample.sentKnown
       = (DisableAPIFlowEnforcement, ABool d) :: tc
         ++ (DeleteRecoveryCodesOfFlow (recovery.ID Sample.F1), AError None)
         :: (SendRecoveryCode Sample.F1 "email" "a@x.com", AError None) :: rest.
Proof.
  assert (H : behaves
    (recoveryHandleFormSubmission Sample.emailRequest Sample.F1
       (Form Sample.emailRequest))
    (snd Sample.sentKnown) (fst (fst Sample.sentKnown)))
    by exact (run_behaves_eq _ _ _ _ sentKnown_run).
  assert (I : In (SendRecoveryCode Sample.F1 "email" "a@x.com", AError None)
                (snd Sample.sentKnown)) by (cbn; here).
  split; [exact H|]. split; [exact I|].
  destruct (recoveryHandleFormSubmission_sends _ _ _ _ _ _ _ _ _ H I)
    as (_ & d & tc & rest & E & _).
  exists d, tc, rest. exact E.
Defined.

(* ===================================================================== *)
(** ** The form after an error, and the form of a fresh flow *)

Lemma Upsert_In ns n : In n (node.Upsert ns n).
Proof.
  induction ns as [| m ns IH]; simpl; [auto|].
  destruct (String.eqb (node.Name m) (node.Name n)); simpl; auto.
Qed.

Lemma Upsert_other ns n m :
  In m ns -> node.Name m <> node.Name n -> In m (node.Upsert ns n).
Proof.
  induction ns as [| m0 ns IH]; simpl; [intros []|].
  intros [-> | Hin] Hne.
  - apply String.eqb_neq in Hne. rewrite Hne. left. reflexivity.
  - destruct (String.eqb (node.Name m0) (node.Name n)); simpl; auto.
Qed.

(** X19.  [HandleRecoveryError] hands back the very error it is given, always.
    Without a flow it makes no call.  With a flow it generates one anti-forgery
    token and touches the fields of the form only: the form then holds the token
    and the e-mail input, filled with the address submitted (empty when no
    payload is given); every other field, the messages, and the rest of the flow
    (state and identifier among them) stay as they were. *)
Theorem HandleRecoveryError_form r fl body err t res :
  behaves (HandleRecoveryError r fl body err) t res ->
  exists h, res = Some (h, err)
  /\ match fl with
     | None => t = [] /\ h = None
     | Some g =>
         exists token g',
           t = [(GenerateCSRFToken r, AString token)] /\ h = Some g'
           /\ sameFrame g g' /\ untouched g g'
           /\ sameFormBut (recovery.UI g) (recovery.UI g')
           /\ In (csrfField token) (container.Nodes (recovery.UI g'))
           /\ In (emailField
                    (Some match body with Some b => Email b | None => "" end))
                (container.Nodes (recovery.UI g'))
           /\ keepsOtherFields (container.Nodes (recovery.UI g))
                (container.Nodes (recovery.UI g'))
     end.
Proof.
  unfold HandleRecoveryError. destruct fl as [g|].
  2:{ intros [-> ->]. exists None. auto. }
  cbn [bind call]. intros (token & t1 & -> & [-> ->]).
  eexists. split; [reflexivity|]. exists token. eexists.
  split; [reflexivity|]. split; [reflexivity|].
  split; [repeat split|]. split; [repeat split|].
  split; [repeat split|]. cbn. split; [| split].
  - apply Upsert_other; [apply Upsert_In | discriminate].
  - apply Upsert_In.
  - intros n Hin N1 N2. apply Upsert_other; [apply Upsert_other|]; auto.
Qed.

(** In the scenario: an error on the flow after the address step. *)
Lemma HandleRecoveryError_form_witness :
  behaves
    (HandleRecoveryError Sample.emailRequest (Some Sample.F1sent)
       (Some (Form Sample.emailRequest)) (OtherError "refused"))
    [(GenerateCSRFToken Sample.emailRequest, AString "tok2")]
    (Some (Some
       (recovery.withUI Sample.F1sent
          (container.withNodes (recovery.UI Sample.F1sent)
             (node.Upsert
                (node.Upsert (container.Nodes (recovery.UI Sample.F1sent))
                   (csrfField "tok2"))
                (emailField (Some "a@x.com"))))),
           OtherError "refused"))
  /\ exists h, Some (Some
       (recovery.withUI Sample.F1sent
          (container.withNodes (recovery.UI Sample.F1sent)
             (node.Upsert
                (node.Upsert (container.Nodes (recovery.UI Sample.F1sent))
                   (csrfField "tok2"))
                (emailField (Some "a@x.com"))))),
           OtherError "refused") = Some (h, OtherError "refused").
Proof.
  assert (H : behaves
    (HandleRecoveryError Sample.emailRequest (Some Sample.F1sent)
       (Some (Form Sample.emailRequest)) (OtherError "refused"))
    [(GenerateCSRFToken Sample.emailRequest, AString "tok2")]
    (Some (Some
       (recovery.withUI Sample.F1sent
          (container.withNodes (recovery.UI Sample.F1sent)
             (node.Upsert
                (node.Upsert (container.Nodes (recovery.UI Sample.F1sent))
                   (csrfField "tok2"))
                (emailField (Some "a@x.com"))))),
           OtherError "refused"))).
  { unfold HandleRecoveryError. cbn [bind call].
    exists "tok2", []. split; [reflexivity|]. split; reflexivity. }
  split; [exact H|].
  destruct (HandleRecoveryError_form _ _ _ _ _ _ H) as (h & E & _).
  exists h. exact E.
Defined.

(** X20.  [PopulateRecoveryMethod] makes one call, for the anti-forgery token,
    and never fails.  It touches the fields of the form only: the form then
    holds the token and an empty, required e-mail input, and its last field is
    the submit button of the method "code"; every other field, the messages and
    the rest of the flow stay as they were. *)
Theorem PopulateRecoveryMethod_form r f t res :
  behaves (PopulateRecoveryMethod r f) t res ->
  exists token g,
    t = [(GenerateCSRFToken r, AString token)] /\ res = Some (g, None)
    /\ sameFrame f g /\ untouched f g
    /\ sameFormBut (recovery.UI f) (recovery.UI g)
    /\ In (csrfField token) (container.Nodes (recovery.UI g))
    /\ In (emailField None) (container.Nodes (recovery.UI g))
    /\ List.last (container.Nodes (recovery.UI g)) (csrfField token) = submitButton
    /\ keepsOtherFields (container.Nodes (recovery.UI f))
         (container.Nodes (recovery.UI g)).
Proof.
  unfold PopulateRecoveryMethod. cbn [bind call].
  intros (token & t1 & -> & [-> ->]).
  exists token. eexists. split; [reflexivity|]. split; [reflexivity|].
  split; [repeat split|]. split; [repeat split|]. split; [repeat split|].
  cbn. unfold node.Append. split; [| split; [| split]].
  - apply in_or_app. left.
    apply Upsert_other; [apply Upsert_In | discriminate].
  - apply in_or_app. left. apply Upsert_In.
  - apply List.last_last.
  - intros n Hin N1 N2. apply in_or_app. left.
    apply Upsert_other; [apply Upsert_other|]; auto.
Qed.

Lemma PopulateRecoveryMethod_form_witness :
  behaves (PopulateRecoveryMethod Sample.emailRequest Sample.F1)
    [(GenerateCSRFToken Sample.emailRequest, AString "tok")]
    (Some (populate "tok" Sample.F1, None))
  /\ exists token g,
       [(GenerateCSRFToken Sample.emailRequest, AString "tok")]
       = [(GenerateCSRFToken Sample.emailRequest, AString token)]
       /\ Some (populate "tok" Sample.F1, @None Err) = Some (g, None)
       /\ List.last (container.Nodes (recovery.UI g)) (csrfField token) = submitButton.
Proof.
  assert (H : behaves (PopulateRecoveryMethod Sample.emailRequest Sample.F1)
                [(GenerateCSRFToken Sample.emailRequest, AString "tok")]
                (Some (populate "tok" Sample.F1, None))).
  { unfold PopulateRecoveryMethod. cbn [bind call].
    exists "tok", []. split; [reflexivity|]. split; reflexivity. }
  split; [exact H|].
  destruct (PopulateRecoveryMethod_form _ _ _ _ H)
    as (token & g & E1 & E2 & _ & _ & _ & _ & _ & L & _).
  exists token, g. auto.
Defined.

(* ===================================================================== *)
(** ** The address of a code without recovery address *)

(** X21.  [markRecoveryAddressVerified] panics in one case only, and then before
    any call: it is handed no recovery address ([nil]) for an identity that has
    addresses, and the loop dereferences it.  In every other case it returns,
    and when it returns without error the flow is handed back as it was given. *)
Theorem markRecoveryAddressVerified_panics r f id ra t res :
  behaves (markRecoveryAddressVerified r f id ra) t res ->
  (res = None <-> ra = None /\ identity.VerifiableAddresses id <> [])
  /\ (res = None -> t = [])
  /\ (forall g, res = Some (g, None) -> g = f).
Proof.
  unfold markRecoveryAddressVerified, findAddress.
  destruct (identity.VerifiableAddresses id) as [| va0 vas]; cbn [bind].
  { intros [-> ->]. split; [split; [discriminate | intros [_ N]; contradiction]|].
    split; [discriminate | intros g [= <-]; reflexivity]. }
  destruct ra as [ra|]; cbn [bind].
  2:{ intros [-> ->].
      split; [split; [intros _; split; [reflexivity | discriminate] | auto]|].
      split; [reflexivity | discriminate]. }
  intros H.
  assert (K : exists x, res = Some x /\ forall g, x = (g, None) -> g = f).
  { destruct (List.find _ (va0 :: vas)) as [va|].
    2:{ destruct H as [_ ->]. eexists. split; [reflexivity|]. intros g [= <-]. auto. }
    destruct (negb (identity.va_Verified va)).
    2:{ destruct H as [_ ->]. eexists. split; [reflexivity|]. intros g [= <-]. auto. }
    cbn [bind call] in H. destruct H as (now & t1 & -> & u & t2 & -> & H).
    destruct u as [err|].
    - unfold HandleRecoveryErrorOn, HandleRecoveryError in H. cbn [bind call] in H.
      destruct H as (tok & t3 & -> & [-> ->]).
      eexists. split; [reflexivity|]. intros g [=].
    - destruct H as [_ ->]. eexists. split; [reflexivity|]. intros g [= <-]. auto. }
  destruct K as (x & -> & Kx).
  split; [split; [discriminate | intros [[=] _]]|].
  split; [discriminate|]. intros g [= ->]. apply Kx. reflexivity.
Qed.

Lemma markRecoveryAddressVerified_panics_witness :
  behaves (markRecoveryAddressVerified Sample.codeRequest Sample.F1sent Sample.I1 None)
    [] None
  /\ (@None (recovery.Flow * option Err) = None <->
      @None identity.RecoveryAddress = None
      /\ identity.VerifiableAddresses Sample.I1 <> []).
Proof.
  assert (H : behaves
    (markRecoveryAddressVerified Sample.codeRequest Sample.F1sent Sample.I1 None)
    [] None) by (split; reflexivity).
  split; [exact H|].
  exact (proj1 (markRecoveryAddressVerified_panics _ _ _ _ _ _ H)).
Defined.

(* ===================================================================== *)
(** ** The flow an address submission acts on *)

Lemma recoveryHandleFormSubmission_onFlow r fl body :
  always (onFlow fl body) (recoveryHandleFormSubmission r fl body).
Proof.
  assert (W : forall (C : Op -> bool) {A} (p : Prog A),
            (forall o, C o = true ->
               match o with
               | DeleteRecoveryCodesOfFlow _ | SendRecoveryCode _ _ _ => False
               | _ => True
               end) ->
            always (calls C) p -> always (onFlow fl body) p).
  { intros C A p HC Hp. eapply always_weaken; [| exact Hp].
    intros [o a] Ho. specialize (HC o Ho). unfold onFlow.
    destruct o; simpl in *; auto; contradiction. }
  assert (HE : forall g b e, always (onFlow fl body) (HandleRecoveryErrorOn r g b e)).
  { intros g b e. apply (W callsHandleError); [| apply HandleRecoveryErrorOn_calls].
    intros [] Ho; simpl in *; auto; discriminate. }
  unfold recoveryHandleFormSubmission.
  destruct (Nat.eqb (String.length (Email body)) 0); [apply HE|].
  apply always_vis; [intros; exact I|]. intros d.
  apply always_bind.
  { apply (W callsEnsureCSRF); [| apply EnsureCSRF_calls].
    intros [] Ho; simpl in *; auto; discriminate. }
  intros [err|]; [apply HE|].
  apply always_vis; [intros; reflexivity|]. intros [err|]; [apply HE|].
  apply always_vis; [intros; split; reflexivity|]. intros s.
  assert (G : always (onFlow fl body)
      (let* pub := call SelfPublicURL in
       let* token := call (GenerateCSRFToken r) in
       let* u := call (UpdateRecoveryFlow (emailSentFlow fl body pub token)) in
       match u with
       | Some err =>
           HandleRecoveryErrorOn r (emailSentFlow fl body pub token) (Some body) err
       | None => Ret (emailSentFlow fl body pub token, None)
       end)).
  { cbn [bind call]. apply always_vis; [intros; exact I|]. intros pub.
    apply always_vis; [intros; exact I|]. intros token.
    apply always_vis; [intros; exact I|]. intros [err|]; [apply HE | apply always_ret]. }
  destruct s as [e|]; [| exact G]. destruct e; try apply HE. exact G.
Qed.

(** X22.  The address step of [Recover] acts on the flow fetched under the
    identifier that the payload names, not on the flow [Recover] was handed: in
    every run, codes are deleted for, and a code is sent for, the flow that the
    persister answered for the parsed identifier of the payload and that was
    found valid, and the code goes to the address of the payload. *)
Theorem Recover_acts_on_fetched r f t res :
  behaves (Recover r f) t res -> Forall (onFetched r t) t.
Proof.
  intros H. apply Recover_cases in H.
  assert (Q : forall (C : Op -> bool) (l t' : Trace),
            (forall o, C o = true ->
               match o with
               | DeleteRecoveryCodesOfFlow _ | SendRecoveryCode _ _ _ => False
               | _ => True
               end) ->
            Forall (calls C) l -> Forall (onFetched r t') l).
  { intros C l t' HC F. eapply Forall_impl; [exact F|].
    intros [o a] Ho. specialize (HC o Ho). unfold onFetched.
    destruct o; simpl in *; auto; contradiction. }
  destruct H as [(_ & -> & _) | (_ & d & t1 & -> & H)]; [constructor|].
  apply Forall_cons_2; [exact I|].
  destruct d as [err | body]; [destruct H as [-> _]; constructor|].
  destruct H as (tc & csrf & t2 & -> & Hc & H).
  apply Forall_app_2.
  { apply (Q callsCsrfGate); [intros [] Ho; simpl in *; auto; discriminate|].
    exact (csrfGate_calls _ _ _ _ _ Hc). }
  destruct csrf as [err|].
  { destruct H as (e & He & _).
    apply (Q callsRetry); [intros [] Ho; simpl in *; auto; discriminate|].
    exact (retryRecoveryFlowWithError_calls _ _ _ _ _ He). }
  destruct (submitsCode f body).
  { destruct H as (tg & gate & t3 & -> & Hg & H).
    apply Forall_app_2.
    { apply (Q callsGate); [intros [] Ho; simpl in *; auto; discriminate|].
      exact (MethodEnabledAndAllowed_calls _ _ _ _ _ Hg). }
    destruct gate as [err|]; [destruct H as [-> _]; constructor|].
    apply (Q callsUseCode); [intros [] Ho; simpl in *; auto; discriminate|].
    exact (recoveryUseCode_calls _ _ _ _ _ H). }
  destruct H as (sess & t3 & -> & H).
  apply Forall_cons_2; [exact I|].
  destruct sess as [serr | s'].
  2:{ destruct H as (json & -> & _).
      repeat (apply Forall_cons_2; [destruct json; exact I|]). constructor. }
  destruct H as (tg & gate & t4 & -> & Hg & H).
  apply Forall_app_2.
  { apply (Q callsGate); [intros [] Ho; simpl in *; auto; discriminate|].
    exact (MethodEnabledAndAllowed_calls _ _ _ _ _ Hg). }
  destruct gate as [err|]; [destruct H as [-> _]; constructor|].
  destruct H as (id & fetched & t5 & -> & H).
  do 2 (apply Forall_cons_2; [exact I|]).
  destruct fetched as [err | fl]; [destruct H as [-> _]; constructor|].
  destruct H as (valid & t6 & -> & H).
  apply Forall_cons_2; [exact I|].
  destruct valid as [err|]; [destruct H as (token & -> & _); repeat constructor|].
  destruct H as (e & He & _).
  match goal with
  | |- Forall (onFetched r ?t') _ => assert (FF : fetchedFor r t' body id fl)
  end.
  { unfold fetchedFor. split; [left; reflexivity|].
    split; [| split]; right; apply in_or_app; right; right; apply in_or_app; right.
    - left. reflexivity.
    - right. left. reflexivity.
    - do 2 right. left. reflexivity. }
  assert (A : always (onFlow fl body) (dispatchOnState r fl body)).
  { unfold dispatchOnState.
    destruct (String.eqb (recovery.State fl) flow.StateChooseMethod
              || String.eqb (recovery.State fl) flow.StateEmailSent).
    - apply always_bind; [| intros [g e']; apply always_ret].
      apply recoveryHandleFormSubmission_onFlow.
    - destruct (String.eqb (recovery.State fl) flow.StatePassedChallenge);
        (apply always_bind; [| intros; apply always_ret]);
        (eapply always_weaken; [| apply retryRecoveryFlowWithMessage_calls]);
        intros [[] ?] Ho; unfold onFlow; simpl in *; auto; discriminate. }
  eapply Forall_impl; [exact (A _ _ He)|].
  intros [o a] Ho. unfold onFlow, onFetched in *.
  destruct o; simpl in *; auto.
  - exists body, id, fl. auto.
  - destruct Ho as [-> ->]. exists body, id, fl. auto.
Qed.

(** In the scenario: the address is submitted for flow 1, and the code is
    sent for the flow the store holds under 1. *)
Lemma Recover_acts_on_fetched_witness :
  behaves (Recover Sample.emailRequest Sample.F1)
    (snd Sample.step1) (fst (fst Sample.step1))
  /\ Forall (onFetched Sample.emailRequest (snd Sample.step1)) (snd Sample.step1)
  /\ In (SendRecoveryCode Sample.F1 "email" "a@x.com", AError None) (snd Sample.step1).
Proof.
  assert (H : behaves (Recover Sample.emailRequest Sample.F1)
                (snd Sample.step1) (fst (fst Sample.step1)))
    by exact (run_behaves_eq _ _ _ _ step1_run).
  split; [exact H|].
  split; [exact (Recover_acts_on_fetched _ _ _ _ H) | cbn; here].
Defined.

(* ===================================================================== *)
(** ** The method named with a code *)

Lemma recoveryUseCode_withMethod r body m f :
  recoveryUseCode r (withMethod body m) f = recoveryUseCode r body f.
Proof. destruct body. reflexivity. Qed.

(** X23.  With a code, the method field of the payload is not looked at.  When
    [Recover] takes the submission for a code (the flow is past ChooseMethod and
    the payload carries no address), the method gate is asked about the
    strategy's own identifier: the same run, with the same answers and the same
    result, is had with any other method in the payload, one that names another
    strategy included. *)
Theorem Recover_code_ignores_method r f body m t res :
  submitsCode f body = true ->
  behaves (Recover r f) ((DecodeRecovery r, APayload (inr body)) :: t) res ->
  behaves (Recover r f)
    ((DecodeRecovery r, APayload (inr (withMethod body m))) :: t) res.
Proof.
  intros S. unfold Recover.
  destruct (negb (isCodeFlow f)); [intros [[=] _]|].
  cbn [bind call]. intros (d & t1 & E & H). injection E as <- <-.
  exists (inr (withMethod body m)), t. split; [reflexivity|].
  fold (csrfGate r f body) in H. fold (resetFlow f) in H.
  fold (csrfGate r f (withMethod body m)). fold (resetFlow f).
  change (csrfGate r f (withMethod body m)) with (csrfGate r f body).
  apply behaves_bind_inv in H.
  destruct H as [(tc & csrf & t2 & -> & Hc & H) | [Hc ->]].
  2:{ destruct (csrfGate_returns _ _ _ _ Hc). }
  eapply behaves_bind_intro; [exact Hc|].
  destruct csrf as [err|]; [exact H|].
  cbv zeta in *.
  change (negb (String.eqb (recovery.State (resetFlow f)) flow.StateChooseMethod)
          && Nat.eqb (String.length (Email body)) 0) with (submitsCode f body) in H.
  change (negb (String.eqb (recovery.State (resetFlow f)) flow.StateChooseMethod)
          && Nat.eqb (String.length (Email (withMethod body m))) 0)
    with (submitsCode f body).
  rewrite S in *. rewrite recoveryUseCode_withMethod. exact H.
Qed.

(** In the scenario: the code, submitted with the method "link". *)
Lemma Recover_code_ignores_method_witness :
  submitsCode Sample.F1sent (Form Sample.codeRequest) = true
  /\ behaves (Recover Sample.codeRequest Sample.F1sent)
       ((DecodeRecovery Sample.codeRequest, APayload (inr (Form Sample.codeRequest)))
        :: List.tl (snd Sample.step2))
       (fst (fst Sample.step2))
  /\ behaves (Recover Sample.codeRequest Sample.F1sent)
       ((DecodeRecovery Sample.codeRequest,
         APayload (inr (withMethod (Form Sample.codeRequest) "link")))
        :: List.tl (snd Sample.step2))
       (fst (fst Sample.step2)).
Proof.
  assert (S : submitsCode Sample.F1sent (Form Sample.codeRequest) = true)
    by reflexivity.
  assert (H : behaves (Recover Sample.codeRequest Sample.F1sent)
       ((DecodeRecovery Sample.codeRequest, APayload (inr (Form Sample.codeRequest)))
        :: List.tl (snd Sample.step2))
       (fst (fst Sample.step2)))
    by exact (run_behaves_eq _ _ _ _ step2_run).
  split; [exact S|]. split; [exact H|].
  exact (Recover_code_ignores_method _ _ _ "link" _ _ S H).
Defined.

(* ===================================================================== *)
(** ** The strategy switched off *)

(** The method gate as [Recover] asks it: for the recovery flow and the
    strategy's own identifier. *)
Lemma MethodEnabledAndAllowed_code actual tg gate :
  behaves (MethodEnabledAndAllowed flow.RecoveryFlow RecoveryStrategyID actual)
    tg (Some gate) ->
  (actual <> RecoveryStrategyID /\ tg = [] /\ gate = Some ErrStrategyNotResponsible)
  \/ exists c,
       tg = [(SelfServiceCodeStrategy, ACodeStrategy c)]
       /\ gate = gateError (config.CodeEnabled c).
Proof.
  unfold MethodEnabledAndAllowed.
  destruct (String.eqb actual RecoveryStrategyID) eqn:E; cbn [negb].
  - apply String.eqb_eq in E. subst actual.
    change (EqualFold RecoveryStrategyID identity.CredentialsTypeCodeAuth) with true.
    cbn [bind call]. intros (c & t1 & -> & H). right. exists c.
    unfold gateError. destruct (config.CodeEnabled c); cbn [negb] in H;
      destruct H as [-> [= <-]]; auto.
  - apply String.eqb_neq in E. intros [-> [= <-]]. left. auto.
Qed.

(** X24.  With the code strategy switched off in the configuration, [Recover]
    neither uses, deletes nor sends a code, updates no flow, address or session,
    and fetches no flow.  A submission that gets as far as the method gate is
    answered "not found", with the reason that the endpoint was disabled.  (A
    submission refused by the anti-forgery gate, or made by a client that is
    signed in, is answered before.) *)
Theorem Recover_disabled r f t res :
  behaves (Recover r f) t res ->
  (forall c, In (SelfServiceCodeStrategy, ACodeStrategy c) t ->
             config.CodeEnabled c = false) ->
  Forall (callsNo mutates) t
  /\ Forall (callsNo isGetRecoveryFlow) t
  /\ (forall c, In (SelfServiceCodeStrategy, ACodeStrategy c) t ->
        res = Some (resetFlow f,
                    Some (ErrNotFound strategy.EndpointDisabledMessage))).
Proof.
  intros H Off. apply Recover_cases in H.
  assert (Q : forall (C : Op -> bool) (l : Trace),
            (forall o, C o = true -> mutates o = false /\ isGetRecoveryFlow o = false) ->
            Forall (calls C) l ->
            Forall (callsNo mutates) l /\ Forall (callsNo isGetRecoveryFlow) l).
  { intros C l HC F. split; (eapply calls_no; [| exact F]); intros o Ho;
      apply (HC o Ho). }
  destruct H as [(_ & -> & _) | (_ & d & t1 & -> & H)].
  { split; [constructor|]. split; [constructor | intros c []]. }
  destruct d as [err | body].
  { destruct H as [-> _]. split; [repeat constructor|].
    split; [repeat constructor | intros c Hin; in_trace Hin]. }
  destruct H as (tc & csrf & t2 & -> & Hc & H).
  seen csrfGate_calls Hc.
  destruct (Q callsCsrfGate tc) as [Qc1 Qc2]; [| exact F |].
  { intros [] Ho; simpl in *; auto; discriminate. }
  destruct csrf as [err|].
  { destruct H as (e & He & _). seen retryRecoveryFlowWithError_calls He.
    destruct (Q callsRetry t2) as [Q1 Q2]; [| assumption |].
    { intros [] Ho; simpl in *; auto; discriminate. }
    split; [apply Forall_cons_2; [reflexivity|]; apply Forall_app_2; assumption|].
    split; [apply Forall_cons_2; [reflexivity|]; apply Forall_app_2; assumption|].
    intros c Hin. in_trace Hin. }
  destruct (submitsCode f body).
  { destruct H as (tg & gate & t3 & -> & Hg & H).
    destruct (MethodEnabledAndAllowed_code _ _ _ Hg) as [(_ & -> & ->) | (c & -> & ->)].
    - destruct H as [-> _]. rewrite app_nil_r.
      split; [apply Forall_cons_2; [reflexivity | assumption]|].
      split; [apply Forall_cons_2; [reflexivity | assumption]|].
      intros c Hin. in_trace Hin.
    - assert (E : config.CodeEnabled c = false).
      { apply Off. right. apply in_or_app. right. left. reflexivity. }
      rewrite E in H. cbn [gateError] in H. destruct H as [-> ->].
      split; [apply Forall_cons_2; [reflexivity|]; apply Forall_app_2;
              [assumption | repeat constructor]|].
      split; [apply Forall_cons_2; [reflexivity|]; apply Forall_app_2;
              [assumption | repeat constructor]|].
      intros _ _. reflexivity. }
  destruct H as (sess & t3 & -> & H).
  destruct sess as [serr | s'].
  2:{ destruct H as (json & -> & _).
      split; [apply Forall_cons_2; [reflexivity|]; apply Forall_app_2;
              [assumption | repeat constructor; destruct json; reflexivity]|].
      split; [apply Forall_cons_2; [reflexivity|]; apply Forall_app_2;
              [assumption | repeat constructor; destruct json; reflexivity]|].
      intros c Hin. in_trace Hin; destruct json; discriminate Hin. }
  destruct H as (tg & gate & t4 & -> & Hg & H).
  destruct (MethodEnabledAndAllowed_code _ _ _ Hg) as [(_ & -> & ->) | (c & -> & ->)].
  - destruct H as [-> _].
    split; [apply Forall_cons_2; [reflexivity|]; apply Forall_app_2;
            [assumption | repeat constructor]|].
    split; [apply Forall_cons_2; [reflexivity|]; apply Forall_app_2;
            [assumption | repeat constructor]|].
    intros c Hin. in_trace Hin.
  - assert (E : config.CodeEnabled c = false).
    { apply Off. right. apply in_or_app. right. right. left. reflexivity. }
    rewrite E in H. cbn [gateError] in H. destruct H as [-> ->].
    split; [apply Forall_cons_2; [reflexivity|]; apply Forall_app_2;
            [assumption | repeat constructor]|].
    split; [apply Forall_cons_2; [reflexivity|]; apply Forall_app_2;
            [assumption | repeat constructor]|].
    intros _ _. reflexivity.
Qed.

Lemma stepOff_run :
  run Mem.impl (Recover Sample.codeRequest Sample.F1sent) Sample.w1off
  = Sample.stepOff.
Proof. vm_compute. reflexivity. Qed.

(** In the scenario: the code is submitted after the strategy was switched
    off; the code stays unused. *)
Lemma Recover_disabled_witness :
  behaves (Recover Sample.codeRequest Sample.F1sent)
    (snd Sample.stepOff) (fst (fst Sample.stepOff))
  /\ (forall c, In (SelfServiceCodeStrategy, ACodeStrategy c) (snd Sample.stepOff) ->
                config.CodeEnabled c = false)
  /\ Forall (callsNo mutates) (snd Sample.stepOff)
  /\ Mem.codes (snd (fst Sample.stepOff)) = Mem.codes Sample.w1.
Proof.
  assert (H : behaves (Recover Sample.codeRequest Sample.F1sent)
                (snd Sample.stepOff) (fst (fst Sample.stepOff)))
    by exact (run_behaves_eq _ _ _ _ stepOff_run).
  assert (Off : forall c,
            In (SelfServiceCodeStrategy, ACodeStrategy c) (snd Sample.stepOff) ->
            config.CodeEnabled c = false).
  { intros c Hin. cbn in Hin.
    repeat (destruct Hin as [Hin | Hin]; [try discriminate Hin|]);
      [injection Hin as <-; reflexivity | destruct Hin]. }
  split; [exact H|]. split; [exact Off|].
  split; [exact (proj1 (Recover_disabled _ _ _ _ H Off)) | reflexivity].
Defined.

(* ===================================================================== *)
(** ** A flow in a state the strategy does not know *)

(** X25.  A submission that gets as far as a valid fetched flow whose state is
    none of ChooseMethod, EmailSent and PassedChallenge is not worked on:
    nothing stored is changed, and the run ends in a retry with the message
    "state failure" and a new flow of the fetched flow's type. *)
Theorem Recover_unknown_state r f t res fl :
  behaves (Recover r f) t res ->
  In (FlowValid fl, AError None) t ->
  ~ knownState (recovery.State fl) ->
  Forall (callsNo mutates) t
  /\ exists pre post e,
       t = pre ++ post
       /\ behaves (retryRecoveryFlowWithMessage r (recovery.Type_ fl)
                     text.NewErrorValidationRecoveryStateFailure)
            post (Some e)
       /\ res = Some (resetFlow f, Some e).
Proof.
  intros H Hin St. apply Recover_cases in H.
  destruct H as [(_ & -> & _) | (_ & d & t1 & -> & H)]; [destruct Hin|].
  destruct d as [err | body].
  { destruct H as [-> _]. in_trace Hin. }
  destruct H as (tc & csrf & t2 & -> & Hc & H).
  seen csrfGate_calls Hc.
  destruct csrf as [err|].
  { destruct H as (e & He & ->). seen retryRecoveryFlowWithError_calls He.
    in_trace Hin. }
  destruct (submitsCode f body).
  { destruct H as (tg & gate & t3 & -> & Hg & H).
    seen MethodEnabledAndAllowed_calls Hg.
    destruct gate as [err|].
    - destruct H as [-> _]. in_trace Hin.
    - seen recoveryUseCode_calls H. in_trace Hin. }
  destruct H as (sess & t3 & -> & H).
  destruct sess as [serr | s'].
  2:{ destruct H as (json & -> & _). in_trace Hin; destruct json; discriminate Hin. }
  destruct H as (tg & gate & t4 & -> & Hg & H).
  seen MethodEnabledAndAllowed_calls Hg.
  destruct gate as [err|].
  { destruct H as [-> _]. in_trace Hin. }
  destruct H as (id & fetched & t5 & -> & H).
  destruct fetched as [err | fl0].
  { destruct H as [-> _]. in_trace Hin. }
  destruct H as (valid & t6 & -> & H).
  destruct valid as [err|].
  { destruct H as (token & -> & _). in_trace Hin. }
  destruct H as (e & He & ->). seen dispatchOnState_calls He.
  in_trace Hin. injection Hin as <-.
  unfold dispatchOnState in He.
  assert (B1 : String.eqb (recovery.State fl0) flow.StateChooseMethod = false).
  { apply String.eqb_neq. intros E. apply St. left. exact E. }
  assert (B2 : String.eqb (recovery.State fl0) flow.StateEmailSent = false).
  { apply String.eqb_neq. intros E. apply St. right. left. exact E. }
  assert (B3 : String.eqb (recovery.State fl0) flow.StatePassedChallenge = false).
  { apply String.eqb_neq. intros E. apply St. right. right. exact E. }
  rewrite B1, B2, B3 in He. cbn [orb] in He.
  apply behaves_bind_returns in He; [| apply retryRecoveryFlowWithMessage_returns].
  destruct He as (post & e' & tb & -> & Hp & [-> [= ->]]).
  rewrite app_nil_r.
  seen retryRecoveryFlowWithMessage_calls Hp.
  split.
  - unfold callsNo. cbn. forall_trace.
  - exists ((DecodeRecovery r, APayload (inr body)) :: tc
          ++ (FetchFromRequest r, ASession (inl serr)) :: tg
          ++ [(ParseUUID (Flow body), AUUID id);
              (GetRecoveryFlow id, AFlow (inr fl0));
              (FlowValid fl0, AError None)]), post, e'.
    split; [| split; [exact Hp | reflexivity]].
    cbn. repeat (rewrite <- app_assoc; cbn). reflexivity.
Qed.

Lemma stepOdd_run :
  run Mem.impl (Recover Sample.emailRequest Sample.F1odd) Sample.w0odd
  = Sample.stepOdd.
Proof. vm_compute. reflexivity. Qed.

Lemma Recover_unknown_state_witness :
  behaves (Recover Sample.emailRequest Sample.F1odd)
    (snd Sample.stepOdd) (fst (fst Sample.stepOdd))
  /\ In (FlowValid Sample.F1odd, AError None) (snd Sample.stepOdd)
  /\ ~ knownState (recovery.State Sample.F1odd)
  /\ Forall (callsNo mutates) (snd Sample.stepOdd).
Proof.
  assert (H : behaves (Recover Sample.emailRequest Sample.F1odd)
                (snd Sample.stepOdd) (fst (fst Sample.stepOdd)))
    by exact (run_behaves_eq _ _ _ _ stepOdd_run).
  assert (I : In (FlowValid Sample.F1odd, AError None) (snd Sample.stepOdd))
    by (cbn; here).
  assert (N : ~ knownState (recovery.State Sample.F1odd))
    by (intros [E | [E | E]]; discriminate E).
  split; [exact H|]. split; [exact I|]. split; [exact N|].
  exact (proj1 (Recover_unknown_state _ _ _ _ _ H I N)).
Defined.

(* ===================================================================== *)
(** ** A code that cannot be honoured *)

(** X26.  When the code store accepts the code but the identity bound to it
    cannot be loaded, [recoveryUseCode] hands that error back after generating a
    fresh anti-forgery token for the form: the code has been used, yet the flow
    is not persisted, keeps its state and records no recovered identity, no
    address is touched and no session is made; the e-mail input of the form is
    emptied.  When the code store fails with an error other than "code not
    found", the flow is not updated either: the run goes on as a retry with a
    new flow. *)
Theorem recoveryUseCode_failures r body f t res :
  behaves (recoveryUseCode r body f) t res ->
  (forall id err, In (GetIdentity id, AIdentity (inl err)) t ->
     exists code token g,
       t = [(UseRecoveryCode (recovery.ID f) (Code body), ACode (inr code));
            (GetIdentity (IdentityID code), AIdentity (inl err));
            (GenerateCSRFToken r, AString token)]
       /\ id = IdentityID code
       /\ res = Some (g, Some err)
       /\ sameFrame f g /\ untouched f g
       /\ In (emailField (Some "")) (container.Nodes (recovery.UI g)))
  /\ (forall flowID code err,
        In (UseRecoveryCode flowID code, ACode (inl err)) t ->
        err <> ErrCodeNotFound ->
        exists rest,
          t = (UseRecoveryCode (recovery.ID f) (Code body), ACode (inl err)) :: rest
          /\ behaves (retryWith r f err) rest res
          /\ Forall (callsNo mutates) rest).
Proof.
  unfold recoveryUseCode. cbn [bind call]. intros (c & t1 & -> & H).
  assert (NoMutR : forall l, Forall (calls callsRetry) l -> Forall (callsNo mutates) l).
  { intros l F. eapply calls_no; [| exact F].
    intros [] Ho; simpl in *; auto; discriminate. }
  destruct c as [err0 | code].
  - assert (K : (err0 = ErrCodeNotFound /\ exists u t2,
                   t1 = (UpdateRecoveryFlow (refusedFlow f), AError u) :: t2
                   /\ Forall (calls callsRetry) t2)
                \/ (err0 <> ErrCodeNotFound /\ behaves (retryWith r f err0) t1 res)).
    { destruct err0; try (right; split; [discriminate | exact H]).
      left. split; [reflexivity|]. cbn [bind call] in H.
      destruct H as (u & t2 & -> & H). exists u, t2. split; [reflexivity|].
      destruct u as [e|]; [exact (retryWith_calls _ _ _ _ _ H)|].
      destruct H as [-> _]. constructor. }
    split.
    + intros id err Hin.
      destruct K as [(_ & u & t2 & -> & F) | (_ & K)].
      * in_trace Hin.
      * seen retryWith_calls K. in_trace Hin.
    + intros flowID cd err Hin Ne.
      destruct K as [(-> & u & t2 & -> & F) | (N0 & K)].
      * in_trace Hin. injection Hin as _ _ <-. contradiction.
      * seen retryWith_calls K. in_trace Hin. injection Hin as _ _ <-.
        exists t1. split; [reflexivity|]. split; [exact K | exact (NoMutR _ F)].
  - cbn [bind call] in H. destruct H as (i & t2 & -> & H).
    destruct i as [err0 | recovered].
    + unfold HandleRecoveryErrorOn, HandleRecoveryError in H. cbn [bind call] in H.
      destruct H as (token & t3 & -> & [-> ->]).
      split.
      * intros id err Hin. in_trace Hin. injection Hin as <- <-.
        exists code, token. eexists. split; [reflexivity|].
        split; [reflexivity|]. split; [reflexivity|].
        split; [repeat split|]. split; [repeat split|].
        cbn. apply Upsert_In.
      * intros flowID cd err Hin Ne. in_trace Hin.
    + assert (F : Forall (calls (fun o => callsMark o || callsIssueSession o)) t2).
      { assert (A : always (calls (fun o => callsMark o || callsIssueSession o))
          (let* marked :=
             (match CodeType code with
              | RecoveryCodeTypeSelfService =>
                  markRecoveryAddressVerified r f recovered (RecoveryAddress code)
              | RecoveryCodeTypeAdmin => Ret (f, None)
              end) in
           match marked with
           | (f, Some err) => HandleRecoveryErrorOn r f (Some body) err
           | (f, None) => recoveryIssueSession r f recovered
           end)) by calls_auto.
        exact (A _ _ H). }
      split.
      * intros id err Hin. in_trace Hin.
      * intros flowID cd err Hin Ne. in_trace Hin.
Qed.

Lemma gone_run :
  run Mem.impl
    (recoveryUseCode Sample.codeRequest (Form Sample.codeRequest) Sample.F1sent)
    Sample.w1gone
  = Sample.gone.
Proof. vm_compute. reflexivity. Qed.

(** In the scenario: the identity of the code is gone; the code is used and
    the flow stays in state EmailSent. *)
Lemma recoveryUseCode_failures_witness :
  behaves
    (recoveryUseCode Sample.codeRequest (Form Sample.codeRequest) Sample.F1sent)
    (snd Sample.gone) (fst (fst Sample.gone))
  /\ In (GetIdentity 100%N, AIdentity (inl (OtherError "no such identity")))
       (snd Sample.gone)
  /\ exists code token g,
       snd Sample.gone
       = [(UseRecoveryCode (recovery.ID Sample.F1sent) (Code (Form Sample.codeRequest)),
           ACode (inr code));
          (GetIdentity (IdentityID code),
           AIdentity (inl (OtherError "no such identity")));
          (GenerateCSRFToken Sample.codeRequest, AString token)]
       /\ fst (fst Sample.gone) = Some (g, Some (OtherError "no such identity"))
       /\ recovery.State g = flow.StateEmailSent.
Proof.
  assert (H : behaves
    (recoveryUseCode Sample.codeRequest (Form Sample.codeRequest) Sample.F1sent)
    (snd Sample.gone) (fst (fst Sample.gone)))
    by exact (run_behaves_eq _ _ _ _ gone_run).
  assert (I : In (GetIdentity 100%N, AIdentity (inl (OtherError "no such identity")))
                (snd Sample.gone)) by (cbn; here).
  split; [exact H|]. split; [exact I|].
  destruct (proj1 (recoveryUseCode_failures _ _ _ _ _ H) _ _ I)
    as (code & token & g & E & _ & R & _ & U & _).
  exists code, token, g. split; [exact E|]. split; [exact R|].
  destruct U as [U _]. rewrite U. reflexivity.
Defined.

(* ===================================================================== *)
(** ** The settings flow that follows a recovery *)

Ltac passed_fact :=
  unfold passedOf, calls in *; simpl in *;
  first [exact I | reflexivity | tauto | solve [intuition congruence]].

Ltac passed_step :=
  lazymatch goal with
  | |- spec _ _ (Ret _) => apply spec_ret; passed_fact
  | |- spec ?P' ?R' (Vis ?o ?k) =>
      apply (spec_vis P' R' o k); [intros ?; passed_fact | intros ?]
  | |- spec _ _ (match ?x with _ => _ end) => destruct x eqn:?
  | |- spec _ _ (bind (match ?x with _ => _ end) _) => destruct x eqn:?
  | |- spec _ _ (bind _ _) => progress cbn [bind call]
  end.

(** X27.  When [recoveryIssueSession] persists the settings flow, everything
    before went well, and the run is this: the session made in the run was
    handed on; a settings flow was made for the session's identity, of the type
    of the recovery flow; the return address was taken over from the request URL
    of the recovery flow; the hooks after recovery were run on the flow, in
    state PassedChallenge, and the session; the settings flow persisted is the
    fresh one with the address taken over and the single message that the
    recovery succeeded, good until the time read plus the configured age of a
    privileged session.  The client is then sent on to this settings flow and
    the handler ends with [ErrCompletedByStrategy]. *)
Theorem recoveryIssueSession_settings r f id t res sf' :
  behaves (recoveryIssueSession r f id) t res ->
  In (UpdateSettingsFlow sf', AError None) t ->
  exists sess sf fallback u g now maxAge,
    made t sess
    /\ In (SettingsNewFlow r (session.Identity sess) (recovery.Type_ f),
           ASettingsFlow (inr sf)) t
    /\ In (TakeOverReturnToParameter (recovery.RequestURL f)
             (settings.RequestURL sf) fallback, AReturnTo (inr u)) t
    /\ In (PostRecoveryHook r g sess, AError None) t
    /\ passedOf f g
    /\ In (Now, ATime now) t
    /\ In (SelfServiceFlowSettingsPrivilegedSessionMaxAge, ATime maxAge) t
    /\ sf' = successFlow sf u (now + maxAge)%Z
    /\ sendsToSettings r f sf' t
    /\ exists g', res = Some (g', Some ErrCompletedByStrategy).
Proof.
  unfold recoveryIssueSession. cbn [bind call].
  intros (token & t1 & -> & u0 & t2 & -> & H) Hin.
  destruct u0 as [err|].
  { seen retryWith_calls H. in_trace Hin. }
  cbn [bind call] in H. destruct H as (now0 & t3 & -> & s & t4 & -> & H).
  destruct s as [err | sess].
  { seen retryWith_calls H. in_trace Hin. }
  apply behaves_bind_inv in H.
  destruct H as [(ta & [g u1] & tb & -> & Ha & Hb) | [Ha ->]].
  2:{ exfalso. revert Ha.
      match goal with
      | |- behaves ?p _ None -> False =>
          assert (R : returns p) by returns_auto; apply R
      end. }
  assert (S : Forall (calls isUpsertSession) ta /\ passedOf f g).
  { revert Ha.
    match goal with
    | |- behaves ?p _ _ -> _ =>
        assert (S : spec (calls isUpsertSession) (fun x => passedOf f (fst x)) p)
          by (repeat passed_step)
    end.
    intros Ha. destruct (S _ _ Ha) as [S1 S2]. split; [exact S1|].
    exact (S2 _ eq_refl). }
  destruct S as [Fa Pg].
  destruct u1 as [err|].
  { seen retryWith_calls Hb. in_trace Hin. }
  cbn [bind call] in Hb. destruct Hb as (nsf & t5 & -> & Hb).
  destruct nsf as [err | sf].
  { seen retryWith_calls Hb. in_trace Hin. }
  cbn [bind call] in Hb.
  destruct Hb as (returnToURL & t6 & -> & tk & t7 & -> & Hb).
  destruct tk as [err | u].
  { seen retryWith_calls Hb. in_trace Hin. }
  cbn [bind call] in Hb. destruct Hb as (h & t8 & -> & Hb).
  destruct h as [err|].
  { seen retryWith_calls Hb. in_trace Hin. }
  cbn [bind call] in Hb.
  destruct Hb as (now & t9 & -> & maxAge & t10 & -> & us & t11 & -> & Hb).
  destruct us as [err|].
  { seen retryWith_calls Hb. in_trace Hin. }
  destruct Pg as (Pid & Pty & Purl & Pst).
  assert (Last : exists g', res = Some (g', Some ErrCompletedByStrategy)
            /\ Forall (callsNo mutates) t11
            /\ ((recovery.Type_ f = flow.TypeAPI /\ exists g'',
                   t11 = [(WriterWrite r g'', AUnit)] /\ passedOf f g''
                   /\ In (NewContinueWithSettingsUI
                            (successFlow sf u (now + maxAge)%Z))
                        (recovery.ContinueWith_ g''))
                \/ (recovery.Type_ f <> flow.TypeAPI /\ exists json ui,
                      t11 = [(IsJSONRequest r, ABool json);
                             (SelfServiceFlowSettingsUI, AString ui);
                             (if json
                              then WriterWriteError r
                                     (BrowserLocationChangeRequiredError
                                        (AppendTo ui (settings.ID sf)))
                              else HttpRedirect r (AppendTo ui (settings.ID sf))
                                     StatusSeeOther, AUnit)]))).
  { unfold flow.IsAPI in Hb. rewrite Pty in Hb.
    destruct (String.eqb (recovery.Type_ f) flow.TypeAPI) eqn:Ty.
    - apply String.eqb_eq in Ty. cbn [bind call] in Hb.
      destruct Hb as ([] & t12 & -> & [-> ->]).
      eexists. split; [reflexivity|]. split; [repeat constructor|].
      left. split; [exact Ty|]. eexists. split; [reflexivity|].
      split; [repeat split; assumption|].
      cbn. apply in_or_app. right. left. reflexivity.
    - apply String.eqb_neq in Ty. cbn [bind call] in Hb.
      destruct Hb as (json & t12 & -> & Hb).
      destruct json; cbn [bind call] in Hb;
        destruct Hb as (ui & t13 & -> & [] & t14 & -> & [-> ->]);
        (eexists; split; [reflexivity|]; split; [repeat constructor|];
         right; split; [exact Ty|]).
      + exists true, ui. reflexivity.
      + exists false, ui. reflexivity. }
  destruct Last as (g' & -> & NoMut & Resp).
  assert (E : sf' = successFlow sf u (now + maxAge)%Z).
  { in_trace Hin.
    - injection Hin as <-. reflexivity.
    - rewrite Forall_forall in NoMut. apply list_elem_of_In in Hin.
      specialize (NoMut _ Hin). discriminate NoMut. }
  subst sf'.
  exists sess, sf, (match returnToURL with Some x => x | None => "" end), u, g,
    now, maxAge.
  split.
  { exists r, id, now0, identity.CredentialsTypeRecoveryCode,
      identity.AuthenticatorAssuranceLevel1. do 3 right. left. reflexivity. }
  split.
  { do 4 right. apply in_or_app. right. left. rewrite Pty. reflexivity. }
  split.
  { do 4 right. apply in_or_app. right. do 2 right. left.
    rewrite Purl. reflexivity. }
  split.
  { do 4 right. apply in_or_app. right. do 3 right. left. reflexivity. }
  split; [repeat split; assumption|].
  split.
  { do 4 right. apply in_or_app. right. do 4 right. left. reflexivity. }
  split.
  { do 4 right. apply in_or_app. right. do 5 right. left. reflexivity. }
  split; [reflexivity|].
  split; [| eauto].
  destruct Resp as [(Ty & g'' & -> & Pg'' & Hc) | (Ty & json & ui & ->)].
  - left. split; [exact Ty|].
    eexists (_ :: _ :: _ :: _ :: ta ++ [_; _; _; _; _; _; _]), g''.
    split; [| split; assumption].
    cbn. do 4 f_equal. rewrite <- app_assoc. reflexivity.
  - right. split; [exact Ty|].
    eexists (_ :: _ :: _ :: _ :: ta ++ [_; _; _; _; _; _; _]), json, ui.
    cbn. do 4 f_equal. rewrite <- app_assoc. reflexivity.
Qed.

(** In the scenario, on the flow of type API: the settings flow persisted
    carries the message of success, and the flow written names it. *)
Lemma recoveryIssueSession_settings_witness :
  behaves (recoveryIssueSession Sample.codeRequest Sample.F1api Sample.I1)
    (snd Sample.issuedApi) (fst (fst Sample.issuedApi))
  /\ In (UpdateSettingsFlow Sample.settingsApi, AError None) (snd Sample.issuedApi)
  /\ sendsToSettings Sample.codeRequest Sample.F1api Sample.settingsApi
       (snd Sample.issuedApi)
  /\ exists until,
       container.Messages (settings.UI Sample.settingsApi)
       = [text.NewRecoverySuccessful until].
Proof.
  assert (H : behaves (recoveryIssueSession Sample.codeRequest Sample.F1api Sample.I1)
                (snd Sample.issuedApi) (fst (fst Sample.issuedApi)))
    by exact (run_behaves_eq _ _ _ _ issuedApi_run).
  assert (I : In (UpdateSettingsFlow Sample.settingsApi, AError None)
                (snd Sample.issuedApi)) by (cbn; here).
  split; [exact H|]. split; [exact I|].
  destruct (recoveryIssueSession_settings _ _ _ _ _ _ H I)
    as (sess & sf & fallback & u & g & now & maxAge & _ & _ & _ & _ & _ & _ & _
        & E & S & _).
  split; [exact S|]. exists (now + maxAge)%Z. rewrite E. reflexivity.
Defined.

(* ===================================================================== *)
(** ** The code step of [Recover] *)

(** X28.  When [Recover] takes a submission for a code (the flow is past
    ChooseMethod and the payload carries no address), it works on the flow it
    was handed and on nothing else: the session of the client is not looked for,
    no flow is fetched, the flow is not checked for validity (its expiry is the
    caller's to check), and no code is deleted or sent. *)
Theorem Recover_code_step r f t res body :
  behaves (Recover r f) t res ->
  startsWith t (DecodeRecovery r, APayload (inr body)) ->
  submitsCode f body = true ->
  Forall (callsNo callsAddressStep) t.
Proof.
  intros H S C. apply Recover_cases in H.
  destruct H as [(_ & -> & _) | (_ & d & t1 & -> & H)]; [constructor|].
  injection S as ->.
  destruct H as (tc & csrf & t2 & -> & Hc & H).
  seen csrfGate_calls Hc.
  destruct csrf as [err|].
  { destruct H as (e & He & _). seen retryRecoveryFlowWithError_calls He.
    unfold callsNo. cbn. forall_trace. }
  rewrite C in H.
  destruct H as (tg & gate & t3 & -> & Hg & H).
  seen MethodEnabledAndAllowed_calls Hg.
  destruct gate as [err|].
  { destruct H as [-> _]. unfold callsNo. cbn. forall_trace. }
  seen recoveryUseCode_calls H.
  unfold callsNo. cbn. forall_trace.
Qed.

(** In the scenario: the code is submitted to the flow in state EmailSent. *)
Lemma Recover_code_step_witness :
  behaves (Recover Sample.codeRequest Sample.F1sent)
    (snd Sample.step2) (fst (fst Sample.step2))
  /\ startsWith (snd Sample.step2)
       (DecodeRecovery Sample.codeRequest, APayload (inr (Form Sample.codeRequest)))
  /\ submitsCode Sample.F1sent (Form Sample.codeRequest) = true
  /\ Forall (callsNo callsAddressStep) (snd Sample.step2).
Proof.
  assert (H : behaves (Recover Sample.codeRequest Sample.F1sent)
                (snd Sample.step2) (fst (fst Sample.step2)))
    by exact (run_behaves_eq _ _ _ _ step2_run).
  assert (S : startsWith (snd Sample.step2)
       (DecodeRecovery Sample.codeRequest, APayload (inr (Form Sample.codeRequest))))
    by reflexivity.
  assert (C : submitsCode Sample.F1sent (Form Sample.codeRequest) = true)
    by reflexivity.
  split; [exact H|]. split; [exact S|]. split; [exact C|].
  exact (Recover_code_step _ _ _ _ _ H S C).
Defined.

(* ===================================================================== *)
(** ** When [Recover] panics *)

Lemma recoveryUseCode_panic r body f t :
  behaves (recoveryUseCode r body f) t None ->
  exists code recovered,
    t = [(UseRecoveryCode (recovery.ID f) (Code body), ACode (inr code));
         (GetIdentity (IdentityID code), AIdentity (inr recovered))]
    /\ CodeType code = RecoveryCodeTypeSelfService
    /\ RecoveryAddress code = None
    /\ identity.VerifiableAddresses recovered <> [].
Proof.
  unfold recoveryUseCode. cbn [bind call]. intros (c & t1 & -> & H).
  destruct c as [err | code].
  { exfalso. destruct err;
      try exact (retryWith_returns _ _ _ _ H).
    cbn [bind call] in H. destruct H as (u & t2 & -> & H).
    destruct u as [e|]; [exact (retryWith_returns _ _ _ _ H) | destruct H as [_ [=]]]. }
  cbn [bind call] in H. destruct H as (i & t2 & -> & H).
  destruct i as [err | recovered];
    [exfalso; exact (HandleRecoveryErrorOn_returns _ _ _ _ _ H)|].
  apply behaves_bind_inv in H.
  destruct H as [(ta & [g u] & tb & -> & _ & Hb) | [Ha _]].
  { exfalso. destruct u as [e|];
      [exact (HandleRecoveryErrorOn_returns _ _ _ _ _ Hb)
      | exact (recoveryIssueSession_returns _ _ _ _ Hb)]. }
  apply markRecoveryAddressVerified_run in Ha.
  destruct Ha as [(C1 & C2 & C3 & -> & _) | (tm & u & th & g & _ & _ & [=] & _)].
  exists code, recovered. auto.
Qed.

(** X29.  [Recover] returns on every run but one kind: the code store handed out
    a self-service code that carries no recovery address, for an identity that
    has verifiable addresses.  The run then breaks off right after the identity
    was loaded: the code is used, nothing else is changed and no response is
    written. *)
Theorem Recover_panics r f t :
  behaves (Recover r f) t None ->
  exists pre submitted code recovered,
    t = pre ++ [(UseRecoveryCode (recovery.ID f) submitted, ACode (inr code));
                (GetIdentity (IdentityID code), AIdentity (inr recovered))]
    /\ Forall (callsNo mutates) pre
    /\ Forall (callsNo responds) t
    /\ CodeType code = RecoveryCodeTypeSelfService
    /\ RecoveryAddress code = None
    /\ identity.VerifiableAddresses recovered <> [].
Proof.
  intros H. apply Recover_cases in H.
  destruct H as [(_ & _ & [=]) | (_ & d & t1 & -> & H)].
  destruct d as [err | body]; [destruct H as [_ [=]]|].
  destruct H as (tc & csrf & t2 & -> & Hc & H).
  seen csrfGate_calls Hc.
  destruct csrf as [err|]; [destruct H as (e & _ & [=])|].
  destruct (submitsCode f body).
  2:{ destruct H as (sess & t3 & -> & H).
      destruct sess as [serr | s']; [| destruct H as (json & _ & [=])].
      destruct H as (tg & gate & t4 & -> & Hg & H).
      destruct gate as [err|]; [destruct H as [_ [=]]|].
      destruct H as (id & fetched & t5 & -> & H).
      destruct fetched as [err | fl]; [destruct H as [_ [=]]|].
      destruct H as (valid & t6 & -> & H).
      destruct valid as [err|]; [destruct H as (token & _ & [=])|].
      destruct H as (e & _ & [=]). }
  destruct H as (tg & gate & t3 & -> & Hg & H).
  seen MethodEnabledAndAllowed_calls Hg.
  destruct gate as [err|]; [destruct H as [_ [=]]|].
  apply recoveryUseCode_panic in H.
  destruct H as (code & recovered & -> & C1 & C2 & C3).
  exists ((DecodeRecovery r, APayload (inr body)) :: tc ++ tg), (Code body),
    code, recovered.
  split; [repeat (rewrite <- app_comm_cons || rewrite <- app_assoc); reflexivity|].
  split; [unfold callsNo; cbn; forall_trace|].
  split; [unfold callsNo; cbn; forall_trace|].
  auto.
Qed.

Lemma stepBare_run :
  run Mem.impl (Recover Sample.codeRequest Sample.F1sent) Sample.w1bare
  = Sample.stepBare.
Proof. vm_compute. reflexivity. Qed.

(** In the scenario, with the code stored without its recovery address. *)
Lemma Recover_panics_witness :
  behaves (Recover Sample.codeRequest Sample.F1sent) (snd Sample.stepBare) None
  /\ Forall (callsNo responds) (snd Sample.stepBare)
  /\ Mem.flows (snd (fst Sample.stepBare)) = Mem.flows Sample.w1.
Proof.
  assert (H : behaves (Recover Sample.codeRequest Sample.F1sent)
                (snd Sample.stepBare) None)
    by exact (run_behaves_eq _ _ _ _ stepBare_run).
  split; [exact H|].
  destruct (Recover_panics _ _ _ H) as (pre & s & c & i & _ & _ & W & _).
  split; [exact W | reflexivity].
Defined.

(* ===================================================================== *)
(** ** The registry of SAML middlewares *)

(** X30.  [GetMiddleware] answers the middleware registered for a provider
    exactly when a pointer other than nil is stored for it, and fails
    otherwise.  After [DestroyMiddlewareIfExists] for a provider,
    [GetMiddleware] fails for it, while every other provider is answered as
    before; destroying twice is destroying once.  The entry is set to nil,
    not deleted: no key ever leaves the registry. *)
Theorem DestroyMiddlewareIfExists_registry {M : Type} (m : saml.Registry M)
    (pid : string) :
  (forall mw, saml.GetMiddleware m pid = inr mw <-> m !! pid = Some (Some mw))
  /\ (exists e, saml.GetMiddleware (saml.DestroyMiddlewareIfExists m pid) pid = inl e)
  /\ (forall other, other <> pid ->
        saml.GetMiddleware (saml.DestroyMiddlewareIfExists m pid) other
        = saml.GetMiddleware m other)
  /\ saml.DestroyMiddlewareIfExists (saml.DestroyMiddlewareIfExists m pid) pid
     = saml.DestroyMiddlewareIfExists m pid
  /\ dom m ⊆ dom (saml.DestroyMiddlewareIfExists m pid).
Proof.
  unfold saml.GetMiddleware, saml.DestroyMiddlewareIfExists, saml.lookup.
  unfold saml.Registry in *.
  split; [| split; [| split; [| split]]].
  - intros mw. destruct (m !! pid) as [[x|]|]; split; intros H;
      try discriminate H; congruence.
  - destruct (m !! pid) as [[x|]|] eqn:E.
    + rewrite lookup_insert_eq. eauto.
    + rewrite E. eauto.
    + rewrite E. eauto.
  - intros other Ne. destruct (m !! pid) as [[x|]|]; try reflexivity.
    rewrite lookup_insert_ne by congruence. reflexivity.
  - destruct (m !! pid) as [[x|]|] eqn:E.
    + rewrite lookup_insert_eq. reflexivity.
    + rewrite E. reflexivity.
    + rewrite E. reflexivity.
  - destruct (m !! pid) as [[x|]|]; try reflexivity.
    rewrite dom_insert. set_solver.
Qed.
